(** * Statement decoding pipeline of [gmail_fetcher/pdf_parser.py]

    A shallow embedding of the PDF statement parser: the Python built-ins
    it calls ([str] methods, [float], [re], [datetime.strptime]), the two
    dataclasses, and the functions [parse_date], [parse_amount],
    [parse_transactions], [decrypt_pdf], [extract_text_from_pdf] and
    [parse_statement_pdf], followed by the properties of the specification.

    Further parts of the repository follow, under the same conventions:
    [_sanitize_filename] and [_get_pdf_attachments] of
    [gmail_fetcher/fetcher.py], [categorize_with_ollama] of
    [categorize_transactions.py], the client functions of
    [gmail_fetcher/supabase_client.py] and the loop of [parse_statements.py].

    Conventions.
    - A Python [str] is a [list ascii]: the model covers texts whose code
      points are below 256.  On that range [\d] is [0-9] and the white
      space of [str.strip], [str.isspace] and [\s] is
      U+0009..U+000D, U+001C..U+001F, U+0020, U+0085 and U+00A0.
    - A raised exception is the [Raise] outcome of [result]; [try]/[except]
      is a [match] on the outcome.
    - A finite Python [float] read from a decimal literal is represented by
      the rational that the literal denotes.  [float] and the Python reader
      round a decimal to the same double, rounding is monotone and fixes 0,
      so equalities between decimals and the comparisons [<= 0] and [>= 0]
      carry over to the doubles; a decimal beyond the range of the doubles
      is read as [inf], which is [>= 0] as well.
    - The requests that a run sends to the database and the storage are
      kept as a list, in the order in which they are sent; what the server
      answers to a request may depend on the requests sent before it. *)

From Stdlib Require Import List String Ascii Bool Arith ZArith QArith Lia.
From Stdlib Require Import Strings.Byte.
Import ListNotations.
Local Open Scope string_scope.
Local Open Scope nat_scope.
Local Open Scope list_scope.

Set Implicit Arguments.

(* ================================================================== *)
(** ** Python values: text, exceptions, outcomes *)

Module Py.

Definition text := list ascii.

(** A string literal of the source. *)
Definition lit (s : string) : text := list_ascii_of_string s.

Definition text_eqb (a b : text) : bool :=
  if list_eq_dec ascii_dec a b then true else false.

(** An exception: the name of its class, and its [__cause__] when it was
    raised from another one. *)
Inductive exn : Type :=
| Exception (cls : string)
| ExceptionFrom (cls : string) (cause : exn).

Definition exn_class (e : exn) : string :=
  match e with
  | Exception c => c
  | ExceptionFrom c _ => c
  end.

Definition ValueError : exn := Exception "ValueError".

Definition is_ValueError (e : exn) : bool :=
  String.eqb (exn_class e) "ValueError".

Inductive result (A : Type) : Type :=
| Ok (a : A)
| Raise (e : exn).
Arguments Ok {A} a.
Arguments Raise {A} e.

Definition bind {A B} (r : result A) (k : A -> result B) : result B :=
  match r with
  | Ok a => k a
  | Raise e => Raise e
  end.

(** A [for] loop whose body may raise: the loop stops at the first raise. *)
Fixpoint for_each {S X} (body : S -> X -> result S) (st : S) (xs : list X)
  : result S :=
  match xs with
  | [] => Ok st
  | x :: xs' => bind (body st x) (fun st' => for_each body st' xs')
  end.

(** *** Character classes *)

Definition code (c : ascii) : N := N_of_ascii c.

Definition between (lo hi c : ascii) : bool :=
  (code lo <=? code c)%N && (code c <=? code hi)%N.

(** [\d] and [str.isdigit] restricted to decimal digits. *)
Definition isdigit (c : ascii) : bool := between "0" "9" c.

(** [str.isspace] on one character, also the class [\s]. *)
Definition isspace (c : ascii) : bool :=
  between "009" "013" c || between "028" "032" c
  || (code c =? 133)%N || (code c =? 160)%N.

Definition digit_value (c : ascii) : N := (code c - 48)%N.

Definition lower (c : ascii) : ascii :=
  if between "A" "Z" c then ascii_of_N (code c + 32) else c.

(** *** [str] methods *)

Fixpoint lstrip_by (p : ascii -> bool) (s : text) : text :=
  match s with
  | c :: s' => if p c then lstrip_by p s' else s
  | [] => []
  end.

Definition strip_by (p : ascii -> bool) (s : text) : text :=
  rev (lstrip_by p (rev (lstrip_by p s))).

(** [s.strip()] *)
Definition strip (s : text) : text := strip_by isspace s.

(** [s.startswith(p)] *)
Fixpoint startswith (p s : text) : bool :=
  match p, s with
  | [], _ => true
  | a :: p', b :: s' => Ascii.eqb a b && startswith p' s'
  | _ :: _, [] => false
  end.

(** [s.endswith(p)] *)
Definition endswith (p s : text) : bool := startswith (rev p) (rev s).

(** [needle in s] *)
Fixpoint contains (needle s : text) : bool :=
  startswith needle s ||
  match s with
  | [] => false
  | _ :: s' => contains needle s'
  end.

(** [s.replace(c, "")] for a one-character [c]. *)
Definition remove_char (c : ascii) (s : text) : text :=
  filter (fun x => negb (Ascii.eqb x c)) s.

(** [s.split(sep)] for a one-character [sep]. *)
Fixpoint split (sep : ascii) (s : text) : list text :=
  match s with
  | [] => [[]]
  | c :: s' =>
      if Ascii.eqb c sep then [] :: split sep s'
      else match split sep s' with
           | l :: ls => (c :: l) :: ls
           | [] => [[c]]
           end
  end.

(** [s[1:-1]] *)
Definition slice_1_m1 (s : text) : text := removelast (tl s).

(** *** [float] *)

(** The value of a [float]; [Fin q] stands for the double nearest to [q]. *)
Inductive pyfloat : Type :=
| Fin (q : Q)
| Inf (negative : bool)
| NaN.

Definition float_neg (neg : bool) (f : pyfloat) : pyfloat :=
  if neg then
    match f with
    | Fin q => Fin (Qred (- q))
    | Inf b => Inf (negb b)
    | NaN => NaN
    end
  else f.

(** [f >= 0] *)
Definition float_nonneg (f : pyfloat) : Prop :=
  match f with
  | Fin q => (0 <= q)%Q
  | Inf negative => negative = false
  | NaN => False
  end.

(** [f == q] for a decimal literal [q]. *)
Definition float_is (f : pyfloat) (q : Q) : Prop :=
  match f with
  | Fin x => (x == q)%Q
  | _ => False
  end.

(** White space that [float] strips: the ASCII [isspace] of C, and the
    Unicode spaces above 127, which are first rewritten to a blank. *)
Definition float_space (c : ascii) : bool :=
  between "009" "013" c || (code c =? 32)%N
  || (code c =? 133)%N || (code c =? 160)%N.

(** The digits after the first one of a [digitpart]: single underscores are
    allowed between two digits. *)
Fixpoint digitpart_tail (s : text) : list N * text :=
  match s with
  | c :: s' =>
      if isdigit c then
        let (ds, r) := digitpart_tail s' in (digit_value c :: ds, r)
      else if Ascii.eqb c "_" then
        match s' with
        | d :: s'' =>
            if isdigit d then
              let (ds, r) := digitpart_tail s'' in (digit_value d :: ds, r)
            else ([], s)
        | [] => ([], s)
        end
      else ([], s)
  | [] => ([], [])
  end.

(** [digitpart ::= digit (["_"] digit)*] *)
Definition digitpart (s : text) : option (list N * text) :=
  match s with
  | c :: s' =>
      if isdigit c then
        let (ds, r) := digitpart_tail s' in Some (digit_value c :: ds, r)
      else None
  | [] => None
  end.

Definition digits_value (ds : list N) : N :=
  fold_left (fun acc d => (10 * acc + d)%N) ds 0%N.

(** [number ::= [digitpart] "." digitpart | digitpart ["."]]: the digits
    before the point, the digits after it, and the rest. *)
Definition number (s : text) : option (list N * list N * text) :=
  match digitpart s with
  | Some (ip, r) =>
      match r with
      | c :: r' =>
          if Ascii.eqb c "." then
            match digitpart r' with
            | Some (fp, r'') => Some (ip, fp, r'')
            | None => Some (ip, [], r')
            end
          else Some (ip, [], r)
      | [] => Some (ip, [], r)
      end
  | None =>
      match s with
      | c :: r' =>
          if Ascii.eqb c "." then
            match digitpart r' with
            | Some (fp, r'') => Some ([], fp, r'')
            | None => None
            end
          else None
      | [] => None
      end
  end.

(** [[sign]]: whether a minus was read, and the rest. *)
Definition sign (s : text) : bool * text :=
  match s with
  | c :: s' =>
      if Ascii.eqb c "-" then (true, s')
      else if Ascii.eqb c "+" then (false, s')
      else (false, s)
  | [] => (false, s)
  end.

(** [exponent ::= ("e" | "E") [sign] digitpart]; no exponent reads as 0. *)
Definition exponent (s : text) : Z * text :=
  match s with
  | c :: s' =>
      if Ascii.eqb (lower c) "e" then
        let (neg, s'') := sign s' in
        match digitpart s'' with
        | Some (ds, r) =>
            let e := Z.of_N (digits_value ds) in
            ((if neg then - e else e)%Z, r)
        | None => (0%Z, s)
        end
      else (0%Z, s)
  | [] => (0%Z, s)
  end.

(** [m * 10^e] as a reduced fraction. *)
Definition scale10 (m : N) (e : Z) : Q :=
  match e with
  | Z0 => Qred (Z.of_N m # 1)
  | Zpos p => Qred ((Z.of_N m * 10 ^ Zpos p)%Z # 1)
  | Zneg p => Qred (Z.of_N m # Pos.pow 10 p)
  end.

(** [floatnumber ::= number [exponent]], read to the end of the text. *)
Definition floatnumber (s : text) : option Q :=
  match number s with
  | Some (ip, fp, r) =>
      let (e, r') := exponent r in
      match r' with
      | [] => Some (scale10 (digits_value (ip ++ fp))
                            (e - Z.of_nat (List.length fp)))
      | _ :: _ => None
      end
  | None => None
  end.

(** ["inf"], ["infinity"] and ["nan"], in any case. *)
Definition special (s : text) : option pyfloat :=
  let l := map lower s in
  if text_eqb l (lit "inf") || text_eqb l (lit "infinity") then
    Some (Inf false)
  else if text_eqb l (lit "nan") then Some NaN
  else None.

(** [float(s)] for a [str] argument. *)
Definition float (s : text) : result pyfloat :=
  let (neg, body) := sign (strip_by float_space s) in
  match special body with
  | Some v => Ok (float_neg neg v)
  | None =>
      match floatnumber body with
      | Some q => Ok (float_neg neg (Fin q))
      | None => Raise ValueError
      end
  end.

End Py.

(* ================================================================== *)
(** ** Regular expressions of [re]: a backtracking matcher *)

Module Re.
Import Py.

(** The constructs that the patterns of the parser use.  A repetition
    always ranges over a one-character class, as it does in the source. *)
Inductive regex : Type :=
| Eps                                   (* the empty pattern *)
| Cls (p : ascii -> bool)               (* one character of a class *)
| Seq (r1 r2 : regex)                   (* r1 r2 *)
| Alt (r1 r2 : regex)                   (* r1|r2, left first *)
| Star (p : ascii -> bool)              (* [p]*, greedy *)
| StarLazy (p : ascii -> bool)          (* [p]*?, lazy *)
| Group (n : nat) (r : regex)           (* capturing group number n *)
| Eos.                                  (* $ *)

(** The text of the groups closed so far, latest first. *)
Definition captures := list (nat * text).

(** [$] holds at the end of the text and before a final newline. *)
Definition at_end (s : text) : bool :=
  match s with
  | [] => true
  | [c] => Ascii.eqb c "010"
  | _ => false
  end.

Section Matcher.
Variable A : Type.

(** Longest run of [p] first, then shorter ones. *)
Fixpoint star_greedy (p : ascii -> bool) (s : text)
    (k : text -> option A) : option A :=
  match s with
  | c :: s' =>
      if p c then
        match star_greedy p s' k with
        | Some a => Some a
        | None => k s
        end
      else k s
  | [] => k s
  end.

(** Shortest run of [p] first, then longer ones. *)
Fixpoint star_lazy (p : ascii -> bool) (s : text)
    (k : text -> option A) : option A :=
  match k s with
  | Some a => Some a
  | None =>
      match s with
      | c :: s' => if p c then star_lazy p s' k else None
      | [] => None
      end
  end.

(** [rmatch r s cs k]: match [r] at the front of [s], then hand the rest of
    the text and the captures to [k]; when [k] fails, backtrack. *)
Fixpoint rmatch (r : regex) (s : text) (cs : captures)
    (k : text -> captures -> option A) : option A :=
  match r with
  | Eps => k s cs
  | Cls p =>
      match s with
      | c :: s' => if p c then k s' cs else None
      | [] => None
      end
  | Seq r1 r2 => rmatch r1 s cs (fun s' cs' => rmatch r2 s' cs' k)
  | Alt r1 r2 =>
      match rmatch r1 s cs k with
      | Some a => Some a
      | None => rmatch r2 s cs k
      end
  | Star p => star_greedy p s (fun s' => k s' cs)
  | StarLazy p => star_lazy p s (fun s' => k s' cs)
  | Group n r1 =>
      rmatch r1 s cs
        (fun s' cs' =>
           k s' ((n, firstn (List.length s - List.length s') s) :: cs'))
  | Eos => if at_end s then k s cs else None
  end.

End Matcher.

(** Derived forms. *)
Definition Lit (c : ascii) : regex := Cls (Ascii.eqb c).
Definition Opt (r : regex) : regex := Alt r Eps.
Definition Plus (p : ascii -> bool) : regex := Seq (Cls p) (Star p).
Definition PlusLazy (p : ascii -> bool) : regex := Seq (Cls p) (StarLazy p).
Definition cat (rs : list regex) : regex := fold_right Seq Eps rs.
Definition Str (s : string) : regex := cat (map Lit (lit s)).
Definition Rep (n : nat) (r : regex) : regex := cat (repeat r n).

(** Classes. *)
Definition digit : ascii -> bool := isdigit.                (* \d *)
Definition space : ascii -> bool := isspace.                (* \s *)
Definition dot (c : ascii) : bool := negb (Ascii.eqb c "010").   (* . *)
Definition range (lo hi : ascii) : ascii -> bool := between lo hi.
Definition not_char (x : ascii) (c : ascii) : bool := negb (Ascii.eqb c x).

(** A match object: the text of each group. *)
Definition group (m : captures) (n : nat) : text :=
  match find (fun e => Nat.eqb (fst e) n) m with
  | Some e => snd e
  | None => []
  end.

(** [re.match(r, s)]: a match at the start of [s]. *)
Definition re_match (r : regex) (s : text) : option captures :=
  rmatch r s [] (fun _ cs => Some cs).

(** [re.search(r, s)]: the match at the leftmost position that has one. *)
Fixpoint re_search (r : regex) (s : text) : option captures :=
  match re_match r s with
  | Some m => Some m
  | None =>
      match s with
      | _ :: s' => re_search r s'
      | [] => None
      end
  end.

End Re.

(* ================================================================== *)
(** ** [datetime.strptime] for the two formats of the parser *)

Module Datetime.
Import Py Re.

(** A [datetime] at midnight, which is what a format without time
    directives builds. *)
Record datetime : Type := mk_datetime {
  year : Z;
  month : Z;
  day : Z
}.

Definition is_leap (y : Z) : bool :=
  ((y mod 4 =? 0) && (negb (y mod 100 =? 0) || (y mod 400 =? 0)))%Z.

Definition days_in_month (y m : Z) : Z :=
  if (m =? 2)%Z then (if is_leap y then 29 else 28)
  else if ((m =? 4) || (m =? 6) || (m =? 9) || (m =? 11))%Z then 30
  else 31.

(** The range check of the [date] constructor. *)
Definition valid_dateb (y m d : Z) : bool :=
  ((1 <=? y) && (y <=? 9999) && (1 <=? m) && (m <=? 12)
   && (1 <=? d) && (d <=? days_in_month y m))%Z.

(** A valid calendar date. *)
Definition valid_date (t : datetime) : Prop :=
  valid_dateb (year t) (month t) (day t) = true.

(** Group numbers standing for the named groups [d], [m] and [Y]. *)
Definition g_d : nat := 1.
Definition g_m : nat := 2.
Definition g_Y : nat := 3.

(** [%d]: (?P<d>3[0-1]|[1-2]\d|0[1-9]|[1-9]| [1-9]) *)
Definition re_d : regex :=
  Group g_d
    (Alt (Seq (Lit "3") (Cls (range "0" "1")))
    (Alt (Seq (Cls (range "1" "2")) (Cls digit))
    (Alt (Seq (Lit "0") (Cls (range "1" "9")))
    (Alt (Cls (range "1" "9"))
         (Seq (Lit " ") (Cls (range "1" "9"))))))).

(** [%m]: (?P<m>1[0-2]|0[1-9]|[1-9]) *)
Definition re_m : regex :=
  Group g_m
    (Alt (Seq (Lit "1") (Cls (range "0" "2")))
    (Alt (Seq (Lit "0") (Cls (range "1" "9")))
         (Cls (range "1" "9")))).

(** [%Y]: (?P<Y>\d\d\d\d) *)
Definition re_Y : regex := Group g_Y (Rep 4 (Cls digit)).

(** The pattern that [_strptime] compiles for ["%m/%d/%Y"]. *)
Definition format_mdY : regex := cat [re_m; Lit "/"; re_d; Lit "/"; re_Y].

(** The pattern that [_strptime] compiles for ["%d-%m-%Y"]. *)
Definition format_dmY : regex := cat [re_d; Lit "-"; re_m; Lit "-"; re_Y].

(** [int(s)] on a group of the patterns above: digits, after an optional
    leading blank. *)
Definition int (s : text) : Z :=
  Z.of_N (digits_value (map digit_value (strip s))).

(** [datetime.strptime(s, fmt)] for a format whose compiled pattern is
    [format]: the pattern must match at the start, nothing may remain after
    the match, and the three numbers must form a date. *)
Definition strptime (format : regex) (s : text) : result datetime :=
  match rmatch format s [] (fun rest cs => Some (rest, cs)) with
  | None => Raise ValueError          (* does not match format *)
  | Some (_ :: _, _) => Raise ValueError    (* unconverted data remains *)
  | Some ([], found) =>
      let y := int (group found g_Y) in
      let m := int (group found g_m) in
      let d := int (group found g_d) in
      if valid_dateb y m d then Ok (mk_datetime y m d)
      else Raise ValueError           (* out of range *)
  end.

End Datetime.

(* ================================================================== *)
(** ** [gmail_fetcher/pdf_parser.py] *)

Import Py Re Datetime.

(** [try: body except ValueError: handler] *)
Definition try_except_ValueError {A} (body handler : result A) : result A :=
  match body with
  | Ok a => Ok a
  | Raise e => if is_ValueError e then handler else Raise e
  end.

(** One line item of a statement. *)
Record Transaction : Type := mk_Transaction {
  posted_date : datetime;
  transaction_date : datetime;
  description : text;
  amount : pyfloat;
  transaction_type : text
}.

(** Summary information from the statement; every field defaults to
    [None]. *)
Record StatementSummary : Type := mk_StatementSummary {
  bill_period_start : option datetime;
  bill_period_end : option datetime;
  previous_balance : option pyfloat;
  new_balance : option pyfloat;
  payment_due_date : option datetime;
  minimum_payment : option pyfloat;
  payments : option pyfloat;
  purchases : option pyfloat
}.

(** [StatementSummary()] *)
Definition empty_summary : StatementSummary :=
  mk_StatementSummary None None None None None None None None.

(** Attribute assignments [summary.<field> = v]. *)
Definition set_bill_period_start (s : StatementSummary) (v : datetime) :=
  mk_StatementSummary (Some v) (bill_period_end s) (previous_balance s)
    (new_balance s) (payment_due_date s) (minimum_payment s) (payments s)
    (purchases s).

Definition set_bill_period_end (s : StatementSummary) (v : datetime) :=
  mk_StatementSummary (bill_period_start s) (Some v) (previous_balance s)
    (new_balance s) (payment_due_date s) (minimum_payment s) (payments s)
    (purchases s).

Definition set_previous_balance (s : StatementSummary) (v : pyfloat) :=
  mk_StatementSummary (bill_period_start s) (bill_period_end s) (Some v)
    (new_balance s) (payment_due_date s) (minimum_payment s) (payments s)
    (purchases s).

Definition set_new_balance (s : StatementSummary) (v : pyfloat) :=
  mk_StatementSummary (bill_period_start s) (bill_period_end s)
    (previous_balance s) (Some v) (payment_due_date s) (minimum_payment s)
    (payments s) (purchases s).

(** [parse_date]: a date in MM/DD/YYYY format, or [None]. *)
Definition parse_date (date_str : text) : result (option datetime) :=
  try_except_ValueError
    (bind (strptime format_mdY (strip date_str)) (fun d => Ok (Some d)))
    (Ok None).

(** [parse_amount]: remove [$] and commas, read a parenthesised value as
    negative, convert with [float]. *)
Definition parse_amount (amount_str : text) : result pyfloat :=
  let cleaned := strip (remove_char "," (remove_char "$" amount_str)) in
  let cleaned :=
    if startswith (lit "(") cleaned && endswith (lit ")") cleaned
    then lit "-" ++ slice_1_m1 cleaned
    else cleaned in
  float cleaned.

(** *** The patterns of [parse_transactions] *)

(** \d{2}-\d{2}-\d{4} *)
Definition re_date_dash : regex :=
  cat [Rep 2 (Cls digit); Lit "-"; Rep 2 (Cls digit); Lit "-";
       Rep 4 (Cls digit)].

(** \d{2}/\d{2}/\d{4} *)
Definition re_date_slash : regex :=
  cat [Rep 2 (Cls digit); Lit "/"; Rep 2 (Cls digit); Lit "/";
       Rep 4 (Cls digit)].

(** [\d,.] *)
Definition amount_char (c : ascii) : bool :=
  isdigit c || Ascii.eqb c "," || Ascii.eqb c ".".

(** Bill Period:\s*(\d{2}-\d{2}-\d{4})\s*-\s*(\d{2}-\d{2}-\d{4}) *)
Definition re_bill_period : regex :=
  cat [Str "Bill Period:"; Star space; Group 1 re_date_dash; Star space;
       Lit "-"; Star space; Group 2 re_date_dash].

(** Previous Balance\s*\$?([\d,.]+) *)
Definition re_prev_balance : regex :=
  cat [Str "Previous Balance"; Star space; Opt (Lit "$");
       Group 1 (Plus amount_char)].

(** New Balance[^\$]*\$?([\d,.]+) *)
Definition re_new_balance : regex :=
  cat [Str "New Balance"; Star (not_char "$"); Opt (Lit "$");
       Group 1 (Plus amount_char)].

(** (\d{2}/\d{2}/\d{4})\s+(\d{2}/\d{2}/\d{4})\s+(.+?)\s+\$?([\d,.]+)\s*$ *)
Definition re_tx : regex :=
  cat [Group 1 re_date_slash; Plus space; Group 2 re_date_slash; Plus space;
       Group 3 (PlusLazy dot); Plus space; Opt (Lit "$");
       Group 4 (Plus amount_char); Star space; Eos].

(** *** [parse_transactions] *)

(** The first-page block: bill period, previous balance, new balance. *)
Definition parse_summary (first_page : text) (summary : StatementSummary)
  : result StatementSummary :=
  (* Extract bill period *)
  bind
    (match re_search re_bill_period first_page with
     | Some bill_period_match =>
         match strptime format_dmY (group bill_period_match 1) with
         | Ok d1 =>
             let summary := set_bill_period_start summary d1 in
             match strptime format_dmY (group bill_period_match 2) with
             | Ok d2 => Ok (set_bill_period_end summary d2)
             | Raise e => if is_ValueError e then Ok summary else Raise e
             end
         | Raise e => if is_ValueError e then Ok summary else Raise e
         end
     | None => Ok summary
     end)
    (fun summary =>
  (* Extract balances *)
  bind
    (match re_search re_prev_balance first_page with
     | Some prev_balance_match =>
         bind (parse_amount (group prev_balance_match 1))
              (fun v => Ok (set_previous_balance summary v))
     | None => Ok summary
     end)
    (fun summary =>
  match re_search re_new_balance first_page with
  | Some new_balance_match =>
      bind (parse_amount (group new_balance_match 1))
           (fun v => Ok (set_new_balance summary v))
  | None => Ok summary
  end)).

(** The local variables that the page loop and the line loop update. *)
Record locals : Type := mk_locals {
  transactions : list Transaction;
  current_section : option text
}.

(** [if not current_section]: [None] and the empty string are false. *)
Definition falsy (o : option text) : bool :=
  match o with
  | None => true
  | Some [] => true
  | Some (_ :: _) => false
  end.

(** The body of [for line in lines]; every [continue] is an [Ok] that
    leaves the transactions as they are. *)
Definition line_body (st : locals) (line : text) : result locals :=
  let line := strip line in
  (* Detect section headers *)
  if contains (lit "Payments and Other Credits") line then
    Ok (mk_locals (transactions st) (Some (lit "credit")))
  else if contains (lit "Purchases and Cash Advances") line then
    Ok (mk_locals (transactions st) (Some (lit "debit")))
  else if contains (lit "Fees and Interest Charged") line then
    Ok (mk_locals (transactions st) (Some (lit "fees")))
  else if contains (lit "Sub Total") line
          || contains (lit "No transaction available") line then
    Ok st
  (* Skip non-transaction lines *)
  else if falsy (current_section st) then Ok st
  else
    match current_section st with
    | None => Ok st
    | Some section =>
        if text_eqb section (lit "fees") then Ok st
        else
          (* Try to parse transaction line *)
          match re_match re_tx line with
          | Some tx_match =>
              bind (parse_date (group tx_match 1)) (fun posted =>
              bind (parse_date (group tx_match 2)) (fun transaction =>
              let descr := strip (group tx_match 3) in
              bind (parse_amount (group tx_match 4)) (fun amt =>
              match posted, transaction with
              | Some p, Some t =>
                  Ok (mk_locals
                        (transactions st ++
                           [mk_Transaction p t descr amt section])
                        (current_section st))
              | _, _ => Ok st
              end)))
          | None => Ok st
          end
    end.

(** The body of [for page_text in pages_text]. *)
Definition page_body (st : locals) (page_text : text) : result locals :=
  if negb (contains (lit "Account Activity") page_text) then Ok st
  else
    let lines := split "010" page_text in
    let st := mk_locals (transactions st) None in
    for_each line_body st lines.

Definition parse_transactions (pages_text : list text)
  : result (list Transaction * StatementSummary) :=
  let st := mk_locals [] None in
  let summary := empty_summary in
  (* Parse first page for summary info *)
  bind
    (match pages_text with
     | first_page :: _ => parse_summary first_page summary
     | [] => Ok summary
     end)
    (fun summary =>
  (* Parse transaction pages *)
  bind (for_each page_body st pages_text) (fun st =>
  Ok (transactions st, summary))).

(** *** The pipeline, over the two PDF libraries *)

Section Pipeline.

(** [pikepdf]: an opened document; [pikepdf.open(buffer, password=...)];
    [pdf.save(buffer)], giving the bytes written. *)
Variable pikepdf_Pdf : Type.
Variable pikepdf_open : list byte -> text -> result pikepdf_Pdf.
Variable pikepdf_save : pikepdf_Pdf -> result (list byte).

(** [pdfplumber]: a page; [pdfplumber.open(buffer).pages];
    [page.extract_text()], which may be [None]. *)
Variable pdfplumber_Page : Type.
Variable pdfplumber_pages : list byte -> result (list pdfplumber_Page).
Variable extract_text : pdfplumber_Page -> result (option text).

Definition decrypt_pdf (pdf_bytes : list byte) (password : text)
  : result (list byte) :=
  bind (pikepdf_open pdf_bytes password) (fun pdf =>
  pikepdf_save pdf).

Definition extract_text_from_pdf (pdf_bytes : list byte)
  : result (list text) :=
  bind (pdfplumber_pages pdf_bytes) (fun pages =>
  for_each
    (fun pages_text page =>
       bind (extract_text page) (fun t =>
       (* [page.extract_text() or ""]: [None] and the empty text both
          give the empty text *)
       let text := match t with
                   | Some s => s
                   | None => []
                   end in
       Ok (pages_text ++ [text])))
    [] pages).

Definition parse_statement_pdf (pdf_bytes : list byte) (password : text)
  : result (list Transaction * StatementSummary) :=
  bind (decrypt_pdf pdf_bytes password) (fun decrypted =>
  bind (extract_text_from_pdf decrypted) (fun pages_text =>
  parse_transactions pages_text)).

End Pipeline.

(** ["\n".join(lines)]: a page text written line by line. *)
Definition join_lines (ls : list string) : text :=
  match ls with
  | [] => []
  | l :: ls' => lit l ++ flat_map (fun x => "010"%char :: lit x) ls'
  end.

(* ================================================================== *)
(** ** What a successful match says about the text *)

(** [sem r s1 s2 cs cs']: [r] can match [s1] when [s2] follows, taking the
    captures from [cs] to [cs']. *)
Fixpoint sem (r : regex) (s1 s2 : text) (cs cs' : captures) : Prop :=
  match r with
  | Eps => s1 = [] /\ cs' = cs
  | Cls p => exists c, s1 = [c] /\ p c = true /\ cs' = cs
  | Seq r1 r2 =>
      exists a b cm,
        s1 = a ++ b /\ sem r1 a (b ++ s2) cs cm /\ sem r2 b s2 cm cs'
  | Alt r1 r2 => sem r1 s1 s2 cs cs' \/ sem r2 s1 s2 cs cs'
  | Star p => forallb p s1 = true /\ cs' = cs
  | StarLazy p => forallb p s1 = true /\ cs' = cs
  | Group n r1 => exists cm, sem r1 s1 s2 cs cm /\ cs' = (n, s1) :: cm
  | Eos => s1 = [] /\ at_end s2 = true /\ cs' = cs
  end.

(** A pattern without capturing groups. *)
Fixpoint groupless (r : regex) : bool :=
  match r with
  | Seq r1 r2 | Alt r1 r2 => groupless r1 && groupless r2
  | Group _ _ => false
  | _ => true
  end.

(** The characters left of an amount field once [$] and commas are gone. *)
Definition number_char (c : ascii) : bool := isdigit c || Ascii.eqb c ".".

(** The invariant of the scan: what the section variable can hold, and what
    every transaction collected so far satisfies. *)
Definition section_ok (o : option text) : Prop :=
  o = None \/ o = Some (lit "credit") \/ o = Some (lit "debit")
  \/ o = Some (lit "fees").

Definition transaction_ok (tx : Transaction) : Prop :=
  float_nonneg (amount tx)
  /\ (transaction_type tx = lit "credit" \/ transaction_type tx = lit "debit")
  /\ valid_date (posted_date tx)
  /\ valid_date (transaction_date tx).

Definition scan_inv (st : locals) : Prop :=
  Forall transaction_ok (transactions st) /\ section_ok (current_section st).

(** The transactions that one page yields when it is scanned on its own,
    from the section state [None]: the reading of the specification, to be
    compared with the loop of [parse_transactions]. *)
Definition page_contribution (page_text : text)
  : result (list Transaction) :=
  if contains (lit "Account Activity") page_text then
    bind (for_each line_body (mk_locals [] None) (split "010" page_text))
         (fun st => Ok (transactions st))
  else Ok [].

(** [f] over a list, in order, stopping at the first raise. *)
Fixpoint map_result {X Y} (f : X -> result Y) (xs : list X)
  : result (list Y) :=
  match xs with
  | [] => Ok []
  | x :: xs' =>
      bind (f x) (fun y =>
      bind (map_result f xs') (fun ys => Ok (y :: ys)))
  end.

(** Stand-ins for the two PDF libraries, for concrete runs of the
    pipeline: a document is its bytes, a page is its text. *)
Definition open_accepting (b : list byte) (_ : text) : result (list byte) :=
  Ok b.
Definition open_rejecting (_ : list byte) (_ : text) : result (list byte) :=
  Raise (Exception "PasswordError").
Definition save_bytes (b : list byte) : result (list byte) := Ok b.
Definition pages_fixed (pages : list (option text)) (_ : list byte)
  : result (list (option text)) := Ok pages.
Definition text_of_page (p : option text) : result (option text) := Ok p.

(* ================================================================== *)
(** ** Further definitions on amounts, dates and the summary *)

(** What every summary built by [parse_summary] satisfies. *)
Definition summary_ok (s : StatementSummary) : Prop :=
  (forall d, bill_period_start s = Some d -> valid_date d)
  /\ (forall d, bill_period_end s = Some d ->
        valid_date d /\ bill_period_start s <> None)
  /\ (forall f, previous_balance s = Some f -> float_nonneg f)
  /\ (forall f, new_balance s = Some f -> float_nonneg f)
  /\ payment_due_date s = None /\ minimum_payment s = None
  /\ payments s = None /\ purchases s = None.

(** The number of points of a text. *)
Definition points (s : text) : nat :=
  List.length (filter (fun c => Ascii.eqb c ".") s).

(** At most one point and at least one digit. *)
Definition decimal_shaped (s : text) : bool :=
  (points s <=? 1) && existsb isdigit s.

(** The value of a decimal: all the digits, scaled by the number of digits
    after the point. *)
Definition decimal_value (ip fp : text) : Q :=
  scale10 (digits_value (map digit_value (ip ++ fp)))
          (- Z.of_nat (List.length fp)).

(** The number that a text of digits denotes. *)
Definition number_of (s : text) : Z :=
  Z.of_N (digits_value (map digit_value s)).

(** A date text of the shape that the line pattern captures. *)
Definition slash_date (m1 m2 d1 d2 y1 y2 y3 y4 : ascii) : text :=
  [m1; m2; "/"%char; d1; d2; "/"%char; y1; y2; y3; y4].

(* ================================================================== *)
(** ** File names of attachments ([fetcher.py]) *)

(** [re.sub(r, repl, s)] for a pattern [r] that does not match the empty
    text and a replacement without group references: the matches are found
    from left to right, each one starting where the previous one ended.
    The fuel bounds the number of steps; the length of [s] is enough. *)
Fixpoint re_sub_from (fuel : nat) (r : regex) (repl s : text) : text :=
  match fuel with
  | 0 => s
  | S fuel' =>
      match s with
      | [] => []
      | c :: s' =>
          match rmatch r s [] (fun rest _ => Some rest) with
          | Some rest => repl ++ re_sub_from fuel' r repl rest
          | None => c :: re_sub_from fuel' r repl s'
          end
      end
  end.

Definition re_sub (r : regex) (repl s : text) : text :=
  re_sub_from (List.length s) r repl s.

(** [s.rsplit(sep, 1)] for a one-character [sep] that occurs in [s]: the
    text before the last [sep] and the text after it. *)
Fixpoint takewhile (p : ascii -> bool) (s : text) : text :=
  match s with
  | c :: s' => if p c then c :: takewhile p s' else []
  | [] => []
  end.

Definition rsplit1 (sep : ascii) (s : text) : text * text :=
  let r := rev s in
  let not_sep := fun c => negb (Ascii.eqb c sep) in
  (rev (tl (lstrip_by not_sep r)), rev (takewhile not_sep r)).

(** The class of the first pattern: the nine characters [<], [>], [:],
    the double quote (code 34), [/], the backslash, [|], [?] and the
    star. *)
Definition invalid_char (c : ascii) : bool :=
  Ascii.eqb c "<" || Ascii.eqb c ">" || Ascii.eqb c ":" || Ascii.eqb c "034"
  || Ascii.eqb c "/" || Ascii.eqb c "\" || Ascii.eqb c "|" || Ascii.eqb c "?"
  || Ascii.eqb c "*".

Definition underscore (c : ascii) : bool := Ascii.eqb c "_".

(** [_sanitize_filename] of [fetcher.py]. *)
Definition _sanitize_filename (filename : text) : text :=
  (* Remove or replace invalid characters *)
  let sanitized := re_sub (Cls invalid_char) (lit "_") filename in
  (* Collapse multiple underscores *)
  let sanitized := re_sub (Plus underscore) (lit "_") sanitized in
  (* Limit length *)
  if 200 <? List.length sanitized then
    let (name, ext) :=
      if contains (lit ".") sanitized then rsplit1 "." sanitized
      else (sanitized, []) in
    firstn 195 name ++ match ext with
                       | [] => []
                       | _ :: _ => lit "." ++ ext
                       end
  else sanitized.

(** The effect of [re.sub] with a pattern [[p]+]: each maximal run of [p]
    becomes one [repl]; [in_run] tells that the previous character was in
    a run. *)
Fixpoint sub_runs (p : ascii -> bool) (repl : text) (in_run : bool)
    (s : text) : text :=
  match s with
  | [] => []
  | c :: s' =>
      if p c then (if in_run then [] else repl) ++ sub_runs p repl true s'
      else c :: sub_runs p repl false s'
  end.

(** No two adjacent characters of the class [p]. *)
Fixpoint no_double (p : ascii -> bool) (s : text) : bool :=
  match s with
  | a :: (b :: _) as t => negb (p a && p b) && no_double p t
  | _ => true
  end.

Definition not_point (c : ascii) : bool := negb (Ascii.eqb c ".").

(** A character that the two substitutions and the split leave alone. *)
Definition plain_char (c : ascii) : bool :=
  negb (invalid_char c) && negb (underscore c) && not_point c.

(** The text after the two substitutions. *)
Definition substituted (filename : text) : text :=
  sub_runs underscore (lit "_") false
    (map (fun c => if invalid_char c then "_"%char else c) filename).

Definition valid_char (c : ascii) : bool := negb (invalid_char c).

(** The length limit applied to the text [t] left by the substitutions. *)
Definition limited (t : text) : text :=
  if 200 <? List.length t then
    let (name, ext) :=
      if contains (lit ".") t then rsplit1 "." t else (t, []) in
    firstn 195 name ++ match ext with
                       | [] => []
                       | _ :: _ => lit "." ++ ext
                       end
  else t.

(* ================================================================== *)
(** ** The categorizer ([categorize_transactions.py]) *)

(** [str.lower] on one character below 256: the ASCII capitals and the
    Latin-1 capitals U+00C0..U+00DE, the sign U+00D7 apart. *)
Definition lower_char (c : ascii) : ascii :=
  if between "A" "Z" c
     || (between "192" "222" c && negb (code c =? 215)%N)
  then ascii_of_N (code c + 32)
  else c.

(** [s.lower()] *)
Definition str_lower (s : text) : text := map lower_char s.

(** A JSON value as [categorize_with_ollama] can tell it apart: a string,
    or anything else; and a JSON document: an object, or anything else. *)
Inductive json_value : Type :=
| JString (s : text)
| JOther.

Inductive json_document : Type :=
| JObject (fields : list (string * json_value))
| JNotObject.

(** [d.get(key, default)] *)
Definition dict_get (fields : list (string * json_value)) (key : string)
    (default : json_value) : json_value :=
  match find (fun e => String.eqb (fst e) key) fields with
  | Some e => snd e
  | None => default
  end.

(** What [requests.post] returns: the status code, and the outcome of
    [response.json()]. *)
Record response : Type := mk_response {
  status_code : Z;
  json : result json_document
}.

(** The JSON body of the request. *)
Record generate_request : Type := mk_generate_request {
  model : text;
  prompt : text;
  stream : bool;
  temperature : Q;
  num_predict : Z
}.

Definition VALID_CATEGORIES : list text :=
  map lit ["Shopping"; "Food & Dining"; "Transportation"; "Subscriptions";
           "Utilities"; "Housing"; "Entertainment"; "Travel"; "Healthcare";
           "Income"; "Other"].

Definition SYSTEM_PROMPT : text :=
  join_lines
    ["You are a transaction categorizer. Given a credit card transaction description, respond with ONLY the category name from this list:";
     "- Shopping (retail: Amazon, Walmart, Target, etc.)";
     "- Food & Dining (restaurants, food delivery, groceries)";
     "- Transportation (Uber, Lyft, gas, parking)";
     "- Subscriptions (Netflix, Spotify, cloud services, software)";
     "- Utilities (phone, internet, electricity)";
     "- Housing (rent, mortgage, home services)";
     "- Entertainment (movies, games, events, hobbies)";
     "- Travel (hotels, flights, travel bookings)";
     "- Healthcare (medical, pharmacy, insurance)";
     "- Income (refunds, cashback, payments received)";
     "- Other (anything else)";
     EmptyString;
     "Respond with ONLY the category name, nothing else."].

Section Categorizer.

(** The configuration read from the environment, and [requests.post] with
    its [json] and [timeout] arguments. *)
Variable OLLAMA_URL : text.

Variable OLLAMA_MODEL : text.

Variable requests_post : text -> generate_request -> Z -> result response.

(** The [json] argument of the request. *)
Definition generate_request_for (description : text) : generate_request :=
  mk_generate_request OLLAMA_MODEL
    (SYSTEM_PROMPT ++ join_lines [EmptyString; EmptyString; "Transaction: "]
       ++ description ++ join_lines [EmptyString; "Category:"])
    false 0.1 20.

(** [categorize_with_ollama]: every exception is caught and gives [None],
    so the outcome is an optional category. *)
Definition categorize_with_ollama (description : text) : option text :=
  match
    requests_post (OLLAMA_URL ++ lit "/api/generate")
      (generate_request_for description) 30
  with
  | Raise _ => None
  | Ok response =>
      if negb (status_code response =? 200)%Z then None
      else
        match json response with
        | Raise _ => None
        | Ok JNotObject => None            (* no [get] attribute *)
        | Ok (JObject result) =>
            match dict_get result "response" (JString []) with
            | JOther => None               (* no [strip] attribute *)
            | JString r =>
                let category := strip r in
                (* Validate category *)
                match
                  find (fun valid_cat =>
                          contains (str_lower valid_cat) (str_lower category))
                       VALID_CATEGORIES
                with
                | Some valid_cat => Some valid_cat
                | None => Some (lit "Other")   (* Fallback to Other *)
                end
            end
        end
  end.

End Categorizer.

(** A server that answers every request with the text [reply]. *)
Definition replying (reply : text) (_ : text) (_ : generate_request)
    (_ : Z) : result response :=
  Ok (mk_response 200 (Ok (JObject [("response", JString reply)]))).

(* ================================================================== *)
(** ** PDF attachments of a message ([fetcher.py]) *)

(** The [body] of a message part: each key may be missing. *)
Record part_body : Type := mk_part_body {
  attachmentId : option text;
  data : option text
}.

(** A message part of the Gmail API, as the dict that the code reads.  The
    keys [filename], [mimeType] and [body] may be missing; a missing
    [parts] and an empty one are not told apart by the code, and both are
    the empty list here. *)
#[local] Unset Elimination Schemes.

Inductive message_part : Type :=
| MessagePart (filename : option text) (mimeType : option text)
              (body : option part_body) (parts : list message_part).

#[local] Set Elimination Schemes.

Definition part_filename (p : message_part) : option text :=
  match p with MessagePart f _ _ _ => f end.

Definition part_mimeType (p : message_part) : option text :=
  match p with MessagePart _ m _ _ => m end.

Definition part_body_of (p : message_part) : option part_body :=
  match p with MessagePart _ _ b _ => b end.

Definition part_parts (p : message_part) : list message_part :=
  match p with MessagePart _ _ _ ps => ps end.

(** [d.get(key, "")] for a text value. *)
Definition get_text (o : option text) : text :=
  match o with Some s => s | None => [] end.

(** The truth value of [d.get(key)] for a text value. *)
Definition truthy_text (o : option text) : bool :=
  match o with Some (_ :: _) => true | _ => false end.

Definition KeyError : exn := Exception "KeyError".

(** The test of a part: a file name, and the PDF type or a name that ends
    with [.pdf] in any case. *)
Definition is_pdf_attachment (part : message_part) : bool :=
  let filename := get_text (part_filename part) in
  let mime_type := get_text (part_mimeType part) in
  negb (text_eqb filename [])
  && (text_eqb mime_type (lit "application/pdf")
      || endswith (lit ".pdf") (str_lower filename)).

Section Attachments.

(** [service.users().messages().attachments().get(userId="me",
    messageId=..., id=...).execute()]: the [data] key of the answer, when
    it has one; and [base64.urlsafe_b64decode]. *)
Variable attachments_get : text -> text -> result (option text).

Variable urlsafe_b64decode : text -> result (list byte).

(** The body of the loop for a part without nested parts. *)
Definition leaf_attachments (msg_id : text) (part : message_part)
  : result (list (text * list byte)) :=
  let filename := get_text (part_filename part) in
  (* Check if this is a PDF attachment *)
  if is_pdf_attachment part then
    let body := match part_body_of part with
                | Some b => b
                | None => mk_part_body None None
                end in
    if truthy_text (attachmentId body) then
      (* Fetch attachment data *)
      bind (attachments_get msg_id (get_text (attachmentId body)))
           (fun attachment =>
      match attachment with
      | None => Raise KeyError
      | Some d =>
          (* Decode base64url data *)
          bind (urlsafe_b64decode d) (fun decoded =>
          Ok [(filename, decoded)])
      end)
    else if truthy_text (data body) then
      (* Inline attachment *)
      bind (urlsafe_b64decode (get_text (data body))) (fun decoded =>
      Ok [(filename, decoded)])
    else Ok []
  else Ok [].

(** [for part in parts]: the attachments of each part, in order. *)
Definition parts_loop
    (visit : message_part -> result (list (text * list byte)))
  : list message_part -> result (list (text * list byte)) :=
  fix loop (ps : list message_part) :=
    match ps with
    | [] => Ok []
    | part :: ps' =>
        bind (visit part) (fun found =>
        bind (loop ps') (fun others => Ok (found ++ others)))
    end.

(** [_get_pdf_attachments] of [fetcher.py]. *)
Fixpoint _get_pdf_attachments (msg_id : text) (payload : message_part)
  : result (list (text * list byte)) :=
  match payload with
  | MessagePart filename _ _ parts =>
      let visit := fun part =>
        match part with
        | MessagePart _ _ _ (_ :: _) =>
            (* Recurse into nested parts *)
            _get_pdf_attachments msg_id part
        | MessagePart _ _ _ [] => leaf_attachments msg_id part
        end in
      match parts with
      | _ :: _ => parts_loop visit parts
      | [] =>
          (* Handle single-part messages: the payload is the one part of
             the loop, and it has no nested parts *)
          if truthy_text filename
          then parts_loop (leaf_attachments msg_id) [payload]
          else parts_loop visit []
      end
  end.

End Attachments.

(** [p] is [payload] or a part nested in it. *)
Inductive part_of : message_part -> message_part -> Prop :=
| part_of_self p : part_of p p
| part_of_nested p q f m b ps :
    In q ps -> part_of p q -> part_of p (MessagePart f m b ps).

(** Induction on a message part, with the hypothesis for every nested
    part. *)
Section MessagePartInduction.

Variable P : message_part -> Prop.
Hypothesis step :
  forall f m b ps, Forall P ps -> P (MessagePart f m b ps).

Fixpoint message_part_induction (p : message_part) : P p :=
  match p with
  | MessagePart f m b ps =>
      step f m b
        ((fix all (l : list message_part) : Forall P l :=
            match l with
            | [] => Forall_nil P
            | x :: l' => Forall_cons x (message_part_induction x) (all l')
            end) ps)
  end.

End MessagePartInduction.

(** A server that answers with the identifier as the data, a decoder that
    gives no byte, and a message with a nested HTML part and a PDF part. *)
Definition attachments_echo (_ : text) (id : text) : result (option text) :=
  Ok (Some id).

Definition decode_empty (_ : text) : result (list byte) := Ok [].

Definition example_payload : message_part :=
  MessagePart (Some (lit "outer.pdf")) (Some (lit "multipart/mixed")) None
    [MessagePart None (Some (lit "multipart/alternative")) None
       [MessagePart (Some []) (Some (lit "text/html"))
          (Some (mk_part_body None (Some (lit "aGk=")))) []];
     MessagePart (Some (lit "Statement.PDF"))
       (Some (lit "application/octet-stream"))
       (Some (mk_part_body (Some (lit "att-1")) None)) []].

(* ================================================================== *)
(** ** [supabase_client.py] and the loop of [parse_statements.py] *)

(** The values of the dicts that carry a transaction. *)
Inductive pyvalue : Type :=
| PStr (s : text)
| PFloat (f : pyfloat).

(** A dict with text keys, in insertion order. *)
Definition pydict := list (string * pyvalue).

(** [d[key]] *)
Definition getitem (d : pydict) (key : string) : result pyvalue :=
  match find (fun e => String.eqb (fst e) key) d with
  | Some e => Ok (snd e)
  | None => Raise KeyError
  end.

(** A request sent through the client.  The time stamp that
    [update_status] sends with the status is left out. *)
Inductive call : Type :=
| SelectStatements (status : text)
| UpdateStatus (statement_id status : text)
| DownloadPdf (storage_path : text)
| InsertRecords (table : string) (records : list pydict).

(** A computation that talks to the server: from the requests sent so
    far, its outcome and the requests sent when it ends. *)
Definition client_io (A : Type) : Type := list call -> result A * list call.

Definition io_ret {A} (a : A) : client_io A := fun h => (Ok a, h).

Definition io_raise {A} (e : exn) : client_io A := fun h => (Raise e, h).

Definition io_lift {A} (r : result A) : client_io A := fun h => (r, h).

Definition io_bind {A B} (m : client_io A) (k : A -> client_io B)
  : client_io B :=
  fun h =>
    match m h with
    | (Ok a, h') => k a h'
    | (Raise e, h') => (Raise e, h')
    end.

(** [try: m  except Exception as e: handler e] *)
Definition io_try {A} (m : client_io A) (handler : exn -> client_io A)
  : client_io A :=
  fun h =>
    match m h with
    | (Ok a, h') => (Ok a, h')
    | (Raise e, h') => handler e h'
    end.

(** One request [c]; what the server answers may depend on the requests
    sent before. *)
Definition io_call {A} (c : call) (answer : list call -> result A)
  : client_io A :=
  fun h => (answer h, h ++ [c]).

(** A row of the [statements] table as [parse_statements.py] reads it: the
    key [id], and the key [storage_path], which may be missing or hold
    nothing. *)
Record statement_row : Type := mk_statement_row {
  row_id : option text;
  row_storage_path : option text
}.

(** The decimal digit of a number below ten. *)
Definition digit_char (n : Z) : ascii := ascii_of_N (48 + Z.to_N n).

(** ["%0wd" % n] for [0 <= n < 10^w]. *)
Fixpoint zero_padded (w : nat) (n : Z) : text :=
  match w with
  | 0 => []
  | S w' => zero_padded w' (n / 10) ++ [digit_char (n mod 10)]
  end.

(** [d.isoformat()] for a [datetime] at midnight. *)
Definition isoformat (d : datetime) : text :=
  zero_padded 4 (year d) ++ lit "-" ++ zero_padded 2 (month d) ++ lit "-"
  ++ zero_padded 2 (day d) ++ lit "T00:00:00".

(** The dict that [parse_statements.py] builds from a transaction. *)
Definition tx_dict (tx : Transaction) : pydict :=
  [("posted_date", PStr (isoformat (posted_date tx)));
   ("transaction_date", PStr (isoformat (transaction_date tx)));
   ("description", PStr (description tx));
   ("amount", PFloat (amount tx));
   ("transaction_type", PStr (transaction_type tx))].

Section Supabase.

(** The configuration of [config.py], read from the environment. *)
Variable SUPABASE_URL : option text.

Variable SUPABASE_KEY : option text.

(** [create_client] of the [supabase] package; the client itself is not
    looked into. *)
Variable create_client : text -> text -> result unit.

(** What the server answers, given the requests sent before:
    [client.table("statements").select("*").eq("status", s).execute().data],
    [client.table("statements").update(...).eq("id", i).execute().data],
    [client.storage.from_(STORAGE_BUCKET).download(path)] and
    [client.table(name).insert(records).execute().data]. *)
Variable statements_select : list call -> text -> result (list statement_row).

Variable statements_update :
  list call -> text -> text -> result (option (list pydict)).

Variable storage_download : list call -> text -> result (list byte).

Variable table_insert :
  list call -> string -> list pydict -> result (option (list pydict)).

(** [get_supabase_client] of [supabase_client.py]. *)
Definition get_supabase_client : result unit :=
  if negb (truthy_text SUPABASE_URL) || negb (truthy_text SUPABASE_KEY)
  then Raise ValueError
  else create_client (get_text SUPABASE_URL) (get_text SUPABASE_KEY).

(** [get_statements_by_status] *)
Definition get_statements_by_status (status : text)
  : client_io (list statement_row) :=
  io_call (SelectStatements status) (fun h => statements_select h status).

(** [update_status] *)
Definition update_status (statement_id status : text) : client_io pydict :=
  io_bind (io_call (UpdateStatus statement_id status)
             (fun h => statements_update h statement_id status))
          (fun data =>
  (* [result.data[0] if result.data else {}] *)
  io_ret (match data with
          | Some (row :: _) => row
          | _ => []
          end)).

(** [download_pdf] *)
Definition download_pdf (storage_path : text) : client_io (list byte) :=
  io_call (DownloadPdf storage_path)
    (fun h => storage_download h storage_path).

(** The record that [insert_transactions_batch] builds from one dict. *)
Definition batch_record (statement_id : text) (tx : pydict)
  : result pydict :=
  bind (getitem tx "posted_date") (fun posted =>
  bind (getitem tx "transaction_date") (fun made =>
  bind (getitem tx "description") (fun descr =>
  bind (getitem tx "amount") (fun amt =>
  bind (getitem tx "transaction_type") (fun type =>
  Ok [("statement_id", PStr statement_id);
      ("posted_date", posted);
      ("transaction_date", made);
      ("description", descr);
      ("amount", amt);
      ("transaction_type", type)]))))).

(** [insert_transactions_batch] *)
Definition insert_transactions_batch (statement_id : text)
    (transactions : list pydict) : client_io (list pydict) :=
  io_bind (io_lift (map_result (batch_record statement_id) transactions))
          (fun records =>
  match records with
  | [] => io_ret []
  | _ :: _ =>
      io_bind (io_call (InsertRecords "transactions" records)
                 (fun h => table_insert h "transactions" records))
              (fun data =>
      (* [result.data if result.data else []] *)
      io_ret (match data with
              | Some rows => rows
              | None => []
              end))
  end).

End Supabase.

(** The record that the batch insertion sends for a transaction of the
    statement [statement_id]. *)
Definition record_of (statement_id : text) (tx : Transaction) : pydict :=
  ("statement_id", PStr statement_id) :: tx_dict tx.

(** *** [parse_statements.py] *)

Module ParseStatements.

Section Main.

(** The configuration, the server, the password of the environment and
    the two PDF libraries. *)
Variable SUPABASE_URL : option text.

Variable SUPABASE_KEY : option text.

Variable create_client : text -> text -> result unit.

Variable statements_select : list call -> text -> result (list statement_row).

Variable statements_update :
  list call -> text -> text -> result (option (list pydict)).

Variable storage_download : list call -> text -> result (list byte).

Variable table_insert :
  list call -> string -> list pydict -> result (option (list pydict)).

Variable PDF_PASSWORD : text.

Variable pikepdf_Pdf : Type.

Variable pikepdf_open : list byte -> text -> result pikepdf_Pdf.

Variable pikepdf_save : pikepdf_Pdf -> result (list byte).

Variable pdfplumber_Page : Type.

Variable pdfplumber_pages : list byte -> result (list pdfplumber_Page).

Variable extract_text : pdfplumber_Page -> result (option text).

(** The [try] block of the loop of [main].  The counter of transactions
    and the file name of the row feed the printed report only, and are
    left out with it. *)
Definition statement_body (stmt_id storage_path : text) : client_io unit :=
  (* Update status to 'parsing' *)
  io_bind (update_status statements_update stmt_id (lit "parsing")) (fun _ =>
  (* Download PDF from storage *)
  io_bind (download_pdf storage_download storage_path) (fun pdf_bytes =>
  (* Parse transactions from PDF *)
  io_bind (io_lift (parse_statement_pdf pikepdf_open pikepdf_save
                      pdfplumber_pages extract_text pdf_bytes PDF_PASSWORD))
          (fun parsed =>
  let transactions := fst parsed in
  io_bind (match transactions with
           | _ :: _ =>
               (* Convert to dict format for insertion *)
               let tx_dicts := map tx_dict transactions in
               (* Insert transactions to database *)
               io_bind (insert_transactions_batch table_insert stmt_id
                          tx_dicts)
                       (fun _ => io_ret tt)
           | [] => io_ret tt
           end) (fun _ =>
  (* Update status to 'parsed' *)
  io_bind (update_status statements_update stmt_id (lit "parsed")) (fun _ =>
  io_ret tt))))).

(** The body of the loop over the statements. *)
Definition process_statement (stmt : statement_row) : client_io unit :=
  match row_id stmt with
  | None => io_raise KeyError            (* [stmt["id"]] *)
  | Some stmt_id =>
      if negb (truthy_text (row_storage_path stmt)) then io_ret tt
      else
        io_try
          (statement_body stmt_id (get_text (row_storage_path stmt)))
          (fun _ =>
             (* Update status to 'error' *)
             io_bind (update_status statements_update stmt_id (lit "error"))
                     (fun _ => io_ret tt))
  end.

(** [for stmt in statements] *)
Fixpoint statements_loop (statements : list statement_row)
  : client_io unit :=
  match statements with
  | [] => io_ret tt
  | stmt :: rest =>
      io_bind (process_statement stmt) (fun _ => statements_loop rest)
  end.

(** [main]: the value returned, and the requests sent.  Both handlers of
    the outer [try] return 1. *)
Definition main : Z * list call :=
  match get_supabase_client SUPABASE_URL SUPABASE_KEY create_client with
  | Raise _ => (1%Z, [])
  | Ok _ =>
      match
        get_statements_by_status statements_select (lit "not_parsed") []
      with
      | (Raise _, h) => (1%Z, h)
      | (Ok [], h) => (0%Z, h)
      | (Ok statements, h) =>
          match statements_loop statements h with
          | (Raise _, h') => (1%Z, h')
          | (Ok _, h') => (0%Z, h')
          end
      end
  end.

(** An insertion into [table] of [records], sent after the requests
    [sent_before], is accounted for by the rows [statements] when: the
    table is [transactions]; the two requests before it are the update to
    [parsing] and the download for one of the rows, under the id and the
    storage path of that row; and the records are, in order, those of the
    transactions that [parse_statement_pdf] returned for the bytes that
    this download gave, of which there is at least one. *)
Definition insertion_accounted (statements : list statement_row)
    (sent_before : list call) (table : string) (records : list pydict)
  : Prop :=
  table = "transactions"
  /\ exists stmt stmt_id storage_path h pdf_bytes transactions summary,
       In stmt statements
       /\ row_id stmt = Some stmt_id
       /\ row_storage_path stmt = Some storage_path
       /\ sent_before
          = h ++ [UpdateStatus stmt_id (lit "parsing");
                  DownloadPdf storage_path]
       /\ storage_download (h ++ [UpdateStatus stmt_id (lit "parsing")])
            storage_path = Ok pdf_bytes
       /\ parse_statement_pdf pikepdf_open pikepdf_save pdfplumber_pages
            extract_text pdf_bytes PDF_PASSWORD = Ok (transactions, summary)
       /\ transactions <> []
       /\ Forall transaction_ok transactions
       /\ records = map (record_of stmt_id) transactions.

(** Every insertion among the requests [sent] is accounted for. *)
Definition insertions_accounted (statements : list statement_row)
    (sent : list call) : Prop :=
  forall sent_before table records sent_after,
    sent = sent_before ++ InsertRecords table records :: sent_after ->
    insertion_accounted statements sent_before table records.

End Main.

End ParseStatements.

(** A server that accepts every request: it returns no row for an update
    or an insertion, and the bytes [pdf] for every download. *)
Definition update_accepting (_ : list call) (_ _ : text)
  : result (option (list pydict)) := Ok None.

Definition insert_accepting (_ : list call) (_ : string) (_ : list pydict)
  : result (option (list pydict)) := Ok None.

Definition download_fixed (pdf : list byte) (_ : list call) (_ : text)
  : result (list byte) := Ok pdf.

(** Rows fetched whatever the request, a client that is always created,
    and two statements: one whose amount field [float] rejects, one with a
    purchase. *)
Definition select_fixed (rows : list statement_row) (_ : list call)
    (_ : text) : result (list statement_row) := Ok rows.

Definition client_created (_ _ : text) : result unit := Ok tt.

Definition malformed_page : text :=
  join_lines ["Account Activity"; "Payments and Other Credits";
              "01/15/2024 01/14/2024 PAYMENT $1.234.56"].

Definition purchase_page : text :=
  join_lines ["Account Activity"; "Purchases and Cash Advances";
              "03/09/2024 03/08/2024 GROCERY STORE 82.10"].

Definition example_row : statement_row :=
  mk_statement_row (Some (lit "s1")) (Some (lit "zolve/a.pdf")).

(* ================================================================== *)
(** ** Outcomes and loops *)

Unset Implicit Arguments.

Lemma bind_Ok A B (r : result A) (k : A -> result B) b :
  bind r k = Ok b -> exists a, r = Ok a /\ k a = Ok b.
Proof.
  destruct r as [a|e]; simpl; intros H.
  - exists a. split; [reflexivity | exact H].
  - discriminate H.
Qed.

Lemma for_each_inv S X (body : S -> X -> result S) (P : S -> Prop) :
  (forall st x st', P st -> body st x = Ok st' -> P st') ->
  forall xs st st', P st -> for_each body st xs = Ok st' -> P st'.
Proof.
  intros Hstep xs. induction xs as [|x xs IH]; simpl; intros st st' HP H.
  - inversion H. subst. exact HP.
  - apply bind_Ok in H. destruct H as [st1 [H1 H2]].
    apply (IH st1 st'); [eapply Hstep; eauto | exact H2].
Qed.

(* ================================================================== *)
(** ** Soundness of the matcher *)

Lemma star_greedy_sound A p (k : text -> option A) a :
  forall s, star_greedy p s k = Some a ->
  exists s1 s2, s = s1 ++ s2 /\ forallb p s1 = true /\ k s2 = Some a.
Proof.
  induction s as [|c s IH]; simpl; intros H.
  - exists [], []. auto.
  - destruct (p c) eqn:Hp.
    + destruct (star_greedy p s k) as [a'|] eqn:Hs.
      * inversion H. subst a'. destruct (IH eq_refl) as [s1 [s2 [E [F K]]]].
        exists (c :: s1), s2. subst s. simpl. rewrite Hp, F. auto.
      * exists [], (c :: s). auto.
    + exists [], (c :: s). auto.
Qed.

Lemma star_lazy_sound A p (k : text -> option A) a :
  forall s, star_lazy p s k = Some a ->
  exists s1 s2, s = s1 ++ s2 /\ forallb p s1 = true /\ k s2 = Some a.
Proof.
  induction s as [|c s IH]; simpl; intros H.
  - destruct (k []) as [a'|] eqn:Hk; [|discriminate].
    inversion H. subst a'. exists [], []. auto.
  - destruct (k (c :: s)) as [a'|] eqn:Hk.
    + inversion H. subst a'. exists [], (c :: s). auto.
    + destruct (p c) eqn:Hp; [|discriminate].
      destruct (IH H) as [s1 [s2 [E [F K]]]].
      exists (c :: s1), s2. subst s. simpl. rewrite Hp, F. auto.
Qed.

Lemma firstn_consumed (s1 s2 : text) :
  firstn (List.length (s1 ++ s2) - List.length s2) (s1 ++ s2) = s1.
Proof.
  rewrite length_app.
  replace (List.length s1 + List.length s2 - List.length s2)
    with (List.length s1 + 0) by lia.
  rewrite firstn_app_2. simpl. apply app_nil_r.
Qed.

Lemma rmatch_sound A (r : regex) :
  forall s cs (k : text -> captures -> option A) a,
    rmatch r s cs k = Some a ->
    exists s1 s2 cs',
      s = s1 ++ s2 /\ sem r s1 s2 cs cs' /\ k s2 cs' = Some a.
Proof.
  induction r as [|p|r1 IH1 r2 IH2|r1 IH1 r2 IH2|p|p|n r IH|];
    simpl; intros s cs k a H.
  - exists [], s, cs. auto.
  - destruct s as [|c s]; [discriminate|].
    destruct (p c) eqn:Hp; [|discriminate].
    exists [c], s, cs. split; [reflexivity|]. split; [|exact H].
    exists c. auto.
  - apply IH1 in H. destruct H as [a1 [s' [cm [E1 [S1 H]]]]].
    apply IH2 in H. destruct H as [b [s2 [cs' [E2 [S2 H]]]]].
    exists (a1 ++ b), s2, cs'. subst. rewrite app_assoc. split; [reflexivity|].
    split; [|exact H]. exists a1, b, cm. auto.
  - destruct (rmatch r1 s cs k) as [a'|] eqn:H1.
    + inversion H. subst a'. apply IH1 in H1.
      destruct H1 as [s1 [s2 [cs' [E [S K]]]]].
      exists s1, s2, cs'. auto.
    + apply IH2 in H. destruct H as [s1 [s2 [cs' [E [S K]]]]].
      exists s1, s2, cs'. auto.
  - apply star_greedy_sound in H. destruct H as [s1 [s2 [E [F K]]]].
    exists s1, s2, cs. auto.
  - apply star_lazy_sound in H. destruct H as [s1 [s2 [E [F K]]]].
    exists s1, s2, cs. auto.
  - apply IH in H. destruct H as [s1 [s2 [cm [E [S K]]]]].
    exists s1, s2, ((n, s1) :: cm). subst s.
    rewrite firstn_consumed in K. split; [reflexivity|]. split; [|exact K].
    exists cm. auto.
  - destruct (at_end s) eqn:He; [|discriminate].
    exists [], s, cs. auto.
Qed.

Lemma sem_groupless r :
  groupless r = true ->
  forall s1 s2 cs cs', sem r s1 s2 cs cs' -> cs' = cs.
Proof.
  induction r as [|p|r1 IH1 r2 IH2|r1 IH1 r2 IH2|p|p|n r IH|];
    simpl; intros G s1 s2 cs cs' S; try discriminate.
  - apply S.
  - destruct S as (c & _ & _ & E). exact E.
  - apply andb_prop in G. destruct G as [G1 G2].
    destruct S as (a & b & cm & _ & S1 & S2).
    rewrite (IH2 G2 _ _ _ _ S2). apply (IH1 G1 _ _ _ _ S1).
  - apply andb_prop in G. destruct G as [G1 G2].
    destruct S as [S|S]; [apply (IH1 G1 _ _ _ _ S) | apply (IH2 G2 _ _ _ _ S)].
  - apply S.
  - apply S.
  - apply S.
Qed.

Lemma sem_group n r s1 s2 cs cs' :
  groupless r = true ->
  sem (Group n r) s1 s2 cs cs' -> cs' = (n, s1) :: cs.
Proof.
  simpl. intros G (cm & S & E). rewrite (sem_groupless r G _ _ _ _ S) in E.
  exact E.
Qed.

(** A line that matches the transaction pattern ends with its amount
    field, made of digits, commas and points, then white space. *)
Lemma re_tx_shape s m :
  re_match re_tx s = Some m ->
  exists g1 g2 g3 g4 pre ws tail,
    m = [(4, g4); (3, g3); (2, g2); (1, g1)]
    /\ s = pre ++ g4 ++ ws ++ tail
    /\ g4 <> [] /\ forallb amount_char g4 = true
    /\ forallb space ws = true /\ at_end tail = true.
Proof.
  unfold re_match. intros H. apply rmatch_sound in H.
  destruct H as (s1 & s2 & cs' & E & S & K). inversion K. subst cs'. clear K.
  unfold re_tx in S. cbn [cat fold_right] in S.
  destruct S as (g1 & b1 & c1 & E1 & S1 & S).
  destruct S as (a2 & b2 & c2 & E2 & S2 & S).
  destruct S as (g2 & b3 & c3 & E3 & S3 & S).
  destruct S as (a4 & b4 & c4 & E4 & S4 & S).
  destruct S as (g3 & b5 & c5 & E5 & S5 & S).
  destruct S as (a6 & b6 & c6 & E6 & S6 & S).
  destruct S as (a7 & b7 & c7 & E7 & S7 & S).
  destruct S as (g4 & b8 & c8 & E8 & S8 & S).
  destruct S as (ws & b9 & c9 & E9 & S9 & S).
  destruct S as (a10 & b10 & c10 & E10 & S10 & S).
  apply sem_group in S1; [|reflexivity].
  apply (sem_groupless (Plus space)) in S2; [|reflexivity].
  apply sem_group in S3; [|reflexivity].
  apply (sem_groupless (Plus space)) in S4; [|reflexivity].
  apply sem_group in S5; [|reflexivity].
  apply (sem_groupless (Plus space)) in S6; [|reflexivity].
  apply (sem_groupless (Opt (Lit "$"))) in S7; [|reflexivity].
  destruct S8 as (cm & S8 & C8).
  pose proof (sem_groupless (Plus amount_char) eq_refl _ _ _ _ S8) as C8'.
  destruct S8 as (h & t & cm' & Eg & (c & Eh & Hc & _) & (Ht & _)).
  destruct S9 as (Hws & C9). destruct S10 as (Ea & Hend & C10).
  destruct S as (Eb & C11).
  exists g1, g2, g3, g4, (g1 ++ a2 ++ g2 ++ a4 ++ g3 ++ a6 ++ a7), ws, s2.
  subst. simpl in Hend. rewrite !app_nil_r. rewrite <- !app_assoc.
  repeat split; auto.
  - simpl. discriminate.
  - simpl. rewrite Hc. exact Ht.
Qed.

(* ================================================================== *)
(** ** Texts and characters *)

Lemma forallb_rev (q : ascii -> bool) (s : text) :
  forallb q s = true -> forallb q (rev s) = true.
Proof.
  intros H. apply forallb_forall. intros c Hc. apply in_rev in Hc.
  revert c Hc. apply forallb_forall. exact H.
Qed.

Lemma forallb_lstrip_by (q p : ascii -> bool) (s : text) :
  forallb q s = true -> forallb q (lstrip_by p s) = true.
Proof.
  induction s as [|c s IH]; simpl; intros H; [reflexivity|].
  apply andb_prop in H. destruct H as [Hc Hs].
  destruct (p c); [apply IH; exact Hs | simpl; rewrite Hc; exact Hs].
Qed.

Lemma forallb_strip_by (q p : ascii -> bool) (s : text) :
  forallb q s = true -> forallb q (strip_by p s) = true.
Proof.
  intros H. unfold strip_by.
  apply forallb_rev, forallb_lstrip_by, forallb_rev, forallb_lstrip_by, H.
Qed.

Lemma number_char_facts c :
  number_char c = true ->
  Ascii.eqb c "-" = false /\ Ascii.eqb c "+" = false
  /\ Ascii.eqb "(" c = false /\ lower c <> "i"%char /\ lower c <> "n"%char.
Proof.
  destruct c as [[] [] [] [] [] [] [] []]; vm_compute; intros H;
    try discriminate H; repeat split; discriminate.
Qed.

Lemma amount_char_cases c :
  amount_char c = true -> number_char c = true \/ c = ","%char.
Proof.
  unfold amount_char, number_char. intros H.
  destruct (Ascii.eqb c ",") eqn:E.
  - right. apply Ascii.eqb_eq. exact E.
  - left. rewrite orb_false_r in H. exact H.
Qed.

Lemma amount_field_cleaned (g : text) :
  forallb amount_char g = true ->
  forallb number_char (strip (remove_char "," (remove_char "$" g))) = true.
Proof.
  intros H. unfold strip. apply forallb_strip_by.
  apply forallb_forall. intros c Hc. unfold remove_char in Hc.
  apply filter_In in Hc. destruct Hc as [Hc Hcomma].
  apply filter_In in Hc. destruct Hc as [Hc _].
  rewrite forallb_forall in H. destruct (amount_char_cases c (H c Hc)) as [N|N].
  - exact N.
  - subst c. discriminate Hcomma.
Qed.

(* ================================================================== *)
(** ** [float] on an unsigned decimal *)

Lemma scale10_nonneg m e : (0 <= scale10 m e)%Q.
Proof.
  unfold scale10. destruct e as [|p|p]; rewrite Qred_correct;
    unfold Qle; simpl; lia.
Qed.

Lemma floatnumber_nonneg s q : floatnumber s = Some q -> (0 <= q)%Q.
Proof.
  unfold floatnumber. destruct (number s) as [[[ip fp] r]|]; [|discriminate].
  destruct (exponent r) as [e r']. destruct r'; [|discriminate].
  intros H. inversion H. apply scale10_nonneg.
Qed.

Lemma special_number_char c s :
  number_char c = true -> special (c :: s) = None.
Proof.
  intros H. destruct (number_char_facts c H) as (_ & _ & _ & Hi & Hn).
  unfold special, text_eqb. simpl map.
  destruct (list_eq_dec ascii_dec (lower c :: map lower s) (lit "inf"))
    as [E|_]; [inversion E; contradiction|].
  destruct (list_eq_dec ascii_dec (lower c :: map lower s) (lit "infinity"))
    as [E|_]; [inversion E; contradiction|].
  destruct (list_eq_dec ascii_dec (lower c :: map lower s) (lit "nan"))
    as [E|_]; [inversion E; contradiction|].
  reflexivity.
Qed.

(** A text of digits and points converts to a non-negative float, or does
    not convert. *)
Lemma float_unsigned s f :
  forallb number_char s = true -> float s = Ok f -> float_nonneg f.
Proof.
  intros H. unfold float.
  pose proof (forallb_strip_by number_char float_space s H) as Ht.
  destruct (strip_by float_space s) as [|c t].
  - vm_compute. discriminate.
  - simpl in Ht. apply andb_prop in Ht. destruct Ht as [Hc _].
    destruct (number_char_facts c Hc) as (Em & Ep & _).
    unfold sign. rewrite Em, Ep. rewrite (special_number_char c t Hc).
    destruct (floatnumber (c :: t)) as [q|] eqn:Hq; [|discriminate].
    intros E. inversion E. simpl. eapply floatnumber_nonneg. exact Hq.
Qed.

(** The amount field of a matched line decodes to a non-negative value
    whenever it decodes. *)
Lemma parse_amount_field_nonneg g f :
  forallb amount_char g = true -> parse_amount g = Ok f -> float_nonneg f.
Proof.
  intros H. unfold parse_amount.
  pose proof (amount_field_cleaned g H) as Hc.
  destruct (strip (remove_char "," (remove_char "$" g))) as [|c t] eqn:E.
  - simpl. apply float_unsigned. reflexivity.
  - assert (P : startswith (lit "(") (c :: t) = false).
    { simpl in Hc. apply andb_prop in Hc. destruct Hc as [Hc _].
      destruct (number_char_facts c Hc) as (_ & _ & Eo & _).
      change (startswith (lit "(") (c :: t)) with (Ascii.eqb "(" c && true).
      rewrite Eo. reflexivity. }
    rewrite P. simpl andb. cbv iota. apply float_unsigned. exact Hc.
Qed.

(* ================================================================== *)
(** ** Dates *)

Lemma strptime_valid format s d : strptime format s = Ok d -> valid_date d.
Proof.
  unfold strptime.
  destruct (rmatch format s [] (fun rest cs => Some (rest, cs)))
    as [[[|c rest] found]|]; try discriminate.
  destruct (valid_dateb _ _ _) eqn:V; [|discriminate].
  intros H. inversion H. subst d. exact V.
Qed.

Lemma strptime_raises format s e : strptime format s = Raise e -> e = ValueError.
Proof.
  unfold strptime.
  destruct (rmatch format s [] (fun rest cs => Some (rest, cs)))
    as [[[|c rest] found]|]; try (intros H; inversion H; reflexivity).
  destruct (valid_dateb _ _ _); intros H; inversion H; reflexivity.
Qed.

Lemma parse_date_valid s d : parse_date s = Ok (Some d) -> valid_date d.
Proof.
  unfold parse_date, try_except_ValueError.
  destruct (strptime format_mdY (strip s)) as [d'|e] eqn:H; simpl.
  - intros E. inversion E. subst d'. eapply strptime_valid. exact H.
  - destruct (is_ValueError e); discriminate.
Qed.

(** [parse_date] never raises: it returns a date or [None]. *)
Lemma parse_date_returns s : exists o, parse_date s = Ok o.
Proof.
  unfold parse_date, try_except_ValueError.
  destruct (strptime format_mdY (strip s)) as [d'|e] eqn:H; simpl.
  - eexists. reflexivity.
  - apply strptime_raises in H. subst e. eexists. reflexivity.
Qed.

(* ================================================================== *)
(** ** The scan of one line *)

(** What one line does to the scan: either it collects nothing, or the
    section is set, the line matches the pattern, both dates and the amount
    parse, and exactly one transaction tagged with the section is added. *)
Lemma line_body_spec st line st' :
  line_body st line = Ok st' ->
  (transactions st' = transactions st
   /\ (current_section st' = current_section st
       \/ current_section st' = Some (lit "credit")
       \/ current_section st' = Some (lit "debit")
       \/ current_section st' = Some (lit "fees")))
  \/
  (exists section m p t amt,
      current_section st = Some section
      /\ section <> [] /\ section <> lit "fees"
      /\ re_match re_tx (strip line) = Some m
      /\ parse_date (group m 1) = Ok (Some p)
      /\ parse_date (group m 2) = Ok (Some t)
      /\ parse_amount (group m 4) = Ok amt
      /\ st' = mk_locals
                 (transactions st ++
                    [mk_Transaction p t (strip (group m 3)) amt section])
                 (current_section st)).
Proof.
  unfold line_body.
  destruct (contains (lit "Payments and Other Credits") (strip line));
    [intros H; inversion H; simpl; auto|].
  destruct (contains (lit "Purchases and Cash Advances") (strip line));
    [intros H; inversion H; simpl; auto 6|].
  destruct (contains (lit "Fees and Interest Charged") (strip line));
    [intros H; inversion H; simpl; auto 6|].
  destruct (contains (lit "Sub Total") (strip line)
            || contains (lit "No transaction available") (strip line));
    [intros H; inversion H; auto|].
  destruct (current_section st) as [section|] eqn:Hsec;
    [|simpl; intros H; inversion H; subst; auto].
  destruct (falsy (Some section)) eqn:Hf; [intros H; inversion H; subst; auto|].
  unfold text_eqb.
  destruct (list_eq_dec ascii_dec section (lit "fees")) as [Efees|Nfees];
    [intros H; inversion H; subst; auto|].
  destruct (re_match re_tx (strip line)) as [m|] eqn:Hm;
    [|intros H; inversion H; subst; auto].
  intros H.
  apply bind_Ok in H. destruct H as (posted & Hp & H).
  apply bind_Ok in H. destruct H as (transaction & Ht & H).
  apply bind_Ok in H. destruct H as (amt & Ha & H).
  destruct posted as [p|]; [|inversion H; subst; auto].
  destruct transaction as [t|]; [|inversion H; subst; auto].
  right. exists section, m, p, t, amt. inversion H.
  repeat split; auto.
  intros E. subst section. discriminate Hf.
Qed.

(** The transactions already collected are only ever extended. *)
Lemma line_body_frame T l cs line :
  line_body (mk_locals (T ++ l) cs) line =
  match line_body (mk_locals l cs) line with
  | Ok st' => Ok (mk_locals (T ++ transactions st') (current_section st'))
  | Raise e => Raise e
  end.
Proof.
  unfold line_body. cbn [transactions current_section].
  destruct (contains (lit "Payments and Other Credits") (strip line));
    [reflexivity|].
  destruct (contains (lit "Purchases and Cash Advances") (strip line));
    [reflexivity|].
  destruct (contains (lit "Fees and Interest Charged") (strip line));
    [reflexivity|].
  destruct (contains (lit "Sub Total") (strip line)
            || contains (lit "No transaction available") (strip line));
    [reflexivity|].
  destruct (falsy cs); [reflexivity|].
  destruct cs as [section|]; [|reflexivity].
  destruct (text_eqb section (lit "fees")); [reflexivity|].
  destruct (re_match re_tx (strip line)) as [m|]; [|reflexivity].
  destruct (parse_date (group m 1)) as [posted|e]; [|reflexivity].
  destruct (parse_date (group m 2)) as [transaction|e]; [|reflexivity].
  destruct (parse_amount (group m 4)) as [amt|e]; [|reflexivity].
  cbn [bind].
  destruct posted as [p|]; [|reflexivity].
  destruct transaction as [t|]; [|reflexivity].
  cbn [transactions current_section]. rewrite app_assoc. reflexivity.
Qed.

Lemma scan_frame T lines :
  forall l cs,
    for_each line_body (mk_locals (T ++ l) cs) lines =
    match for_each line_body (mk_locals l cs) lines with
    | Ok st' => Ok (mk_locals (T ++ transactions st') (current_section st'))
    | Raise e => Raise e
    end.
Proof.
  induction lines as [|line lines IH]; intros l cs; [reflexivity|].
  cbn [for_each]. rewrite line_body_frame.
  destruct (line_body (mk_locals l cs) line) as [[l1 cs1]|e];
    [|reflexivity].
  cbn [bind transactions current_section]. apply IH.
Qed.

(** The scan keeps its invariant. *)
Lemma line_body_inv st line st' :
  scan_inv st -> line_body st line = Ok st' -> scan_inv st'.
Proof.
  intros [HT HS] H. apply line_body_spec in H.
  destruct H as [[ET ES] | (section & m & p & t & amt & Hsec & Hne & Hnf
                              & Hm & Hp & Ht & Ha & E)].
  - split; [rewrite ET; exact HT|].
    unfold section_ok.
    destruct ES as [ES|[ES|[ES|ES]]]; rewrite ES; auto.
  - subst st'. split; cbn [transactions current_section]; [|exact HS].
    apply Forall_app. split; [exact HT|]. constructor; [|constructor].
    apply re_tx_shape in Hm.
    destruct Hm as (g1 & g2 & g3 & g4 & pre & ws & tail & Em & _ & _ & Hg4 & _).
    subst m. change (group _ 4) with g4 in Ha.
    unfold transaction_ok; cbn [amount transaction_type posted_date
                                 transaction_date].
    split; [eapply parse_amount_field_nonneg; eauto|].
    split; [|split; eapply parse_date_valid; eauto].
    destruct HS as [HS|[HS|[HS|HS]]]; rewrite HS in Hsec;
      inversion Hsec; subst section; auto; contradiction.
Qed.

Lemma page_body_inv st page st' :
  scan_inv st -> page_body st page = Ok st' -> scan_inv st'.
Proof.
  intros HI. unfold page_body.
  destruct (negb (contains (lit "Account Activity") page)).
  - intros H. inversion H. subst. exact HI.
  - apply for_each_inv with (P := scan_inv).
    + apply line_body_inv.
    + destruct HI as [HT _]. split; [exact HT | left; reflexivity].
Qed.

Lemma parse_transactions_ok pages txs summary :
  parse_transactions pages = Ok (txs, summary) ->
  Forall transaction_ok txs.
Proof.
  unfold parse_transactions. intros H.
  apply bind_Ok in H. destruct H as (s & _ & H).
  apply bind_Ok in H. destruct H as (st & Hst & H).
  inversion H. subst.
  assert (I : scan_inv st).
  { eapply for_each_inv with (P := scan_inv);
      [apply page_body_inv | | exact Hst].
    split; [constructor | left; reflexivity]. }
  apply I.
Qed.

(** A page scan in terms of the page taken alone. *)
Lemma page_body_contribution st page :
  match page_contribution page with
  | Ok l =>
      exists cs, page_body st page = Ok (mk_locals (transactions st ++ l) cs)
  | Raise e => page_body st page = Raise e
  end.
Proof.
  unfold page_body, page_contribution.
  destruct (contains (lit "Account Activity") page); cbn [negb].
  - replace (mk_locals (transactions st) None)
      with (mk_locals (transactions st ++ []) None)
      by (rewrite app_nil_r; reflexivity).
    rewrite scan_frame.
    destruct (for_each line_body (mk_locals [] None) (split "010" page))
      as [st1|e]; cbn [bind]; [|reflexivity].
    exists (current_section st1). reflexivity.
  - exists (current_section st). rewrite app_nil_r. destruct st. reflexivity.
Qed.

Lemma pages_contributions A (g : list Transaction -> A) pages :
  forall st,
    bind (for_each page_body st pages) (fun st' => Ok (g (transactions st')))
    = bind (map_result page_contribution pages)
           (fun per_page => Ok (g (transactions st ++ List.concat per_page))).
Proof.
  induction pages as [|page pages IH]; intros st.
  - cbn [for_each map_result bind List.concat]. rewrite app_nil_r.
    reflexivity.
  - cbn [for_each map_result].
    pose proof (page_body_contribution st page) as H.
    destruct (page_contribution page) as [l|e].
    + destruct H as [cs H]. rewrite H. cbn [bind]. rewrite IH.
      cbn [transactions].
      destruct (map_result page_contribution pages) as [per_page|e];
        cbn [bind List.concat]; [|reflexivity].
      rewrite app_assoc. reflexivity.
    + rewrite H. reflexivity.
Qed.

(** A line that ends with a closing parenthesis does not match the
    transaction pattern. *)
Lemma re_tx_no_paren s :
  endswith (lit ")") s = true -> re_match re_tx s = None.
Proof.
  intros H. destruct (re_match re_tx s) as [m|] eqn:M; [exfalso|reflexivity].
  apply re_tx_shape in M.
  destruct M as (g1 & g2 & g3 & g4 & pre & ws & tail & _ & E & Hne & Hg4
                 & Hws & Hend).
  subst s. unfold endswith in H.
  rewrite !rev_app_distr, <- !app_assoc in H.
  apply forallb_rev in Hg4. apply forallb_rev in Hws.
  destruct tail as [|c [|c' tail]]; [| |discriminate Hend].
  - cbn [rev app] in H. destruct (rev ws) as [|w rws].
    + cbn [app] in H. destruct (rev g4) as [|x rg] eqn:Eg.
      * apply Hne. rewrite <- (rev_involutive g4), Eg. reflexivity.
      * cbn [forallb] in Hg4. apply andb_prop in Hg4. destruct Hg4 as [Hx _].
        change (Ascii.eqb ")" x && true = true) in H.
        apply andb_prop in H. destruct H as [H _].
        apply Ascii.eqb_eq in H. subst x. discriminate Hx.
    + cbn [forallb] in Hws. apply andb_prop in Hws. destruct Hws as [Hw _].
      change (Ascii.eqb ")" w && true = true) in H.
      apply andb_prop in H. destruct H as [H _].
      apply Ascii.eqb_eq in H. subst w. discriminate Hw.
  - change (Ascii.eqb ")" c && true = true) in H.
    apply andb_prop in H. destruct H as [H _].
    apply Ascii.eqb_eq in H. subst c. discriminate Hend.
Qed.

(* ================================================================== *)
(** ** [parse_amount] on plain and parenthesised numbers *)

Lemma filter_swap (A : Type) (f g : A -> bool) (l : list A) :
  filter f (filter g l) = filter g (filter f l).
Proof.
  induction l as [|x l IH]; [reflexivity|]. simpl.
  destruct (g x) eqn:G, (f x) eqn:F; simpl; rewrite ?G, ?F, IH; reflexivity.
Qed.

Lemma filter_twice (A : Type) (f : A -> bool) (l : list A) :
  filter f (filter f l) = filter f l.
Proof.
  induction l as [|x l IH]; [reflexivity|]. simpl.
  destruct (f x) eqn:F; simpl; rewrite ?F, IH; reflexivity.
Qed.

Lemma filter_all (A : Type) (f : A -> bool) (l : list A) :
  forallb f l = true -> filter f l = l.
Proof.
  induction l as [|x l IH]; [reflexivity|]. simpl. intros H.
  apply andb_prop in H. destruct H as [Hx Hl]. rewrite Hx, (IH Hl).
  reflexivity.
Qed.

Lemma strip_by_ends p c s d r :
  p c = false -> rev (c :: s) = d :: r -> p d = false ->
  strip_by p (c :: s) = c :: s.
Proof.
  intros Hc E Hd. unfold strip_by. cbn [lstrip_by]. rewrite Hc, E.
  cbn [lstrip_by]. rewrite Hd, <- E. apply rev_involutive.
Qed.

Lemma number_char_plain c :
  number_char c = true ->
  isspace c = false /\ float_space c = false
  /\ negb (Ascii.eqb c "$") = true /\ negb (Ascii.eqb c ",") = true.
Proof.
  destruct c as [[] [] [] [] [] [] [] []]; vm_compute; intros H;
    try discriminate H; repeat split; reflexivity.
Qed.

Lemma forallb_weaken (p q : ascii -> bool) (s : text) :
  (forall c, p c = true -> q c = true) ->
  forallb p s = true -> forallb q s = true.
Proof.
  intros W H. apply forallb_forall. intros c Hc. apply W.
  revert c Hc. apply forallb_forall. exact H.
Qed.

(** The last character of a text of digits and points. *)
Lemma number_text_last s :
  forallb number_char s = true -> s <> [] ->
  exists d r, rev s = d :: r /\ number_char d = true.
Proof.
  intros H Hne. apply forallb_rev in H.
  destruct (rev s) as [|d r] eqn:E.
  - exfalso. apply Hne. rewrite <- (rev_involutive s), E. reflexivity.
  - exists d, r. split; [reflexivity|]. simpl in H.
    apply andb_prop in H. apply H.
Qed.

Lemma float_number_text s :
  forallb number_char s = true -> s <> [] ->
  float s = match floatnumber s with
            | Some q => Ok (Fin q)
            | None => Raise ValueError
            end
  /\ float (lit "-" ++ s)
     = match floatnumber s with
       | Some q => Ok (float_neg true (Fin q))
       | None => Raise ValueError
       end.
Proof.
  intros H Hne.
  destruct (number_text_last s H Hne) as (d & r & Er & Hd).
  destruct s as [|c s']; [contradiction|].
  pose proof H as Hc. simpl in Hc. apply andb_prop in Hc.
  destruct Hc as [Hc _].
  destruct (number_char_plain c Hc) as (_ & Fc & _).
  destruct (number_char_plain d Hd) as (_ & Fd & _).
  destruct (number_char_facts c Hc) as (Em & Ep & _).
  split; unfold float.
  - rewrite (strip_by_ends float_space c s' d r Fc Er Fd).
    unfold sign. rewrite Em, Ep. rewrite (special_number_char c s' Hc).
    destruct (floatnumber (c :: s')); reflexivity.
  - change (lit "-" ++ c :: s') with ("-"%char :: c :: s').
    assert (E' : rev ("-"%char :: c :: s') = d :: (r ++ ["-"%char])).
    { change (rev ("-"%char :: c :: s')) with (rev (c :: s') ++ ["-"%char]).
      rewrite Er. reflexivity. }
    rewrite (strip_by_ends float_space "-" (c :: s') d _ eq_refl E' Fd).
    cbn [sign]. change (Ascii.eqb "-" "-") with true. cbv iota.
    rewrite (special_number_char c s' Hc).
    destruct (floatnumber (c :: s')); reflexivity.
Qed.

Lemma parse_amount_number_text s :
  forallb number_char s = true -> s <> [] ->
  parse_amount s = float s
  /\ parse_amount (lit "(" ++ s ++ lit ")") = float (lit "-" ++ s).
Proof.
  intros H Hne.
  destruct (number_text_last s H Hne) as (d & r & Er & Hd).
  assert (Hdollar : forallb (fun x => negb (Ascii.eqb x "$")) s = true).
  { apply (forallb_weaken number_char); [|exact H].
    intros c Hc. apply (number_char_plain c Hc). }
  assert (Hcomma : forallb (fun x => negb (Ascii.eqb x ",")) s = true).
  { apply (forallb_weaken number_char); [|exact H].
    intros c Hc. apply (number_char_plain c Hc). }
  split; unfold parse_amount, remove_char.
  - rewrite (filter_all _ _ s Hdollar), (filter_all _ _ s Hcomma).
    destruct s as [|c s']; [contradiction|].
    pose proof H as Hc. simpl in Hc. apply andb_prop in Hc.
    destruct Hc as [Hc _].
    destruct (number_char_plain c Hc) as (Sc & _).
    destruct (number_char_plain d Hd) as (Sd & _).
    unfold strip. rewrite (strip_by_ends isspace c s' d r Sc Er Sd).
    destruct (number_char_facts c Hc) as (_ & _ & Eo & _).
    change (startswith (lit "(") (c :: s')) with (Ascii.eqb "(" c && true).
    rewrite Eo. reflexivity.
  - change (lit "(" ++ s ++ lit ")") with ("("%char :: s ++ [")"%char]).
    assert (F1 : filter (fun x => negb (Ascii.eqb x "$"))
                   ("("%char :: s ++ [")"%char]) = "("%char :: s ++ [")"%char]).
    { apply filter_all. cbn [forallb]. rewrite forallb_app, Hdollar.
      reflexivity. }
    assert (F2 : filter (fun x => negb (Ascii.eqb x ","))
                   ("("%char :: s ++ [")"%char]) = "("%char :: s ++ [")"%char]).
    { apply filter_all. cbn [forallb]. rewrite forallb_app, Hcomma.
      reflexivity. }
    rewrite F1, F2.
    assert (E : rev ("("%char :: s ++ [")"%char])
                = ")"%char :: (rev s ++ ["("%char])).
    { change (rev ("("%char :: s ++ [")"%char]))
        with (rev (s ++ [")"%char]) ++ ["("%char]).
      rewrite rev_app_distr. reflexivity. }
    unfold strip.
    rewrite (strip_by_ends isspace "(" (s ++ [")"%char]) ")" _ eq_refl E
               eq_refl).
    change (startswith (lit "(") ("("%char :: s ++ [")"%char])) with true.
    unfold endswith. rewrite E.
    change (startswith (rev (lit ")")) (")"%char :: rev s ++ ["("%char]))
      with true.
    cbn [andb]. unfold slice_1_m1. cbn [tl]. rewrite removelast_last.
    reflexivity.
Qed.

(* ================================================================== *)
(** ** The conversion of an amount field *)

Lemma number_char_split c :
  number_char c = true ->
  (isdigit c = true /\ Ascii.eqb c "." = false /\ Ascii.eqb c "_" = false
   /\ Ascii.eqb (lower c) "e" = false)
  \/ (c = "."%char).
Proof.
  destruct c as [[] [] [] [] [] [] [] []]; vm_compute; intros H;
    try discriminate H; auto.
Qed.

(** On digits and points, [digitpart_tail] reads the leading digits and
    stops at the first point. *)
Lemma digitpart_tail_number s :
  forallb number_char s = true ->
  exists ds r,
    digitpart_tail s = (ds, r)
    /\ points s = points r
    /\ forallb number_char r = true
    /\ (r = [] \/ exists r', r = "."%char :: r').
Proof.
  induction s as [|c s IH]; intros H.
  - exists [], []. simpl. auto.
  - simpl in H. apply andb_prop in H. destruct H as [Hc Hs].
    destruct (IH Hs) as (ds & r & E & P & F & R).
    destruct (number_char_split c Hc) as [(D & Np & Nu & _)|Ec].
    + exists (digit_value c :: ds), r. simpl. rewrite D, E.
      unfold points in *. simpl. rewrite Np. simpl. auto.
    + subst c. exists [], ("."%char :: s). simpl.
      split; [reflexivity|]. split; [reflexivity|].
      split; [exact Hs|]. right. eauto.
Qed.

Lemma exponent_point r : exponent ("."%char :: r) = (0%Z, "."%char :: r).
Proof. reflexivity. Qed.

Lemma floatnumber_shape s :
  forallb number_char s = true ->
  (decimal_shaped s = true -> exists q, floatnumber s = Some q)
  /\ (decimal_shaped s = false -> floatnumber s = None).
Proof.
  intros H. unfold decimal_shaped, floatnumber, number.
  destruct s as [|c s]; [split; [discriminate | reflexivity]|].
  simpl in H. apply andb_prop in H. destruct H as [Hc Hs].
  destruct (number_char_split c Hc) as [(D & Np & Nu & _)|Ec].
  - (* leading digit *)
    unfold digitpart. rewrite D.
    destruct (digitpart_tail_number s Hs) as (ds & r & E & P & F & R).
    rewrite E.
    assert (Pc : points (c :: s) = points r).
    { unfold points in *. simpl. rewrite Np. exact P. }
    rewrite Pc. cbn [existsb]. rewrite D. cbn [orb]. rewrite andb_true_r.
    destruct R as [R|(r' & R)]; subst r.
    + split; [eexists; reflexivity | discriminate].
    + change (Ascii.eqb "." ".") with true. cbv iota.
      simpl in F.
      destruct r' as [|c' r'].
      * split; [eexists; reflexivity | discriminate].
      * simpl in F. apply andb_prop in F. destruct F as [Hc' Hr'].
        destruct (number_char_split c' Hc') as [(D' & Np' & Nu' & Ne')|Ec'].
        -- unfold digitpart. rewrite D'.
           destruct (digitpart_tail_number r' Hr')
             as (ds' & r2 & E' & P' & F' & R').
           rewrite E'. unfold points in *. simpl. rewrite Np'.
           rewrite P'.
           destruct R' as [R'|(r3 & R')]; subst r2.
           ++ split; [eexists; reflexivity | discriminate].
           ++ rewrite (exponent_point r3). split; [|reflexivity].
              simpl. change (Ascii.eqb "." ".") with true. simpl.
              discriminate.
        -- subst c'. change (isdigit ".") with false. cbv beta iota.
           rewrite (exponent_point r'). split; [|reflexivity].
           unfold points. simpl. discriminate.
  - (* leading point *)
    subst c. change (digitpart ("."%char :: s)) with (@None (list N * text)).
    change (Ascii.eqb "." ".") with true. cbv iota.
    destruct s as [|c' r'].
    + split; [discriminate | reflexivity].
    + simpl in Hs. apply andb_prop in Hs. destruct Hs as [Hc' Hr'].
      destruct (number_char_split c' Hc') as [(D' & Np' & Nu' & Ne')|Ec'].
      * unfold digitpart. rewrite D'.
        destruct (digitpart_tail_number r' Hr')
          as (ds' & r2 & E' & P' & F' & R').
        rewrite E'. unfold points in *. simpl. rewrite Np', D', P'.
        destruct R' as [R'|(r3 & R')]; subst r2.
        -- split; [eexists; reflexivity | discriminate].
        -- rewrite (exponent_point r3). split; [|reflexivity].
           simpl. change (Ascii.eqb "." ".") with true. simpl. discriminate.
      * subst c'.
        change (digitpart ("."%char :: r')) with (@None (list N * text)).
        split; [|reflexivity]. unfold points. simpl. discriminate.
Qed.

Lemma isdigit_number_char c : isdigit c = true -> number_char c = true.
Proof. unfold number_char. intros H. rewrite H. reflexivity. Qed.

Lemma digit_text_number l :
  forallb isdigit l = true -> forallb number_char l = true.
Proof. apply forallb_weaken. exact isdigit_number_char. Qed.

(** [digitpart_tail] on digits followed by the end or by a point. *)
Lemma digitpart_tail_digits l r :
  forallb isdigit l = true ->
  r = [] \/ (exists r', r = "."%char :: r') ->
  digitpart_tail (l ++ r) = (map digit_value l, r).
Proof.
  intros H R. induction l as [|c l IH].
  - destruct R as [R|(r' & R)]; subst r; reflexivity.
  - simpl in H. apply andb_prop in H. destruct H as [Hc Hl].
    simpl. rewrite Hc, (IH Hl). reflexivity.
Qed.

Lemma digitpart_digits c l r :
  forallb isdigit (c :: l) = true ->
  r = [] \/ (exists r', r = "."%char :: r') ->
  digitpart ((c :: l) ++ r) = Some (map digit_value (c :: l), r).
Proof.
  intros H R. simpl in H. apply andb_prop in H. destruct H as [Hc Hl].
  unfold digitpart. simpl. rewrite Hc, (digitpart_tail_digits l r Hl R).
  reflexivity.
Qed.

Lemma floatnumber_decimal ip fp :
  forallb isdigit ip = true -> forallb isdigit fp = true ->
  ip ++ fp <> [] ->
  floatnumber (ip ++ "."%char :: fp) = Some (decimal_value ip fp)
  /\ (fp = [] -> floatnumber ip = Some (decimal_value ip [])).
Proof.
  intros Hi Hf Hne. unfold floatnumber, number, decimal_value. split.
  - destruct ip as [|c ip].
    + change ([] ++ "."%char :: fp) with ("."%char :: fp).
      change (digitpart ("."%char :: fp)) with (@None (list N * text)).
      cbv beta iota. change (Ascii.eqb "." ".") with true. cbv beta iota.
      destruct fp as [|d fp]; [contradiction Hne; reflexivity|].
      rewrite <- (app_nil_r (d :: fp)) at 1.
      rewrite (digitpart_digits d fp [] Hf (or_introl eq_refl)).
      cbn [exponent]. rewrite length_map. cbn [app].
      replace (0 - Z.of_nat (List.length (d :: fp)))%Z
        with (- Z.of_nat (List.length (d :: fp)))%Z by lia.
      reflexivity.
    + rewrite (digitpart_digits c ip ("."%char :: fp) Hi
                 (or_intror (ex_intro _ fp eq_refl))).
      change (Ascii.eqb "." ".") with true. cbv beta iota.
      destruct fp as [|d fp].
      * change (digitpart []) with (@None (list N * text)).
        cbn [exponent]. rewrite !app_nil_r. reflexivity.
      * rewrite <- (app_nil_r (d :: fp)) at 1.
        rewrite (digitpart_digits d fp [] Hf (or_introl eq_refl)).
        cbn [exponent]. rewrite length_map, map_app.
        replace (0 - Z.of_nat (List.length (d :: fp)))%Z
          with (- Z.of_nat (List.length (d :: fp)))%Z by lia.
        reflexivity.
  - intros E. subst fp. rewrite app_nil_r in Hne.
    destruct ip as [|c ip]; [contradiction Hne; reflexivity|].
    rewrite <- (app_nil_r (c :: ip)) at 1.
    rewrite (digitpart_digits c ip [] Hi (or_introl eq_refl)).
    cbn [exponent]. rewrite !app_nil_r. reflexivity.
Qed.

Lemma parse_amount_cleaned g :
  parse_amount (remove_char "," (remove_char "$" g)) = parse_amount g.
Proof.
  unfold parse_amount, remove_char.
  rewrite (filter_swap _ (fun x => negb (Ascii.eqb x "$"))
             (fun x => negb (Ascii.eqb x ","))
             (filter (fun x => negb (Ascii.eqb x "$")) g)).
  rewrite !filter_twice. reflexivity.
Qed.

Lemma filter_keep (A : Type) (p f : A -> bool) (l : list A) :
  (forall c, p c = true -> f c = true) ->
  filter p (filter f l) = filter p l.
Proof.
  intros K. induction l as [|c l IH]; [reflexivity|]. simpl.
  destruct (f c) eqn:F; simpl.
  - rewrite IH. reflexivity.
  - destruct (p c) eqn:P; [rewrite (K c P) in F; discriminate | exact IH].
Qed.

Lemma existsb_keep (A : Type) (p f : A -> bool) (l : list A) :
  (forall c, p c = true -> f c = true) ->
  existsb p (filter f l) = existsb p l.
Proof.
  intros K. induction l as [|c l IH]; [reflexivity|]. simpl.
  destruct (f c) eqn:F; simpl.
  - rewrite IH. reflexivity.
  - destruct (p c) eqn:P; [rewrite (K c P) in F; discriminate | exact IH].
Qed.

Lemma kept_by_cleaning (p : ascii -> bool) :
  p "$"%char = false -> p ","%char = false ->
  forall x c, p c = true -> negb (Ascii.eqb c x) = true
                            \/ (x <> "$"%char /\ x <> ","%char).
Proof.
  intros Pd Pc x c H. destruct (Ascii.eqb c x) eqn:E; [|left; reflexivity].
  right. apply Ascii.eqb_eq in E. subst x.
  split; intros E; subst c; congruence.
Qed.

Lemma decimal_shaped_cleaned g :
  decimal_shaped (remove_char "," (remove_char "$" g)) = decimal_shaped g.
Proof.
  assert (K : forall (p : ascii -> bool) x,
             p "$"%char = false -> p ","%char = false ->
             x = "$"%char \/ x = ","%char ->
             forall c, p c = true -> negb (Ascii.eqb c x) = true).
  { intros p x Pd Pc Hx c H.
    destruct (kept_by_cleaning p Pd Pc x c H) as [E|[N1 N2]]; [exact E|].
    destruct Hx; contradiction. }
  unfold decimal_shaped, points, remove_char.
  rewrite (filter_keep _ (fun c => Ascii.eqb c ".") _ _
             (K _ ","%char eq_refl eq_refl (or_intror eq_refl))).
  rewrite (filter_keep _ (fun c => Ascii.eqb c ".") _ _
             (K _ "$"%char eq_refl eq_refl (or_introl eq_refl))).
  rewrite (existsb_keep _ isdigit _ _
             (K _ ","%char eq_refl eq_refl (or_intror eq_refl))).
  rewrite (existsb_keep _ isdigit _ _
             (K _ "$"%char eq_refl eq_refl (or_introl eq_refl))).
  reflexivity.
Qed.

Lemma amount_field_number_text g :
  forallb amount_char g = true ->
  forallb number_char (remove_char "," (remove_char "$" g)) = true.
Proof.
  intros H. apply forallb_forall. intros c Hc. unfold remove_char in Hc.
  apply filter_In in Hc. destruct Hc as [Hc Hcomma].
  apply filter_In in Hc. destruct Hc as [Hc _].
  rewrite forallb_forall in H. destruct (amount_char_cases c (H c Hc)) as [N|N].
  - exact N.
  - subst c. discriminate Hcomma.
Qed.

(** The two outcomes of the conversion of an amount field. *)
Lemma amount_field_cases g :
  forallb amount_char g = true ->
  (decimal_shaped g = true ->
   exists q, parse_amount g = Ok (Fin q) /\ (0 <= q)%Q)
  /\ (decimal_shaped g = false -> parse_amount g = Raise ValueError).
Proof.
  intros H. rewrite <- (parse_amount_cleaned g), <- (decimal_shaped_cleaned g).
  pose proof (amount_field_number_text g H) as Hs.
  destruct (remove_char "," (remove_char "$" g)) as [|c s] eqn:E.
  - split; [discriminate | reflexivity].
  - assert (Hne : c :: s <> []) by discriminate.
    destruct (parse_amount_number_text (c :: s) Hs Hne) as [E1 _].
    destruct (float_number_text (c :: s) Hs Hne) as [F1 _].
    rewrite E1, F1.
    destruct (floatnumber_shape (c :: s) Hs) as [Y N].
    split.
    + intros D. destruct (Y D) as [q Hq]. rewrite Hq. exists q.
      split; [reflexivity|]. eapply floatnumber_nonneg. exact Hq.
    + intros D. rewrite (N D). reflexivity.
Qed.

(* ================================================================== *)
(** ** Properties of the specification *)

(** C1. The specification has every line whose fields do not parse
    discarded without an error.  The amount field of a matched line is
    passed to [parse_amount] without a handler, and the pattern of that
    field, [[\d,.]+], admits texts that [float] rejects: on a page whose
    credit section holds the line
    [01/15/2024 01/14/2024 PAYMENT $1.234.56], [parse_transactions] raises
    [ValueError] instead of discarding the line. *)
Theorem malformed_amount_raises :
  parse_transactions
    [join_lines ["Account Activity";
                 "Payments and Other Credits";
                 "01/15/2024 01/14/2024 PAYMENT $1.234.56"]]
  = Raise ValueError.
Proof. vm_compute. reflexivity. Qed.

(** C2. Whatever the two PDF libraries return, every transaction in a
    result of [parse_statement_pdf] has an amount [>= 0], the type
    ["credit"] or ["debit"], and two valid calendar dates. *)
Theorem parse_statement_pdf_transactions_ok
    (Pdf Page : Type)
    (pikepdf_open : list byte -> text -> result Pdf)
    (pikepdf_save : Pdf -> result (list byte))
    (pdfplumber_pages : list byte -> result (list Page))
    (extract_text : Page -> result (option text))
    (pdf_bytes : list byte) (password : text)
    (txs : list Transaction) (summary : StatementSummary) :
  parse_statement_pdf pikepdf_open pikepdf_save pdfplumber_pages extract_text
    pdf_bytes password = Ok (txs, summary) ->
  Forall transaction_ok txs.
Proof.
  unfold parse_statement_pdf. intros H.
  apply bind_Ok in H. destruct H as (decrypted & _ & H).
  apply bind_Ok in H. destruct H as (pages_text & _ & H).
  eapply parse_transactions_ok. exact H.
Qed.

Lemma parse_statement_pdf_transactions_ok_witness :
  let page := join_lines ["Account Activity";
                          "Payments and Other Credits";
                          "03/05/2024 03/04/2024 PAYMENT THANK YOU $1,250.00";
                          "Purchases and Cash Advances";
                          "03/09/2024 03/08/2024 GROCERY STORE 82.10"] in
  let txs :=
    [mk_Transaction (mk_datetime 2024 3 5) (mk_datetime 2024 3 4)
       (lit "PAYMENT THANK YOU") (Fin (1250 # 1)) (lit "credit");
     mk_Transaction (mk_datetime 2024 3 9) (mk_datetime 2024 3 8)
       (lit "GROCERY STORE") (Fin (821 # 10)) (lit "debit")] in
  parse_statement_pdf open_accepting save_bytes (pages_fixed [Some page])
    text_of_page [] (lit "secret") = Ok (txs, empty_summary)
  /\ Forall transaction_ok txs.
Proof.
  intros page txs.
  assert (H : parse_statement_pdf open_accepting save_bytes
                (pages_fixed [Some page]) text_of_page [] (lit "secret")
              = Ok (txs, empty_summary)) by (vm_compute; reflexivity).
  split; [exact H|].
  exact (parse_statement_pdf_transactions_ok _ _ open_accepting save_bytes
           (pages_fixed [Some page]) text_of_page [] (lit "secret")
           txs empty_summary H).
Defined.

(** C3.  The code does not do what the specification asks.  A value in
    parentheses is meant to be negated, and [parse_amount] does so:
    [($123.45)] gives -123.45.  But the amount field of the line pattern,
    [\$?([\d,.]+)], admits no parenthesis, so a line whose amount is
    wrapped in parentheses never matches and never reaches [parse_amount]:
    in the credit and in the debit section the line
    [04/02/2024  04/01/2024  REFUND  ($123.45)] is dropped without an
    error, and a page whose credit section holds it yields no transaction
    instead of one with the amount -123.45. *)
Theorem parenthesised_line_dropped :
  parse_amount (lit "($123.45)") = Ok (Fin (-2469 # 20))
  /\ re_match re_tx (lit "04/02/2024  04/01/2024  REFUND  ($123.45)") = None
  /\ line_body (mk_locals [] (Some (lit "credit")))
               (lit "04/02/2024  04/01/2024  REFUND  ($123.45)")
     = Ok (mk_locals [] (Some (lit "credit")))
  /\ line_body (mk_locals [] (Some (lit "debit")))
               (lit "04/02/2024  04/01/2024  REFUND  ($123.45)")
     = Ok (mk_locals [] (Some (lit "debit")))
  /\ parse_transactions
       [join_lines ["Account Activity";
                    "Payments and Other Credits";
                    "04/02/2024  04/01/2024  REFUND  ($123.45)"]]
     = Ok ([], empty_summary).
Proof. repeat split; vm_compute; reflexivity. Qed.

(** The defect is not particular to that line: a line whose amount is
    wrapped in parentheses ends with [)], so it does not match the
    transaction pattern, and in every section state the scan of such a
    line returns without an error and adds no transaction. *)
Lemma parenthesised_amount_not_matched st line :
  endswith (lit ")") (strip line) = true ->
  re_match re_tx (strip line) = None
  /\ exists st',
       line_body st line = Ok st' /\ transactions st' = transactions st.
Proof.
  intros H. pose proof (re_tx_no_paren (strip line) H) as M.
  split; [exact M|].
  unfold line_body. rewrite M.
  destruct (contains (lit "Payments and Other Credits") (strip line));
    [eexists; split; reflexivity|].
  destruct (contains (lit "Purchases and Cash Advances") (strip line));
    [eexists; split; reflexivity|].
  destruct (contains (lit "Fees and Interest Charged") (strip line));
    [eexists; split; reflexivity|].
  destruct (contains (lit "Sub Total") (strip line)
            || contains (lit "No transaction available") (strip line));
    [eexists; split; reflexivity|].
  destruct (falsy (current_section st)); [eexists; split; reflexivity|].
  destruct (current_section st) as [section|];
    [|eexists; split; reflexivity].
  destruct (text_eqb section (lit "fees")); eexists; split; reflexivity.
Qed.

(** C4. In the debit section, the line
    [04/02/2024  04/01/2024  AMAZON MKTPLACE  $45.67] yields exactly one
    transaction: posted 2024-04-02, made 2024-04-01, described as
    [AMAZON MKTPLACE], of amount 45.67 and type debit; so does the page
    made of the "Account Activity" marker, the debit header and that
    line. *)
Theorem amazon_line_example :
  let line := "04/02/2024  04/01/2024  AMAZON MKTPLACE  $45.67"%string in
  exists tx,
    line_body (mk_locals [] (Some (lit "debit"))) (lit line)
    = Ok (mk_locals [tx] (Some (lit "debit")))
    /\ parse_transactions
         [join_lines ["Account Activity"; "Purchases and Cash Advances";
                      line]]
       = Ok ([tx], empty_summary)
    /\ posted_date tx = mk_datetime 2024 4 2
    /\ transaction_date tx = mk_datetime 2024 4 1
    /\ description tx = lit "AMAZON MKTPLACE"
    /\ float_is (amount tx) 45.67
    /\ transaction_type tx = lit "debit".
Proof.
  intros line.
  exists (mk_Transaction (mk_datetime 2024 4 2) (mk_datetime 2024 4 1)
            (lit "AMAZON MKTPLACE") (Fin (4567 # 100)) (lit "debit")).
  repeat split; vm_compute; reflexivity.
Qed.




(** C6. The transactions of [parse_transactions] are, page after page,
    those that each page yields when it is scanned on its own from the
    section state [None]; and a page without the text "Account Activity"
    yields none, whatever it contains.  The first raise of a page, if any,
    is the outcome of both sides. *)
Theorem pages_scanned_independently pages :
  parse_transactions pages
  = bind (match pages with
          | first_page :: _ => parse_summary first_page empty_summary
          | [] => Ok empty_summary
          end)
         (fun summary =>
          bind (map_result page_contribution pages)
               (fun per_page => Ok (List.concat per_page, summary)))
  /\ forall st page,
       contains (lit "Account Activity") page = false ->
       page_contribution page = Ok [] /\ page_body st page = Ok st.
Proof.
  split.
  - unfold parse_transactions.
    destruct (match pages with
              | first_page :: _ => parse_summary first_page empty_summary
              | [] => Ok empty_summary
              end) as [summary|e]; cbn [bind]; [|reflexivity].
    apply (pages_contributions _ (fun t => (t, summary)) pages
             (mk_locals [] None)).
  - intros st page H. unfold page_contribution, page_body. rewrite H.
    split; reflexivity.
Qed.

Lemma pages_scanned_independently_witness :
  let p1 := join_lines ["Payments and Other Credits";
                        "03/05/2024 03/04/2024 PAYMENT THANK YOU $1,250.00"] in
  let p2 := join_lines ["Account Activity";
                        "Purchases and Cash Advances";
                        "03/09/2024 03/08/2024 GROCERY STORE 82.10"] in
  let p3 := join_lines ["Account Activity (continued)";
                        "03/11/2024 03/10/2024 BOOK SHOP 19.99"] in
  let tx := mk_Transaction (mk_datetime 2024 3 9) (mk_datetime 2024 3 8)
              (lit "GROCERY STORE") (Fin (821 # 10)) (lit "debit") in
  contains (lit "Account Activity") p1 = false
  /\ page_contribution p1 = Ok []
  /\ page_contribution p2 = Ok [tx]
  /\ page_contribution p3 = Ok []
  /\ parse_transactions [p1; p2; p3] = Ok ([tx], empty_summary).
Proof.
  intros p1 p2 p3 tx.
  assert (H1 : contains (lit "Account Activity") p1 = false)
    by (vm_compute; reflexivity).
  destruct (pages_scanned_independently [p1; p2; p3]) as [E S].
  destruct (S (mk_locals [] None) p1 H1) as [C1 _].
  assert (C2 : page_contribution p2 = Ok [tx]) by (vm_compute; reflexivity).
  assert (C3 : page_contribution p3 = Ok []) by (vm_compute; reflexivity).
  repeat (split; [assumption|]).
  rewrite E. cbn [map_result]. rewrite C1, C2, C3.
  vm_compute. reflexivity.
Defined.

(** C7. A first page with the lines [Bill Period: 01-03-2024 - 31-03-2024],
    [Previous Balance $200.00] and [New Balance $350.25] gives the summary
    with bill period 2024-03-01 to 2024-03-31, the two dates being read as
    day-month-year, previous balance 200.00 and new balance 350.25; the
    same holds when the three texts sit inside other text. *)
Theorem summary_example :
  let s := mk_StatementSummary
             (Some (mk_datetime 2024 3 1)) (Some (mk_datetime 2024 3 31))
             (Some (Fin (200 # 1))) (Some (Fin (1401 # 4)))
             None None None None in
  parse_transactions
    [join_lines ["Bill Period: 01-03-2024 - 31-03-2024";
                 "Previous Balance $200.00";
                 "New Balance $350.25"]] = Ok ([], s)
  /\ parse_transactions
       [join_lines ["ZOLVE CREDIT CARD STATEMENT";
                    "Name: A. Customer   Bill Period: 01-03-2024 - 31-03-2024";
                    "Account Summary";
                    "Previous Balance $200.00   Payments $200.00";
                    "Purchases $350.25   New Balance $350.25"]] = Ok ([], s)
  /\ float_is (Fin (200 # 1)) 200.00
  /\ float_is (Fin (1401 # 4)) 350.25.
Proof. repeat split; vm_compute; reflexivity. Qed.

(** C8. [parse_amount] maps [($123.45)] to -123.45 and [$1,234.56] to
    1234.56.  In general the currency symbol and the commas have no effect
    on the result, and a number wrapped in parentheses decodes to the
    negation of what the number decodes to. *)
Theorem parse_amount_decoding :
  (exists a b,
      parse_amount (lit "($123.45)") = Ok a /\ float_is a (-123.45)
      /\ parse_amount (lit "$1,234.56") = Ok b /\ float_is b 1234.56)
  /\ (forall s,
        parse_amount (remove_char "$" s) = parse_amount s
        /\ parse_amount (remove_char "," s) = parse_amount s)
  /\ (forall s,
        forallb number_char s = true -> s <> [] ->
        parse_amount (lit "(" ++ s ++ lit ")")
        = bind (parse_amount s) (fun f => Ok (float_neg true f))).
Proof.
  split; [|split].
  - exists (Fin (-2469 # 20)), (Fin (30864 # 25)).
    repeat split; vm_compute; reflexivity.
  - intros s. unfold parse_amount, remove_char. split.
    + rewrite filter_twice. reflexivity.
    + rewrite (filter_swap _ _ (fun x => negb (Ascii.eqb x ",")) s).
      rewrite filter_twice. reflexivity.
  - intros s H Hne.
    destruct (parse_amount_number_text s H Hne) as [E1 E2].
    destruct (float_number_text s H Hne) as [F1 F2].
    rewrite E1, E2, F1, F2.
    destruct (floatnumber s); reflexivity.
Qed.

Lemma parse_amount_decoding_witness :
  let s := lit "123.45" in
  forallb number_char s = true
  /\ s <> []
  /\ parse_amount s = Ok (Fin (2469 # 20))
  /\ parse_amount (lit "(" ++ s ++ lit ")") = Ok (Fin (-2469 # 20))
  /\ parse_amount (remove_char "$" (lit "($123.45)"))
     = parse_amount (lit "($123.45)").
Proof.
  intros s.
  assert (H : forallb number_char s = true) by (vm_compute; reflexivity).
  assert (Hne : s <> []) by (vm_compute; discriminate).
  assert (E : parse_amount s = Ok (Fin (2469 # 20)))
    by (vm_compute; reflexivity).
  destruct parse_amount_decoding as (_ & Hsym & Hneg).
  split; [exact H|]. split; [exact Hne|]. split; [exact E|].
  split; [|exact (proj1 (Hsym (lit "($123.45)")))].
  rewrite (Hneg s H Hne), E. reflexivity.
Defined.

(** C9, as stated, fails: when [pikepdf] rejects the password with its own
    [PasswordError], that exception is what [parse_statement_pdf] raises;
    it is not a [DecryptionError] raised from it. *)
Lemma no_DecryptionError_wrapper :
  let outcome :=
    parse_statement_pdf open_rejecting save_bytes
      (pages_fixed [Some (lit "Account Activity")]) text_of_page
      [] (lit "wrong") in
  outcome = Raise (Exception "PasswordError")
  /\ outcome <> Raise (ExceptionFrom "DecryptionError"
                         (Exception "PasswordError")).
Proof. split; vm_compute; [reflexivity | discriminate]. Qed.

(** C9, amended. When [pikepdf.open] raises, [decrypt_pdf] raises that same
    exception, unwrapped, and so does [parse_statement_pdf]: no list of
    transactions is returned. *)
Theorem decrypt_failure_propagates
    (Pdf Page : Type)
    (pikepdf_open : list byte -> text -> result Pdf)
    (pikepdf_save : Pdf -> result (list byte))
    (pdfplumber_pages : list byte -> result (list Page))
    (extract_text : Page -> result (option text))
    (pdf_bytes : list byte) (password : text) (e : exn) :
  pikepdf_open pdf_bytes password = Raise e ->
  decrypt_pdf pikepdf_open pikepdf_save pdf_bytes password = Raise e
  /\ parse_statement_pdf pikepdf_open pikepdf_save pdfplumber_pages
       extract_text pdf_bytes password = Raise e.
Proof.
  intros H. unfold parse_statement_pdf, decrypt_pdf. rewrite H.
  split; reflexivity.
Qed.

Lemma decrypt_failure_propagates_witness :
  let e := Exception "PasswordError" in
  let pages := pages_fixed [Some (lit "Account Activity")] in
  open_rejecting [] (lit "wrong") = Raise e
  /\ decrypt_pdf open_rejecting save_bytes [] (lit "wrong") = Raise e
  /\ parse_statement_pdf open_rejecting save_bytes pages text_of_page
       [] (lit "wrong") = Raise e.
Proof.
  intros e pages.
  assert (H : open_rejecting [] (lit "wrong") = Raise e) by reflexivity.
  split; [exact H|].
  exact (decrypt_failure_propagates _ _ open_rejecting save_bytes pages
           text_of_page [] (lit "wrong") e H).
Defined.

(** The balance assignments leave the bill period alone. *)
Lemma parse_summary_bill_period first_page s0 s :
  parse_summary first_page s0 = Ok s ->
  exists s1,
    match re_search re_bill_period first_page with
    | Some bill_period_match =>
        match strptime format_dmY (group bill_period_match 1) with
        | Ok d1 =>
            match strptime format_dmY (group bill_period_match 2) with
            | Ok d2 =>
                Ok (set_bill_period_end (set_bill_period_start s0 d1) d2)
            | Raise e =>
                if is_ValueError e then Ok (set_bill_period_start s0 d1)
                else Raise e
            end
        | Raise e => if is_ValueError e then Ok s0 else Raise e
        end
    | None => Ok s0
    end = Ok s1
    /\ bill_period_start s = bill_period_start s1
    /\ bill_period_end s = bill_period_end s1.
Proof.
  unfold parse_summary. intros H.
  apply bind_Ok in H. destruct H as (s1 & H1 & H).
  apply bind_Ok in H. destruct H as (s2 & H2 & H).
  exists s1. split; [exact H1|].
  assert (E2 : bill_period_start s2 = bill_period_start s1
               /\ bill_period_end s2 = bill_period_end s1).
  { destruct (re_search re_prev_balance first_page) as [m|].
    - apply bind_Ok in H2. destruct H2 as (v & _ & H2). inversion H2.
      split; reflexivity.
    - inversion H2. split; reflexivity. }
  destruct E2 as [Es Ee]. rewrite <- Es, <- Ee.
  destruct (re_search re_new_balance first_page) as [m|].
  - apply bind_Ok in H. destruct H as (v & _ & H). inversion H.
    split; reflexivity.
  - inversion H. split; reflexivity.
Qed.

(** C10. When the bill-period pattern matches on the first page, its first
    date is a valid day-month-year date and its second one is not, the
    summary that [parse_transactions] returns has [bill_period_start] set
    to the first date and [bill_period_end] absent. *)
Theorem bill_period_not_atomic first_page rest m d1 txs summary :
  re_search re_bill_period first_page = Some m ->
  strptime format_dmY (group m 1) = Ok d1 ->
  strptime format_dmY (group m 2) = Raise ValueError ->
  parse_transactions (first_page :: rest) = Ok (txs, summary) ->
  bill_period_start summary = Some d1 /\ bill_period_end summary = None.
Proof.
  intros Hm H1 H2 H. unfold parse_transactions in H.
  apply bind_Ok in H. destruct H as (s & Hs & H).
  apply bind_Ok in H. destruct H as (st & _ & H). inversion H. subst.
  apply parse_summary_bill_period in Hs. destruct Hs as (s1 & E & Es & Ee).
  rewrite Hm, H1, H2 in E. cbn in E. inversion E. subst s1.
  rewrite Es, Ee. split; reflexivity.
Qed.

Lemma bill_period_not_atomic_witness :
  let first_page := join_lines ["Bill Period: 01-03-2024 - 31-13-2024";
                                "Previous Balance $200.00"] in
  let m := [(2, lit "31-13-2024"); (1, lit "01-03-2024")] in
  let d1 := mk_datetime 2024 3 1 in
  let summary := mk_StatementSummary (Some d1) None (Some (Fin (200 # 1)))
                   None None None None None in
  re_search re_bill_period first_page = Some m
  /\ strptime format_dmY (group m 1) = Ok d1
  /\ strptime format_dmY (group m 2) = Raise ValueError
  /\ parse_transactions [first_page] = Ok ([], summary)
  /\ bill_period_start summary = Some d1
  /\ bill_period_end summary = None.
Proof.
  intros first_page m d1 summary.
  assert (Hm : re_search re_bill_period first_page = Some m)
    by (vm_compute; reflexivity).
  assert (H1 : strptime format_dmY (group m 1) = Ok d1)
    by (vm_compute; reflexivity).
  assert (H2 : strptime format_dmY (group m 2) = Raise ValueError)
    by (vm_compute; reflexivity).
  assert (H : parse_transactions [first_page] = Ok ([], summary))
    by (vm_compute; reflexivity).
  repeat (split; [assumption|]).
  exact (bill_period_not_atomic first_page [] m d1 [] summary Hm H1 H2 H).
Defined.

(* ================================================================== *)
(** * Further properties of the code *)

(* ================================================================== *)
(** ** The summary of the first page *)

Lemma re_search_sound r : forall s m,
  re_search r s = Some m ->
  exists pre suf, s = pre ++ suf /\ re_match r suf = Some m.
Proof.
  induction s as [|c s IH]; intros m H; simpl in H.
  - destruct (re_match r []) as [m'|] eqn:E; [|discriminate].
    inversion H. subst. exists [], []. auto.
  - destruct (re_match r (c :: s)) as [m'|] eqn:E.
    + inversion H. subst. exists [], (c :: s). auto.
    + destruct (IH m H) as (pre & suf & Es & Hm).
      exists (c :: pre), suf. subst s. auto.
Qed.

(** The group of a balance pattern holds digits, commas and points. *)
Lemma balance_group r s m :
  r = re_prev_balance \/ r = re_new_balance ->
  re_search r s = Some m ->
  forallb amount_char (group m 1) = true.
Proof.
  intros Hr H. apply re_search_sound in H.
  destruct H as (pre & suf & _ & H). unfold re_match in H.
  apply rmatch_sound in H. destruct H as (s1 & s2 & cs' & _ & S & K).
  inversion K. subst cs'. clear K.
  destruct Hr as [Hr|Hr]; subst r.
  - unfold re_prev_balance in S.
    change (cat [Str "Previous Balance"; Star space; Opt (Lit "$");
                 Group 1 (Plus amount_char)])
      with (Seq (Str "Previous Balance")
             (Seq (Star space) (Seq (Opt (Lit "$"))
                (Seq (Group 1 (Plus amount_char)) Eps)))) in S.
    destruct S as (a1 & b1 & c1 & _ & _ & S).
    destruct S as (a2 & b2 & c2 & _ & _ & S).
    destruct S as (a3 & b3 & c3 & _ & _ & S).
    destruct S as (g & b4 & c4 & _ & S4 & (_ & C)).
    subst m. destruct S4 as (cm & S4 & C4). subst c4.
    destruct S4 as (h & t & cm' & Eg & (c & Eh & Hc & _) & (Ht & _)).
    subst. change (group _ 1) with ([c] ++ t). simpl. rewrite Hc. exact Ht.
  - unfold re_new_balance in S.
    change (cat [Str "New Balance"; Star (not_char "$"); Opt (Lit "$");
                 Group 1 (Plus amount_char)])
      with (Seq (Str "New Balance")
             (Seq (Star (not_char "$")) (Seq (Opt (Lit "$"))
                (Seq (Group 1 (Plus amount_char)) Eps)))) in S.
    destruct S as (a1 & b1 & c1 & _ & _ & S).
    destruct S as (a2 & b2 & c2 & _ & _ & S).
    destruct S as (a3 & b3 & c3 & _ & _ & S).
    destruct S as (g & b4 & c4 & _ & S4 & (_ & C)).
    subst m. destruct S4 as (cm & S4 & C4). subst c4.
    destruct S4 as (h & t & cm' & Eg & (c & Eh & Hc & _) & (Ht & _)).
    subst. change (group _ 1) with ([c] ++ t). simpl. rewrite Hc. exact Ht.
Qed.

Ltac summary_parts :=
  unfold summary_ok; cbn;
  refine (conj _ (conj _ (conj _ (conj _ (conj _ (conj _ (conj _ _)))))));
  try reflexivity; try discriminate.

Lemma parse_summary_ok first_page s :
  parse_summary first_page empty_summary = Ok s -> summary_ok s.
Proof.
  unfold parse_summary. intros H.
  apply bind_Ok in H. destruct H as (s1 & H1 & H).
  apply bind_Ok in H. destruct H as (s2 & H2 & H).
  assert (I1 : summary_ok s1).
  { destruct (re_search re_bill_period first_page) as [m|].
    - destruct (strptime format_dmY (group m 1)) as [d1|e] eqn:E1.
      + apply strptime_valid in E1.
        destruct (strptime format_dmY (group m 2)) as [d2|e] eqn:E2.
        * apply strptime_valid in E2. inversion H1. subst s1.
          summary_parts.
          -- intros d Hd. inversion Hd. subst. exact E1.
          -- intros d Hd. inversion Hd. subst. split; [exact E2|discriminate].
        * destruct (is_ValueError e); [|discriminate]. inversion H1. subst s1.
          summary_parts.
          intros d Hd. inversion Hd. subst. exact E1.
      + destruct (is_ValueError e); [|discriminate]. inversion H1. subst s1.
        summary_parts.
    - inversion H1. subst s1. summary_parts. }
  assert (I2 : summary_ok s2).
  { destruct (re_search re_prev_balance first_page) as [m|] eqn:Em.
    - apply bind_Ok in H2. destruct H2 as (v & Hv & H2). inversion H2.
      subst s2. clear H2.
      assert (Nv : float_nonneg v).
      { eapply parse_amount_field_nonneg; [|exact Hv].
        eapply balance_group; [left; reflexivity | exact Em]. }
      destruct I1 as (A & B & C & D & E1 & E2 & E3 & E4).
      summary_parts; try assumption.
      intros f Hf. inversion Hf. subst. exact Nv.
    - inversion H2. subst. exact I1. }
  destruct (re_search re_new_balance first_page) as [m|] eqn:Em.
  - apply bind_Ok in H. destruct H as (v & Hv & H). inversion H.
    subst s. clear H.
    assert (Nv : float_nonneg v).
    { eapply parse_amount_field_nonneg; [|exact Hv].
      eapply balance_group; [right; reflexivity | exact Em]. }
    destruct I2 as (A & B & C & D & E1 & E2 & E3 & E4).
    summary_parts; try assumption.
    intros f Hf. inversion Hf. subst. exact Nv.
  - inversion H. subst. exact I2.
Qed.

(* ================================================================== *)
(** ** The conversion of an amount field *)

(** X4. An amount field converts exactly when, commas apart, it has at most
    one point and at least one digit; it then gives a number [>= 0], and
    otherwise [parse_amount] raises [ValueError]. *)
Theorem amount_field_conversion g :
  forallb amount_char g = true ->
  if decimal_shaped g
  then exists q, parse_amount g = Ok (Fin q) /\ (0 <= q)%Q
  else parse_amount g = Raise ValueError.
Proof.
  intros H. destruct (amount_field_cases g H) as [Y N].
  destruct (decimal_shaped g).
  - exact (Y eq_refl).
  - exact (N eq_refl).
Qed.

(** X5. The value that [parse_amount] gives: when the text, once [$], commas
    and surrounding white space are removed, is digits, or digits with one
    point among them, the result is the number made of all the digits
    scaled by the number of digits after the point. *)
Theorem parse_amount_value g ip fp :
  forallb isdigit ip = true -> forallb isdigit fp = true ->
  ip ++ fp <> [] ->
  strip (remove_char "," (remove_char "$" g)) = ip ++ "."%char :: fp
  \/ (fp = [] /\ strip (remove_char "," (remove_char "$" g)) = ip) ->
  parse_amount g = Ok (Fin (decimal_value ip fp)).
Proof.
  intros Hi Hf Hne Hg.
  destruct (floatnumber_decimal ip fp Hi Hf Hne) as [V1 V2].
  assert (S : exists s, strip (remove_char "," (remove_char "$" g)) = s
                        /\ forallb number_char s = true /\ s <> []
                        /\ floatnumber s = Some (decimal_value ip fp)).
  { destruct Hg as [Hg|[Ef Hg]].
    - exists (ip ++ "."%char :: fp). split; [exact Hg|].
      split; [|split; [|exact V1]].
      + rewrite forallb_app. rewrite (digit_text_number ip Hi). simpl.
        apply digit_text_number. exact Hf.
      + destruct ip; discriminate.
    - exists ip. split; [exact Hg|]. subst fp. rewrite app_nil_r in Hne.
      split; [apply digit_text_number; exact Hi|].
      split; [exact Hne | apply V2; reflexivity]. }
  destruct S as (s & Es & Ns & Nes & Vs).
  unfold parse_amount. rewrite Es.
  destruct (float_number_text s Ns Nes) as [F1 _].
  destruct s as [|c s]; [contradiction|].
  pose proof Ns as Hc. simpl in Hc. apply andb_prop in Hc.
  destruct Hc as [Hc _].
  destruct (number_char_facts c Hc) as (_ & _ & Eo & _).
  change (startswith (lit "(") (c :: s)) with (Ascii.eqb "(" c && true).
  rewrite Eo. cbn [andb]. rewrite F1, Vs. reflexivity.
Qed.

Lemma amount_field_conversion_witness :
  forallb amount_char (lit "1,234.56") = true
  /\ forallb amount_char (lit "1.234.56") = true
  /\ (exists q, parse_amount (lit "1,234.56") = Ok (Fin q) /\ (0 <= q)%Q)
  /\ parse_amount (lit "1.234.56") = Raise ValueError.
Proof.
  assert (H1 : forallb amount_char (lit "1,234.56") = true) by reflexivity.
  assert (H2 : forallb amount_char (lit "1.234.56") = true) by reflexivity.
  split; [exact H1|]. split; [exact H2|]. split.
  - exact (amount_field_conversion (lit "1,234.56") H1).
  - exact (amount_field_conversion (lit "1.234.56") H2).
Defined.

Lemma parse_amount_value_witness :
  let g := lit " $1,234.56 " in
  let ip := lit "1234" in
  let fp := lit "56" in
  forallb isdigit ip = true /\ forallb isdigit fp = true
  /\ ip ++ fp <> []
  /\ strip (remove_char "," (remove_char "$" g)) = ip ++ "."%char :: fp
  /\ parse_amount g = Ok (Fin (decimal_value ip fp))
  /\ float_is (Fin (decimal_value ip fp)) 1234.56.
Proof.
  intros g ip fp.
  assert (Hi : forallb isdigit ip = true) by reflexivity.
  assert (Hf : forallb isdigit fp = true) by reflexivity.
  assert (Hne : ip ++ fp <> []) by discriminate.
  assert (Hg : strip (remove_char "," (remove_char "$" g))
               = ip ++ "."%char :: fp) by reflexivity.
  split; [exact Hi|]. split; [exact Hf|]. split; [exact Hne|].
  split; [exact Hg|]. split.
  - exact (parse_amount_value g ip fp Hi Hf Hne (or_introl Hg)).
  - vm_compute. reflexivity.
Defined.

(* ================================================================== *)
(** ** The date text of a line *)

Lemma isdigit_cases c :
  isdigit c = true ->
  c = "0"%char \/ c = "1"%char \/ c = "2"%char \/ c = "3"%char
  \/ c = "4"%char \/ c = "5"%char \/ c = "6"%char \/ c = "7"%char
  \/ c = "8"%char \/ c = "9"%char.
Proof.
  destruct c as [[] [] [] [] [] [] [] []]; vm_compute; intros H;
    try discriminate H; tauto.
Qed.

Ltac digit_cases H :=
  apply isdigit_cases in H;
  destruct H as [H|[H|[H|[H|[H|[H|[H|[H|[H|H]]]]]]]]]; subst.

Section DateText.

Variable A : Type.

Variables y1 y2 y3 y4 : ascii.

(** The month directive on two digits and a slash. *)
Lemma month_directive d1 d2 d3 d4 (R : regex) cs
    (k : text -> captures -> option A) :
  isdigit d1 = true -> isdigit d2 = true ->
  rmatch (Seq re_m (Seq (Lit "/") R))
    [d1; d2; "/"%char; d3; d4; "/"%char; y1; y2; y3; y4] cs k
  = if ((1 <=? number_of [d1; d2]) && (number_of [d1; d2] <=? 12))%Z
    then rmatch R [d3; d4; "/"%char; y1; y2; y3; y4]
           ((g_m, [d1; d2]) :: cs) k
    else None.
Proof.
  intros H1 H2. digit_cases H1; digit_cases H2; cbn;
    try reflexivity; destruct (rmatch R _ _ k); reflexivity.
Qed.

(** The day directive on two digits and a slash. *)
Lemma day_directive d3 d4 (R : regex) cs
    (k : text -> captures -> option A) :
  isdigit d3 = true -> isdigit d4 = true ->
  rmatch (Seq re_d (Seq (Lit "/") R))
    [d3; d4; "/"%char; y1; y2; y3; y4] cs k
  = if ((1 <=? number_of [d3; d4]) && (number_of [d3; d4] <=? 31))%Z
    then rmatch R [y1; y2; y3; y4] ((g_d, [d3; d4]) :: cs) k
    else None.
Proof.
  intros H1 H2. digit_cases H1; digit_cases H2; cbn;
    try reflexivity; destruct (rmatch R _ _ k); reflexivity.
Qed.

(** The year directive on four digits. *)
Lemma year_directive cs (k : text -> captures -> option A) :
  isdigit y1 = true -> isdigit y2 = true ->
  isdigit y3 = true -> isdigit y4 = true ->
  rmatch (Seq re_Y Eps) [y1; y2; y3; y4] cs k
  = k [] ((g_Y, [y1; y2; y3; y4]) :: cs).
Proof.
  intros H1 H2 H3 H4. cbn. unfold digit. rewrite H1, H2, H3, H4.
  reflexivity.
Qed.

End DateText.

Lemma strip_number_text p s :
  (forall c, number_char c = true -> p c = false) ->
  forallb number_char s = true -> strip_by p s = s.
Proof.
  intros P H. destruct s as [|c s]; [reflexivity|].
  destruct (number_text_last (c :: s) H) as (d & r & Er & Hd); [discriminate|].
  simpl in H. apply andb_prop in H. destruct H as [Hc _].
  apply (strip_by_ends p c s d r (P c Hc) Er (P d Hd)).
Qed.

Lemma number_char_not_space c : number_char c = true -> isspace c = false.
Proof. intros H. apply (number_char_plain c H). Qed.

Lemma int_digits s : forallb isdigit s = true -> int s = number_of s.
Proof.
  intros H. unfold int, number_of, strip.
  rewrite (strip_number_text isspace s number_char_not_space
             (digit_text_number s H)).
  reflexivity.
Qed.

Lemma days_in_month_le y m : (days_in_month y m <= 31)%Z.
Proof.
  unfold days_in_month. destruct (m =? 2)%Z; [destruct (is_leap y); lia|].
  destruct ((m =? 4) || (m =? 6) || (m =? 9) || (m =? 11))%Z; lia.
Qed.

Lemma valid_dateb_ranges y m d :
  valid_dateb y m d = true ->
  ((1 <=? m) && (m <=? 12))%Z = true /\ ((1 <=? d) && (d <=? 31))%Z = true.
Proof.
  unfold valid_dateb. intros H.
  repeat (apply andb_prop in H; destruct H as [H ?]).
  pose proof (days_in_month_le y m).
  repeat match goal with
         | E : (_ <=? _)%Z = true |- _ => apply Z.leb_le in E
         end.
  split; apply andb_true_intro; split; apply Z.leb_le; lia.
Qed.

(** X6. On a text of two digits, two digits and four digits separated by
    slashes, [parse_date] returns the date made of the three numbers when
    they form a calendar date, and [None] otherwise. *)
Theorem parse_date_slash_date m1 m2 d1 d2 y1 y2 y3 y4 :
  forallb isdigit [m1; m2; d1; d2; y1; y2; y3; y4] = true ->
  let y := number_of [y1; y2; y3; y4] in
  let m := number_of [m1; m2] in
  let d := number_of [d1; d2] in
  parse_date (slash_date m1 m2 d1 d2 y1 y2 y3 y4)
  = Ok (if valid_dateb y m d then Some (mk_datetime y m d) else None).
Proof.
  intros H y m d. cbn [forallb] in H.
  apply andb_prop in H. destruct H as [Hm1 H].
  apply andb_prop in H. destruct H as [Hm2 H].
  apply andb_prop in H. destruct H as [Hd1 H].
  apply andb_prop in H. destruct H as [Hd2 H].
  apply andb_prop in H. destruct H as [Hy1 H].
  apply andb_prop in H. destruct H as [Hy2 H].
  apply andb_prop in H. destruct H as [Hy3 H].
  apply andb_prop in H. destruct H as [Hy4 _].
  assert (S : strip (slash_date m1 m2 d1 d2 y1 y2 y3 y4)
              = slash_date m1 m2 d1 d2 y1 y2 y3 y4).
  { apply (strip_by_ends isspace m1 _ y4
             [y3; y2; y1; "/"%char; d2; d1; "/"%char; m2; m1]);
      [apply number_char_not_space, isdigit_number_char; assumption
      | reflexivity
      | apply number_char_not_space, isdigit_number_char; assumption]. }
  unfold parse_date. rewrite S. unfold strptime, slash_date.
  change format_mdY
    with (Seq re_m (Seq (Lit "/") (Seq re_d (Seq (Lit "/") (Seq re_Y Eps))))).
  rewrite month_directive by assumption. fold m.
  destruct ((1 <=? m) && (m <=? 12))%Z eqn:Cm.
  - rewrite day_directive by assumption. fold d.
    destruct ((1 <=? d) && (d <=? 31))%Z eqn:Cd.
    + rewrite year_directive by assumption.
      change (group _ g_Y) with [y1; y2; y3; y4].
      change (group _ g_m) with [m1; m2].
      change (group _ g_d) with [d1; d2].
      rewrite (int_digits [y1; y2; y3; y4])
        by (cbn [forallb]; rewrite Hy1, Hy2, Hy3, Hy4; reflexivity).
      rewrite (int_digits [m1; m2])
        by (cbn [forallb]; rewrite Hm1, Hm2; reflexivity).
      rewrite (int_digits [d1; d2])
        by (cbn [forallb]; rewrite Hd1, Hd2; reflexivity).
      fold y m d. destruct (valid_dateb y m d); reflexivity.
    + destruct (valid_dateb y m d) eqn:V; [|reflexivity].
      apply valid_dateb_ranges in V. destruct V as [_ V]. congruence.
  - destruct (valid_dateb y m d) eqn:V; [|reflexivity].
    apply valid_dateb_ranges in V. destruct V as [V _]. congruence.
Qed.

(* ================================================================== *)
(** ** The fields and the outcome of a matched line *)

Lemma sem_date_slash s1 s2 cs cs' :
  sem re_date_slash s1 s2 cs cs' ->
  exists m1 m2 d1 d2 y1 y2 y3 y4,
    s1 = slash_date m1 m2 d1 d2 y1 y2 y3 y4
    /\ forallb isdigit [m1; m2; d1; d2; y1; y2; y3; y4] = true.
Proof.
  unfold re_date_slash.
  cbn [cat fold_right sem Rep repeat Lit]. intros H.
  repeat match goal with
         | H : exists _, _ |- _ => destruct H
         | H : _ /\ _ |- _ => destruct H
         end.
  subst. unfold digit in *.
  repeat match goal with
         | H : Ascii.eqb "/" _ = true |- _ => apply Ascii.eqb_eq in H; subst
         end.
  do 8 eexists. split; [reflexivity|].
  cbn [forallb].
  repeat match goal with
         | H : isdigit _ = true |- _ => rewrite H; clear H
         end.
  reflexivity.
Qed.

(** X7. The fields of a line that matches the transaction pattern: two
    dates of the shape dd/dd/dddd, a description that is not empty and
    holds no newline, and an amount field, not empty, of digits, commas and
    points. *)
Theorem matched_line_fields s m :
  re_match re_tx s = Some m ->
  (exists m1 m2 d1 d2 y1 y2 y3 y4,
      group m 1 = slash_date m1 m2 d1 d2 y1 y2 y3 y4
      /\ forallb isdigit [m1; m2; d1; d2; y1; y2; y3; y4] = true)
  /\ (exists m1 m2 d1 d2 y1 y2 y3 y4,
        group m 2 = slash_date m1 m2 d1 d2 y1 y2 y3 y4
        /\ forallb isdigit [m1; m2; d1; d2; y1; y2; y3; y4] = true)
  /\ group m 3 <> [] /\ forallb dot (group m 3) = true
  /\ group m 4 <> [] /\ forallb amount_char (group m 4) = true.
Proof.
  unfold re_match. intros H. apply rmatch_sound in H.
  destruct H as (s1 & s2 & cs' & E & S & K). inversion K. subst cs'. clear K.
  unfold re_tx in S. cbn [cat fold_right] in S.
  destruct S as (g1 & b1 & c1 & E1 & S1 & S).
  destruct S as (a2 & b2 & c2 & E2 & S2 & S).
  destruct S as (g2 & b3 & c3 & E3 & S3 & S).
  destruct S as (a4 & b4 & c4 & E4 & S4 & S).
  destruct S as (g3 & b5 & c5 & E5 & S5 & S).
  destruct S as (a6 & b6 & c6 & E6 & S6 & S).
  destruct S as (a7 & b7 & c7 & E7 & S7 & S).
  destruct S as (g4 & b8 & c8 & E8 & S8 & S).
  destruct S as (ws & b9 & c9 & E9 & S9 & S).
  destruct S as (a10 & b10 & c10 & E10 & S10 & S).
  pose proof (sem_group 1 re_date_slash _ _ _ _ eq_refl S1) as C1.
  apply (sem_groupless (Plus space)) in S2; [|reflexivity].
  pose proof (sem_group 2 re_date_slash _ _ _ _ eq_refl S3) as C3.
  apply (sem_groupless (Plus space)) in S4; [|reflexivity].
  pose proof (sem_group 3 (PlusLazy dot) _ _ _ _ eq_refl S5) as C5.
  apply (sem_groupless (Plus space)) in S6; [|reflexivity].
  apply (sem_groupless (Opt (Lit "$"))) in S7; [|reflexivity].
  pose proof (sem_group 4 (Plus amount_char) _ _ _ _ eq_refl S8) as C8.
  destruct S1 as (cm1 & S1 & _). destruct S3 as (cm3 & S3 & _).
  destruct S5 as (cm5 & S5 & _). destruct S8 as (cm8 & S8 & _).
  destruct S5 as (h3 & t3 & cq3 & Eg3 & (x3 & Eh3 & Hx3 & _) & (Ht3 & _)).
  destruct S8 as (h4 & t4 & cq4 & Eg4 & (x4 & Eh4 & Hx4 & _) & (Ht4 & _)).
  destruct S9 as (_ & C9). destruct S10 as (_ & _ & C10).
  destruct S as (_ & C11).
  subst. 
  change (group _ 1) with g1. change (group _ 2) with g2.
  change (group _ 3) with ([x3] ++ t3). change (group _ 4) with ([x4] ++ t4).
  split; [exact (sem_date_slash _ _ _ _ S1)|].
  split; [exact (sem_date_slash _ _ _ _ S3)|].
  split; [discriminate|]. split; [simpl; rewrite Hx3; exact Ht3|].
  split; [discriminate|]. simpl. rewrite Hx4. exact Ht4.
Qed.

(** The loop over the pages appends one text per page. *)
Lemma extract_loop (Page : Type) (extract : Page -> result (option text)) :
  forall pages acc texts,
    for_each
      (fun pages_text page =>
         bind (extract page) (fun t =>
         let text := match t with
                     | Some s => s
                     | None => []
                     end in
         Ok (pages_text ++ [text])))
      acc pages = Ok texts ->
    exists ts,
      texts = acc ++ ts
      /\ Forall2 (fun page t =>
                    extract page = Ok (Some t)
                    \/ (extract page = Ok None /\ t = []))
                 pages ts.
Proof.
  induction pages as [|page pages IH]; intros acc texts H.
  - inversion H. exists []. rewrite app_nil_r. split; [reflexivity|constructor].
  - cbn [for_each] in H. apply bind_Ok in H. destruct H as (acc' & H1 & H).
    apply bind_Ok in H1. destruct H1 as (t & Ht & H1). inversion H1.
    subst acc'. clear H1.
    destruct (IH _ _ H) as (ts & E & F).
    exists ((match t with Some s => s | None => [] end) :: ts).
    split; [rewrite E, <- app_assoc; reflexivity|].
    constructor; [|exact F]. destruct t as [s|]; auto.
Qed.

(** X9. [extract_text_from_pdf] returns one text per page, in page order:
    the text of the page, or the empty text when the page has none. *)
Theorem extract_text_one_per_page (Page : Type)
    (pdfplumber_pages : list byte -> result (list Page))
    (extract_text : Page -> result (option text))
    (pdf_bytes : list byte) (texts : list text) :
  extract_text_from_pdf pdfplumber_pages extract_text pdf_bytes = Ok texts ->
  exists pages,
    pdfplumber_pages pdf_bytes = Ok pages
    /\ List.length texts = List.length pages
    /\ Forall2 (fun page t =>
                  extract_text page = Ok (Some t)
                  \/ (extract_text page = Ok None /\ t = []))
               pages texts.
Proof.
  unfold extract_text_from_pdf. intros H.
  apply bind_Ok in H. destruct H as (pages & Hp & H).
  apply extract_loop in H. destruct H as (ts & E & F). cbn [app] in E.
  subst ts. exists pages. split; [exact Hp|]. split; [|exact F].
  symmetry. eapply Forall2_length. exact F.
Qed.

(** X8. The outcome of a line that matches the transaction pattern, in the
    credit or the debit section and with no header text in it: when the
    amount field is not decimal-shaped the scan raises [ValueError];
    otherwise the amount converts to a value [>= 0], both dates are parsed
    without an error, and one transaction is added when both dates are
    calendar dates, none otherwise. *)
Theorem matched_line_outcome st line m section :
  current_section st = Some section ->
  section = lit "credit" \/ section = lit "debit" ->
  contains (lit "Payments and Other Credits") (strip line) = false ->
  contains (lit "Purchases and Cash Advances") (strip line) = false ->
  contains (lit "Fees and Interest Charged") (strip line) = false ->
  contains (lit "Sub Total") (strip line) = false ->
  contains (lit "No transaction available") (strip line) = false ->
  re_match re_tx (strip line) = Some m ->
  if decimal_shaped (group m 4)
  then
    exists q posted made,
      (0 <= q)%Q
      /\ parse_amount (group m 4) = Ok (Fin q)
      /\ parse_date (group m 1) = Ok posted
      /\ parse_date (group m 2) = Ok made
      /\ line_body st line
         = Ok (match posted, made with
               | Some p, Some t =>
                   mk_locals
                     (transactions st ++
                        [mk_Transaction p t (strip (group m 3)) (Fin q)
                           section])
                     (current_section st)
               | _, _ => st
               end)
  else line_body st line = Raise ValueError.
Proof.
  intros Hsec Hs H1 H2 H3 H4 H5 Hm.
  assert (Ha : forallb amount_char (group m 4) = true).
  { destruct (re_tx_shape _ _ Hm)
      as (g1 & g2 & g3 & g4 & pre & ws & tail & Em & _ & _ & Hg & _).
    subst m. exact Hg. }
  destruct (amount_field_cases (group m 4) Ha) as [Y N].
  destruct (parse_date_returns (group m 1)) as [posted Hp].
  destruct (parse_date_returns (group m 2)) as [made Hd].
  assert (L : line_body st line
              = bind (parse_amount (group m 4)) (fun amt =>
                match posted, made with
                | Some p, Some t =>
                    Ok (mk_locals
                          (transactions st ++
                             [mk_Transaction p t (strip (group m 3)) amt
                                section])
                          (current_section st))
                | _, _ => Ok st
                end)).
  { unfold line_body. rewrite H1, H2, H3, H4, H5, Hsec, Hm, Hp, Hd.
    destruct Hs; subst section; reflexivity. }
  rewrite L. destruct (decimal_shaped (group m 4)).
  - destruct (Y eq_refl) as (q & Hq & Nq). exists q, posted, made.
    rewrite Hq.
    repeat (split; [assumption || reflexivity|]).
    destruct posted, made; reflexivity.
  - rewrite (N eq_refl). reflexivity.
Qed.

Lemma matched_line_outcome_witness :
  let st := mk_locals [] (Some (lit "debit")) in
  let line := lit "02/30/2024 02/29/2024 GROCERY STORE 82.10" in
  let bad := lit "03/01/2024 02/29/2024 GROCERY STORE 8.2.10" in
  let m := [(4, lit "82.10"); (3, lit "GROCERY STORE");
            (2, lit "02/29/2024"); (1, lit "02/30/2024")] in
  let m' := [(4, lit "8.2.10"); (3, lit "GROCERY STORE");
             (2, lit "02/29/2024"); (1, lit "03/01/2024")] in
  re_match re_tx (strip line) = Some m
  /\ re_match re_tx (strip bad) = Some m'
  /\ parse_date (group m 1) = Ok None
  /\ line_body st line = Ok st
  /\ line_body st bad = Raise ValueError.
Proof.
  intros st line bad m m'.
  assert (Hm : re_match re_tx (strip line) = Some m)
    by (vm_compute; reflexivity).
  assert (Hm' : re_match re_tx (strip bad) = Some m')
    by (vm_compute; reflexivity).
  assert (Hp : parse_date (group m 1) = Ok None) by (vm_compute; reflexivity).
  split; [exact Hm|]. split; [exact Hm'|]. split; [exact Hp|]. split.
  - pose proof (matched_line_outcome st line m (lit "debit") eq_refl
                  (or_intror eq_refl) eq_refl eq_refl eq_refl eq_refl eq_refl
                  Hm) as H.
    change (decimal_shaped (group m 4)) with true in H. cbv iota in H.
    destruct H as (q & posted & made & _ & _ & Hp' & _ & H).
    rewrite Hp in Hp'. inversion Hp'. subst posted. exact H.
  - exact (matched_line_outcome st bad m' (lit "debit") eq_refl
             (or_intror eq_refl) eq_refl eq_refl eq_refl eq_refl eq_refl
             Hm').
Defined.

Lemma parse_date_slash_date_witness :
  forallb isdigit (lit "02292024") = true
  /\ parse_date (lit "02/29/2024") = Ok (Some (mk_datetime 2024 2 29))
  /\ forallb isdigit (lit "02302024") = true
  /\ parse_date (lit "02/30/2024") = Ok None.
Proof.
  assert (H1 : forallb isdigit (lit "02292024") = true) by reflexivity.
  assert (H2 : forallb isdigit (lit "02302024") = true) by reflexivity.
  split; [exact H1|]. split.
  - exact (parse_date_slash_date "0" "2" "2" "9" "2" "0" "2" "4" H1).
  - split; [exact H2|].
    exact (parse_date_slash_date "0" "2" "3" "0" "2" "0" "2" "4" H2).
Defined.

Lemma extract_text_one_per_page_witness :
  let pages := [Some (lit "Account Activity"); None; Some (lit "p3")] in
  let texts := [lit "Account Activity"; []; lit "p3"] in
  extract_text_from_pdf (pages_fixed pages) text_of_page [] = Ok texts
  /\ exists ps,
       pages_fixed pages [] = Ok ps
       /\ List.length texts = List.length ps
       /\ Forall2 (fun page t =>
                     text_of_page page = Ok (Some t)
                     \/ (text_of_page page = Ok None /\ t = []))
                  ps texts.
Proof.
  intros pages texts.
  assert (H : extract_text_from_pdf (pages_fixed pages) text_of_page []
              = Ok texts) by reflexivity.
  split; [exact H|].
  exact (extract_text_one_per_page _ (pages_fixed pages) text_of_page []
           texts H).
Defined.

Lemma parse_transactions_summary_ok pages txs s :
  parse_transactions pages = Ok (txs, s) -> summary_ok s.
Proof.
  unfold parse_transactions. intros H.
  apply bind_Ok in H. destruct H as (s' & Hs & H).
  apply bind_Ok in H. destruct H as (st & _ & H). inversion H. subst.
  destruct pages as [|first_page rest].
  - inversion Hs. summary_parts.
  - eapply parse_summary_ok. exact Hs.
Qed.

(** X1. [parse_transactions] never sets the due date, the minimum payment,
    the payments or the purchases of the summary. *)
Theorem summary_unpopulated_fields pages txs s :
  parse_transactions pages = Ok (txs, s) ->
  payment_due_date s = None /\ minimum_payment s = None
  /\ payments s = None /\ purchases s = None.
Proof.
  intros H. apply parse_transactions_summary_ok in H.
  destruct H as (_ & _ & _ & _ & H). exact H.
Qed.

(** X2. In a summary that [parse_transactions] returns, the dates of the
    bill period are calendar dates, the end of the period is present only
    when its start is, and the balances are [>= 0]. *)
Theorem summary_well_formed pages txs s :
  parse_transactions pages = Ok (txs, s) ->
  (forall d, bill_period_start s = Some d -> valid_date d)
  /\ (forall d, bill_period_end s = Some d ->
        valid_date d /\ bill_period_start s <> None)
  /\ (forall f, previous_balance s = Some f -> float_nonneg f)
  /\ (forall f, new_balance s = Some f -> float_nonneg f).
Proof.
  intros H. apply parse_transactions_summary_ok in H.
  destruct H as (A & B & C & D & _). auto.
Qed.

(** X3. The summary is read from the first page alone, and each balance is
    present exactly when its own pattern is found there, whatever the
    other patterns do; the bill period is absent when its pattern is not
    found. *)
Theorem summary_fields_independent first_page rest txs s :
  parse_transactions (first_page :: rest) = Ok (txs, s) ->
  parse_summary first_page empty_summary = Ok s
  /\ match re_search re_prev_balance first_page with
     | Some m =>
         exists v, parse_amount (group m 1) = Ok v
                   /\ previous_balance s = Some v
     | None => previous_balance s = None
     end
  /\ match re_search re_new_balance first_page with
     | Some m =>
         exists v, parse_amount (group m 1) = Ok v /\ new_balance s = Some v
     | None => new_balance s = None
     end
  /\ (re_search re_bill_period first_page = None ->
      bill_period_start s = None /\ bill_period_end s = None).
Proof.
  unfold parse_transactions. intros H.
  apply bind_Ok in H. destruct H as (s' & Hs & H).
  apply bind_Ok in H. destruct H as (st & _ & H). inversion H. subst s'.
  split; [exact Hs|]. clear H. unfold parse_summary in Hs.
  apply bind_Ok in Hs. destruct Hs as (s1 & Hb1 & H).
  apply bind_Ok in H. destruct H as (s2 & Hb2 & H).
  assert (P1 : previous_balance s1 = None /\ new_balance s1 = None).
  { destruct (re_search re_bill_period first_page) as [m|].
    - destruct (strptime format_dmY (group m 1)) as [d1|e].
      + destruct (strptime format_dmY (group m 2)) as [d2|e].
        * inversion Hb1. split; reflexivity.
        * destruct (is_ValueError e); [|discriminate]. inversion Hb1.
          split; reflexivity.
      + destruct (is_ValueError e); [|discriminate]. inversion Hb1.
        split; reflexivity.
    - inversion Hb1. split; reflexivity. }
  assert (B1 : re_search re_bill_period first_page = None ->
               bill_period_start s1 = None /\ bill_period_end s1 = None).
  { intros E. rewrite E in Hb1. inversion Hb1. split; reflexivity. }
  destruct P1 as [P1 N1].
  assert (P2 : match re_search re_prev_balance first_page with
               | Some m =>
                   exists v, parse_amount (group m 1) = Ok v
                             /\ previous_balance s2 = Some v
               | None => previous_balance s2 = None
               end
               /\ new_balance s2 = None
               /\ bill_period_start s2 = bill_period_start s1
               /\ bill_period_end s2 = bill_period_end s1).
  { destruct (re_search re_prev_balance first_page) as [m|].
    - apply bind_Ok in Hb2. destruct Hb2 as (v & Hv & Hb2). inversion Hb2.
      split; [exists v; split; [exact Hv | reflexivity]|]. cbn. auto.
    - inversion Hb2. subst s2. auto. }
  destruct P2 as (P2 & N2 & S2 & E2).
  destruct (re_search re_new_balance first_page) as [m|].
  - apply bind_Ok in H. destruct H as (v & Hv & H). inversion H. cbn.
    split; [exact P2|]. split; [exists v; auto|].
    intros E. rewrite S2, E2. apply B1. exact E.
  - inversion H. subst s. split; [exact P2|]. split; [exact N2|].
    intros E. rewrite S2, E2. apply B1. exact E.
Qed.

Lemma summary_unpopulated_fields_witness :
  let page := join_lines ["Payment Due Date 04/25/2024";
                          "Minimum Payment Due $25.00";
                          "Payments $200.00"; "Purchases $350.25";
                          "New Balance $350.25"] in
  let s := mk_StatementSummary None None None (Some (Fin (1401 # 4)))
             None None None None in
  parse_transactions [page] = Ok ([], s)
  /\ payment_due_date s = None /\ minimum_payment s = None
  /\ payments s = None /\ purchases s = None.
Proof.
  intros page s.
  assert (H : parse_transactions [page] = Ok ([], s))
    by (vm_compute; reflexivity).
  split; [exact H|]. exact (summary_unpopulated_fields [page] [] s H).
Defined.

Lemma summary_well_formed_witness :
  let page := join_lines ["Bill Period: 01-03-2024 - 31-13-2024";
                          "Previous Balance $200.00"] in
  let s := mk_StatementSummary (Some (mk_datetime 2024 3 1)) None
             (Some (Fin (200 # 1))) None None None None None in
  parse_transactions [page] = Ok ([], s)
  /\ valid_date (mk_datetime 2024 3 1)
  /\ float_nonneg (Fin (200 # 1)).
Proof.
  intros page s.
  assert (H : parse_transactions [page] = Ok ([], s))
    by (vm_compute; reflexivity).
  destruct (summary_well_formed [page] [] s H) as (A & _ & C & _).
  split; [exact H|]. split; [apply A | apply C]; reflexivity.
Defined.

Lemma summary_fields_independent_witness :
  let first_page := join_lines ["Bill Period: 99-99-2024 - 31-13-2024";
                                "New Balance as of 03/31 $1,350.25"] in
  let rest := [join_lines ["Previous Balance $200.00"]] in
  let s := mk_StatementSummary None None None (Some (Fin (5401 # 4)))
             None None None None in
  parse_transactions (first_page :: rest) = Ok ([], s)
  /\ parse_summary first_page empty_summary = Ok s
  /\ re_search re_prev_balance first_page = None
  /\ previous_balance s = None.
Proof.
  intros first_page rest s.
  assert (H : parse_transactions (first_page :: rest) = Ok ([], s))
    by (vm_compute; reflexivity).
  assert (N : re_search re_prev_balance first_page = None)
    by (vm_compute; reflexivity).
  destruct (summary_fields_independent first_page rest [] s H)
    as (A & B & _).
  split; [exact H|]. split; [exact A|]. split; [exact N|].
  rewrite N in B. exact B.
Defined.

Lemma matched_line_fields_witness :
  let s := lit "04/02/2024  04/01/2024  AMAZON MKTPLACE  $45.67" in
  let m := [(4, lit "45.67"); (3, lit "AMAZON MKTPLACE");
            (2, lit "04/01/2024"); (1, lit "04/02/2024")] in
  re_match re_tx s = Some m
  /\ group m 3 <> [] /\ forallb dot (group m 3) = true
  /\ group m 4 <> [] /\ forallb amount_char (group m 4) = true.
Proof.
  intros s m.
  assert (H : re_match re_tx s = Some m) by (vm_compute; reflexivity).
  split; [exact H|].
  destruct (matched_line_fields s m H) as (_ & _ & R). exact R.
Defined.

(* ================================================================== *)
(** ** File names of attachments *)

Lemma lstrip_by_length p s : List.length (lstrip_by p s) <= List.length s.
Proof.
  induction s as [|c s IH]; simpl; [lia|]. destruct (p c); simpl; lia.
Qed.

Lemma re_sub_class p repl :
  forall s fuel, List.length s <= fuel ->
  re_sub_from fuel (Cls p) repl s
  = flat_map (fun c => if p c then repl else [c]) s.
Proof.
  induction s as [|c s IH]; intros fuel L.
  - destruct fuel; reflexivity.
  - destruct fuel as [|fuel]; [simpl in L; lia|]. simpl in L.
    cbn [re_sub_from rmatch flat_map]. destruct (p c).
    + rewrite IH by lia. reflexivity.
    + rewrite IH by lia. reflexivity.
Qed.

Lemma star_greedy_all p s :
  star_greedy p s (fun r => Some r) = Some (lstrip_by p s).
Proof.
  induction s as [|c s IH]; simpl; [reflexivity|].
  destruct (p c); [rewrite IH|]; reflexivity.
Qed.

Lemma sub_runs_in_run p repl s :
  sub_runs p repl true s = sub_runs p repl false (lstrip_by p s).
Proof.
  induction s as [|c s IH]; simpl; [reflexivity|].
  destruct (p c) eqn:E; [exact IH|]. simpl. rewrite E. reflexivity.
Qed.

Lemma re_sub_plus p repl :
  forall fuel s, List.length s <= fuel ->
  re_sub_from fuel (Plus p) repl s = sub_runs p repl false s.
Proof.
  induction fuel as [|fuel IH]; intros s L.
  - destruct s; [reflexivity | simpl in L; lia].
  - destruct s as [|c s]; [reflexivity|]. simpl in L.
    cbn [re_sub_from Plus rmatch sub_runs]. destruct (p c) eqn:E.
    + rewrite (star_greedy_all p s). rewrite IH.
      * rewrite sub_runs_in_run. reflexivity.
      * pose proof (lstrip_by_length p s). lia.
    + rewrite IH by lia. reflexivity.
Qed.

Lemma substituted_eq filename :
  re_sub (Plus underscore) (lit "_")
    (re_sub (Cls invalid_char) (lit "_") filename)
  = substituted filename.
Proof.
  unfold re_sub, substituted.
  rewrite re_sub_plus by lia. rewrite re_sub_class by lia.
  f_equal. induction filename as [|c s IH]; [reflexivity|].
  cbn [flat_map map]. rewrite IH. destruct (invalid_char c); reflexivity.
Qed.

Lemma forallb_firstn (q : ascii -> bool) n (s : text) :
  forallb q s = true -> forallb q (firstn n s) = true.
Proof.
  revert n. induction s as [|c s IH]; intros [|n] H; try reflexivity.
  simpl in *. apply andb_prop in H. destruct H as [Hc Hs].
  rewrite Hc, (IH n Hs). reflexivity.
Qed.

Lemma sub_runs_forallb (q p : ascii -> bool) repl s :
  forallb q repl = true -> forallb q s = true ->
  forall b, forallb q (sub_runs p repl b s) = true.
Proof.
  intros Hr. induction s as [|c s IH]; intros H b; [reflexivity|].
  simpl in H. apply andb_prop in H. destruct H as [Hc Hs]. simpl.
  destruct (p c).
  - rewrite forallb_app, (IH Hs true). destruct b; [reflexivity|].
    rewrite Hr. reflexivity.
  - simpl. rewrite Hc. apply (IH Hs).
Qed.

Lemma sub_runs_length p u s :
  forall b, List.length (sub_runs p [u] b s) <= List.length s.
Proof.
  induction s as [|c s IH]; intros b; simpl; [lia|].
  destruct (p c).
  - rewrite length_app. specialize (IH true). destruct b; simpl; lia.
  - simpl. specialize (IH false). lia.
Qed.

Lemma sub_runs_head p repl s :
  match sub_runs p repl true s with
  | c :: _ => p c = false
  | [] => True
  end.
Proof.
  induction s as [|c s IH]; simpl; [exact I|].
  destruct (p c) eqn:E; [exact IH | exact E].
Qed.

Lemma sub_runs_no_double p u s :
  forall b, no_double p (sub_runs p [u] b s) = true.
Proof.
  induction s as [|c s IH]; intros b; [reflexivity|]. simpl.
  destruct (p c) eqn:E.
  - destruct b; [apply IH|]. cbn [app].
    pose proof (sub_runs_head p [u] s) as Hh. specialize (IH true).
    destruct (sub_runs p [u] true s) as [|c' t]; [reflexivity|].
    change (no_double p (u :: c' :: t))
      with (negb (p u && p c') && no_double p (c' :: t)).
    rewrite Hh, andb_false_r. exact IH.
  - specialize (IH false).
    destruct (sub_runs p [u] false s) as [|c' t]; [reflexivity|].
    change (no_double p (c :: c' :: t))
      with (negb (p c && p c') && no_double p (c' :: t)).
    rewrite E. exact IH.
Qed.

(** A text without two adjacent [p] is left alone, when the replacement of
    a run is the single character of the run. *)
Lemma sub_runs_id s :
  no_double underscore s = true ->
  sub_runs underscore (lit "_") false s = s
  /\ (match s with c :: _ => underscore c = false | [] => True end ->
      sub_runs underscore (lit "_") true s = s).
Proof.
  induction s as [|c s IH]; intros H; [split; reflexivity|].
  assert (Hs : no_double underscore s = true).
  { destruct s as [|c' s]; [reflexivity|].
    change (no_double underscore (c :: c' :: s))
      with (negb (underscore c && underscore c')
            && no_double underscore (c' :: s)) in H.
    apply andb_prop in H. apply H. }
  destruct (IH Hs) as [IH1 IH2]. cbn [sub_runs].
  destruct (underscore c) eqn:E.
  - split; [|intros Hc; discriminate Hc].
    assert (Ec : c = "_"%char) by (apply Ascii.eqb_eq; exact E). subst c.
    cbn [lit list_ascii_of_string app]. f_equal. apply IH2.
    destruct s as [|c' s]; [exact I|].
    change (no_double underscore ("_"%char :: c' :: s))
      with (negb (underscore "_" && underscore c')
            && no_double underscore (c' :: s)) in H.
    apply andb_prop in H. destruct H as [H _]. rewrite E in H.
    destruct (underscore c'); [discriminate H | reflexivity].
  - split; [|intros _]; f_equal; exact IH1.
Qed.

Lemma substituted_valid f : forallb valid_char (substituted f) = true.
Proof.
  unfold substituted. apply sub_runs_forallb; [reflexivity|].
  induction f as [|c s IH]; [reflexivity|]. cbn [map forallb]. rewrite IH.
  unfold valid_char. destruct (invalid_char c) eqn:E; [reflexivity|].
  rewrite E. reflexivity.
Qed.

Lemma substituted_no_double f :
  no_double underscore (substituted f) = true.
Proof. apply sub_runs_no_double. Qed.

Lemma substituted_length f : List.length (substituted f) <= List.length f.
Proof.
  unfold substituted.
  pose proof (sub_runs_length underscore "_"
                (map (fun c => if invalid_char c then "_"%char else c) f)
                false) as L.
  rewrite length_map in L. exact L.
Qed.

Lemma substituted_id s :
  forallb valid_char s = true -> no_double underscore s = true ->
  substituted s = s.
Proof.
  intros V N. unfold substituted.
  assert (M : map (fun c => if invalid_char c then "_"%char else c) s = s).
  { clear N. induction s as [|c s IH]; [reflexivity|]. simpl in V.
    apply andb_prop in V. destruct V as [Vc Vs]. cbn [map].
    rewrite (IH Vs). unfold valid_char in Vc.
    destruct (invalid_char c); [discriminate Vc | reflexivity]. }
  rewrite M. apply (sub_runs_id s N).
Qed.

(** The last point of a text that has one. *)
Lemma no_point s :
  contains (lit ".") s = false -> forallb not_point s = true.
Proof.
  induction s as [|c s IH]; [reflexivity|].
  change (contains (lit ".") (c :: s))
    with ((Ascii.eqb "." c && true) || contains (lit ".") s).
  intros H. apply orb_false_elim in H. destruct H as [Hc Hs].
  cbn [forallb]. rewrite (IH Hs), andb_true_r. unfold not_point.
  rewrite andb_true_r in Hc. rewrite Ascii.eqb_sym, Hc. reflexivity.
Qed.

Lemma last_point s :
  contains (lit ".") s = true ->
  exists a b, s = a ++ "."%char :: b /\ forallb not_point b = true.
Proof.
  induction s as [|c s IH]; [discriminate|].
  destruct (contains (lit ".") s) eqn:Hs.
  - intros _. destruct (IH eq_refl) as (a & b & E & Hb).
    exists (c :: a), b. subst s. auto.
  - change (contains (lit ".") (c :: s))
      with ((Ascii.eqb "." c && true) || contains (lit ".") s).
    rewrite Hs, orb_false_r, andb_true_r. intros Hc.
    apply Ascii.eqb_eq in Hc. subst c. exists [], s.
    split; [reflexivity | apply no_point; exact Hs].
Qed.

Lemma lstrip_by_all p a c b :
  forallb p a = true -> p c = false -> lstrip_by p (a ++ c :: b) = c :: b.
Proof.
  intros Ha Hc. induction a as [|x a IH]; simpl.
  - rewrite Hc. reflexivity.
  - simpl in Ha. apply andb_prop in Ha. destruct Ha as [Hx Ha].
    rewrite Hx. apply IH. exact Ha.
Qed.

Lemma takewhile_all p a c b :
  forallb p a = true -> p c = false -> takewhile p (a ++ c :: b) = a.
Proof.
  intros Ha Hc. induction a as [|x a IH]; simpl.
  - rewrite Hc. reflexivity.
  - simpl in Ha. apply andb_prop in Ha. destruct Ha as [Hx Ha].
    rewrite Hx, (IH Ha). reflexivity.
Qed.

Lemma rsplit1_point a b :
  forallb not_point b = true -> rsplit1 "." (a ++ "."%char :: b) = (a, b).
Proof.
  intros Hb. unfold rsplit1.
  rewrite rev_app_distr. cbn [rev]. rewrite <- app_assoc. cbn [app].
  assert (Hr : forallb (fun c => negb (Ascii.eqb c ".")) (rev b) = true)
    by (apply forallb_rev; exact Hb).
  rewrite (lstrip_by_all _ (rev b) "." (rev a) Hr eq_refl).
  rewrite (takewhile_all _ (rev b) "." (rev a) Hr eq_refl).
  cbn [tl]. rewrite !rev_involutive. reflexivity.
Qed.

Lemma contains_point a b : contains (lit ".") (a ++ "."%char :: b) = true.
Proof.
  induction a as [|c a IH]; [reflexivity|].
  change (contains (lit ".") ((c :: a) ++ "."%char :: b))
    with ((Ascii.eqb "." c && true)
          || contains (lit ".") (a ++ "."%char :: b)).
  rewrite IH. apply orb_true_r.
Qed.

Lemma sanitize_limited f : _sanitize_filename f = limited (substituted f).
Proof.
  unfold _sanitize_filename, limited. rewrite substituted_eq. reflexivity.
Qed.

(** The three shapes of the result of the length limit. *)
Lemma limited_cases t :
  limited t = t /\ List.length t <= 200
  \/ (exists a b, t = a ++ "."%char :: b /\ forallb not_point b = true
        /\ b <> [] /\ limited t = firstn 195 a ++ "."%char :: b)
  \/ (exists a b, (t = a ++ b) /\ limited t = firstn 195 a).
Proof.
  unfold limited. destruct (200 <? List.length t) eqn:L.
  - right. destruct (contains (lit ".") t) eqn:C.
    + destruct (last_point t C) as (a & b & E & Hb). subst t.
      rewrite (rsplit1_point a b Hb).
      destruct b as [|c b].
      * right. exists a, ["."%char]. rewrite app_nil_r. auto.
      * left. exists a, (c :: b). repeat split; auto. discriminate.
    + right. exists t, []. rewrite !app_nil_r. auto.
  - left. split; [reflexivity|]. apply Nat.ltb_ge in L. exact L.
Qed.

Lemma no_double_tail p c s :
  no_double p (c :: s) = true -> no_double p s = true.
Proof.
  destruct s as [|c' s]; [reflexivity|].
  change (no_double p (c :: c' :: s))
    with (negb (p c && p c') && no_double p (c' :: s)).
  intros H. apply andb_prop in H. apply H.
Qed.

Lemma no_double_app p a b :
  no_double p (a ++ b) = true ->
  no_double p a = true /\ no_double p b = true.
Proof.
  induction a as [|c a IH]; intros H; [split; [reflexivity | exact H]|].
  destruct (IH (no_double_tail p c (a ++ b) H)) as [Ha Hb].
  split; [|exact Hb]. destruct a as [|c' a]; [reflexivity|].
  change (no_double p ((c :: c' :: a) ++ b))
    with (negb (p c && p c') && no_double p ((c' :: a) ++ b)) in H.
  change (no_double p (c :: c' :: a))
    with (negb (p c && p c') && no_double p (c' :: a)).
  apply andb_prop in H. destruct H as [H _]. rewrite H, Ha. reflexivity.
Qed.

Lemma no_double_join p a c b :
  no_double p a = true -> p c = false -> no_double p b = true ->
  no_double p (a ++ c :: b) = true.
Proof.
  intros Ha Hc Hb. induction a as [|x a IH].
  - destruct b as [|y b]; [reflexivity|].
    change (no_double p ([] ++ c :: y :: b))
      with (negb (p c && p y) && no_double p (y :: b)).
    rewrite Hc, Hb. reflexivity.
  - specialize (IH (no_double_tail p x a Ha)).
    destruct a as [|x' a].
    + change (no_double p ([x] ++ c :: b))
        with (negb (p x && p c) && no_double p ([] ++ c :: b)).
      rewrite Hc, andb_false_r, IH. reflexivity.
    + change (no_double p ((x :: x' :: a) ++ c :: b))
        with (negb (p x && p x') && no_double p ((x' :: a) ++ c :: b)).
      change (no_double p (x :: x' :: a))
        with (negb (p x && p x') && no_double p (x' :: a)) in Ha.
      apply andb_prop in Ha. destruct Ha as [Hx _]. rewrite Hx, IH.
      reflexivity.
Qed.

Lemma no_double_firstn p n s :
  no_double p s = true -> no_double p (firstn n s) = true.
Proof.
  intros H. rewrite <- (firstn_skipn n s) in H.
  apply (no_double_app p _ _ H).
Qed.

Lemma no_double_contains s :
  contains (lit "__") s = negb (no_double underscore s).
Proof.
  induction s as [|c s IH]; [reflexivity|].
  change (contains (lit "__") (c :: s))
    with (startswith (lit "__") (c :: s) || contains (lit "__") s).
  rewrite IH. destruct s as [|c' s].
  - change (startswith (lit "__") [c]) with (Ascii.eqb "_" c && false).
    rewrite andb_false_r. reflexivity.
  - change (startswith (lit "__") (c :: c' :: s))
      with (Ascii.eqb "_" c && (Ascii.eqb "_" c' && true)).
    change (no_double underscore (c :: c' :: s))
      with (negb (underscore c && underscore c')
            && no_double underscore (c' :: s)).
    unfold underscore. rewrite andb_true_r.
    rewrite (Ascii.eqb_sym "_" c), (Ascii.eqb_sym "_" c').
    destruct (Ascii.eqb c "_"), (Ascii.eqb c' "_"),
      (no_double (fun c0 => Ascii.eqb c0 "_") (c' :: s)); reflexivity.
Qed.

Lemma limited_keeps (q : text -> Prop) t :
  q t ->
  (forall a b, t = a ++ "."%char :: b -> q (firstn 195 a ++ "."%char :: b)) ->
  (forall a b, t = a ++ b -> q (firstn 195 a)) ->
  q (limited t).
Proof.
  intros Ht H2 H3.
  destruct (limited_cases t)
    as [[E _]|[(a & b & E & _ & _ & El)|(a & b & E & El)]].
  - rewrite E. exact Ht.
  - rewrite El. apply (H2 a b E).
  - rewrite El. apply (H3 a b E).
Qed.

Lemma sanitize_valid filename :
  forallb valid_char (_sanitize_filename filename) = true.
Proof.
  rewrite sanitize_limited.
  pose proof (substituted_valid filename) as V.
  apply (limited_keeps (fun t => forallb valid_char t = true)).
  - exact V.
  - intros a b E. rewrite E, forallb_app in V.
    apply andb_prop in V. destruct V as [Va Vb].
    rewrite forallb_app, (forallb_firstn valid_char 195 a Va). exact Vb.
  - intros a b E. rewrite E, forallb_app in V.
    apply andb_prop in V. destruct V as [Va _].
    apply forallb_firstn. exact Va.
Qed.

(** X10. The result of [_sanitize_filename] holds none of the nine characters
    that the first substitution replaces, whatever the name it is given. *)
Theorem sanitize_filename_valid filename :
  existsb invalid_char (_sanitize_filename filename) = false.
Proof.
  destruct (existsb invalid_char (_sanitize_filename filename)) eqn:E;
    [|reflexivity].
  apply existsb_exists in E. destruct E as (c & Hc & Hi).
  pose proof (sanitize_valid filename) as V.
  rewrite forallb_forall in V. specialize (V c Hc).
  unfold valid_char in V. rewrite Hi in V. discriminate V.
Qed.

Lemma sanitize_no_double filename :
  no_double underscore (_sanitize_filename filename) = true.
Proof.
  rewrite sanitize_limited.
  pose proof (substituted_no_double filename) as N.
  apply (limited_keeps (fun t => no_double underscore t = true)).
  - exact N.
  - intros a b E. rewrite E in N.
    destruct (no_double_app underscore a ("."%char :: b) N) as [Na Nb].
    apply no_double_join.
    + apply no_double_firstn. exact Na.
    + reflexivity.
    + apply (no_double_tail underscore "." b Nb).
  - intros a b E. rewrite E in N.
    apply no_double_firstn. apply (no_double_app underscore a b N).
Qed.

(** X11. The result of [_sanitize_filename] never holds two underscores in a
    row. *)
Theorem sanitize_filename_single_underscores filename :
  contains (lit "__") (_sanitize_filename filename) = false.
Proof.
  rewrite no_double_contains, sanitize_no_double. reflexivity.
Qed.

Lemma limited_length t : List.length (limited t) <= List.length t.
Proof.
  apply (limited_keeps (fun r => List.length r <= List.length t)).
  - lia.
  - intros a b E. rewrite E, !length_app, length_firstn.
    cbn [List.length]. lia.
  - intros a b E. rewrite E, length_app, length_firstn. lia.
Qed.

(** X12. The result of [_sanitize_filename] is never longer than its
    argument. *)
Theorem sanitize_filename_length filename :
  List.length (_sanitize_filename filename) <= List.length filename.
Proof.
  rewrite sanitize_limited.
  pose proof (limited_length (substituted filename)).
  pose proof (substituted_length filename). lia.
Qed.

Lemma limited_idempotent t : limited (limited t) = limited t.
Proof.
  destruct (limited_cases t)
    as [[E L]|[(a & b & E & Hb & Hne & El)|(a & b & E & El)]].
  - rewrite E. exact E.
  - rewrite El. set (r := firstn 195 a ++ "."%char :: b).
    unfold limited. destruct (200 <? List.length r); [|reflexivity].
    unfold r. rewrite contains_point, (rsplit1_point _ b Hb).
    rewrite firstn_firstn. destruct b as [|c b]; [contradiction|].
    reflexivity.
  - rewrite El. unfold limited.
    assert (F : List.length (firstn 195 a) <= 195).
    { rewrite length_firstn. lia. }
    destruct (200 <? List.length (firstn 195 a)) eqn:C; [|reflexivity].
    apply Nat.ltb_lt in C. lia.
Qed.

(** X13. [_sanitize_filename] is idempotent. *)
Theorem sanitize_filename_idempotent filename :
  _sanitize_filename (_sanitize_filename filename)
  = _sanitize_filename filename.
Proof.
  rewrite (sanitize_limited (_sanitize_filename filename)).
  rewrite (substituted_id (_sanitize_filename filename)
             (sanitize_valid filename)
             (sanitize_no_double filename)).
  rewrite sanitize_limited. apply limited_idempotent.
Qed.

Lemma plain_char_facts c :
  plain_char c = true ->
  invalid_char c = false /\ underscore c = false /\ not_point c = true.
Proof.
  unfold plain_char. intros H.
  apply andb_prop in H. destruct H as [H H3].
  apply andb_prop in H. destruct H as [H1 H2].
  apply negb_true_iff in H1. apply negb_true_iff in H2. auto.
Qed.

Lemma sub_runs_plain p repl e :
  forallb (fun c => negb (p c)) e = true ->
  forall b, sub_runs p repl b e = e.
Proof.
  induction e as [|c e IH]; intros H b; [reflexivity|].
  simpl in H. apply andb_prop in H. destruct H as [Hc He].
  apply negb_true_iff in Hc. simpl. rewrite Hc, (IH He). reflexivity.
Qed.

Lemma sub_runs_app_plain p repl x e :
  forallb (fun c => negb (p c)) e = true -> e <> [] ->
  forall b, sub_runs p repl b (x ++ e) = sub_runs p repl b x ++ e.
Proof.
  intros He Hne. induction x as [|c x IH]; intros b.
  - apply sub_runs_plain. exact He.
  - simpl. destruct (p c).
    + rewrite IH, app_assoc. reflexivity.
    + rewrite IH. reflexivity.
Qed.

Lemma substituted_app_ext base ext :
  forallb plain_char ext = true ->
  substituted (base ++ "."%char :: ext)
  = substituted base ++ "."%char :: ext.
Proof.
  intros H. unfold substituted. rewrite map_app. cbn [map].
  change (if invalid_char "." then "_"%char else "."%char) with "."%char.
  assert (M : map (fun c => if invalid_char c then "_"%char else c) ext = ext).
  { induction ext as [|c e IH]; [reflexivity|]. simpl in H.
    apply andb_prop in H. destruct H as [Hc He]. cbn [map].
    rewrite (IH He). destruct (plain_char_facts c Hc) as (I & _ & _).
    rewrite I. reflexivity. }
  rewrite M. apply sub_runs_app_plain; [|discriminate].
  cbn [forallb]. change (negb (underscore ".")) with true. cbn [andb].
  apply (forallb_weaken plain_char); [|exact H].
  intros c Hc. destruct (plain_char_facts c Hc) as (_ & U & _).
  rewrite U. reflexivity.
Qed.

(** X14. A name that ends with a point and an extension of plain characters
    keeps that ending; when the extension has at most four characters the
    result has at most 200 characters. *)
Theorem sanitize_filename_extension base ext :
  ext <> [] -> forallb plain_char ext = true ->
  exists name,
    _sanitize_filename (base ++ lit "." ++ ext) = name ++ lit "." ++ ext
    /\ List.length name <= List.length base
    /\ (List.length ext <= 4 ->
        List.length (_sanitize_filename (base ++ lit "." ++ ext)) <= 200).
Proof.
  intros Hne H. change (lit "." ++ ext) with ("."%char :: ext).
  rewrite sanitize_limited, (substituted_app_ext base ext H).
  pose proof (substituted_length base) as Lb.
  assert (Hp : forallb not_point ext = true).
  { apply (forallb_weaken plain_char); [|exact H].
    intros c Hc. apply (plain_char_facts c Hc). }
  unfold limited.
  destruct (200 <? List.length (substituted base ++ "."%char :: ext)) eqn:L.
  - rewrite contains_point, (rsplit1_point _ ext Hp).
    destruct ext as [|c e]; [contradiction|].
    exists (firstn 195 (substituted base)).
    split; [reflexivity|]. split.
    + rewrite length_firstn. lia.
    + intros L4. rewrite length_app, length_firstn.
      cbn [lit list_ascii_of_string app List.length] in *. lia.
  - exists (substituted base). split; [reflexivity|]. split; [exact Lb|].
    intros _. apply Nat.ltb_ge in L. exact L.
Qed.

Lemma sanitize_filename_extension_witness :
  let base := lit "2024-03-16_ZOLVE:CREDIT/STATEMENT__03_15_2024" in
  let ext := lit "pdf" in
  ext <> [] /\ forallb plain_char ext = true
  /\ _sanitize_filename (base ++ lit "." ++ ext)
     = lit "2024-03-16_ZOLVE_CREDIT_STATEMENT_03_15_2024.pdf"
  /\ exists name,
       _sanitize_filename (base ++ lit "." ++ ext) = name ++ lit "." ++ ext
       /\ List.length name <= List.length base
       /\ (List.length ext <= 4 ->
           List.length (_sanitize_filename (base ++ lit "." ++ ext)) <= 200).
Proof.
  intros base ext.
  assert (Hne : ext <> []) by discriminate.
  assert (H : forallb plain_char ext = true) by reflexivity.
  split; [exact Hne|]. split; [exact H|]. split; [vm_compute; reflexivity|].
  exact (sanitize_filename_extension base ext Hne H).
Defined.

(* ================================================================== *)
(** ** The categorizer *)

(** X15. [categorize_with_ollama] never returns a text of the model as it
    is: a category that it returns is one of [VALID_CATEGORIES]. *)
Theorem categorize_returns_valid_category url model post description c :
  categorize_with_ollama url model post description = Some c ->
  In c VALID_CATEGORIES.
Proof.
  unfold categorize_with_ollama.
  destruct (post _ _ _) as [resp|e]; [|discriminate].
  destruct (negb (status_code resp =? 200)%Z); [discriminate|].
  destruct (json resp) as [[fields|]|e]; try discriminate.
  destruct (dict_get fields "response" (JString [])) as [r|]; [|discriminate].
  destruct (find _ VALID_CATEGORIES) as [v|] eqn:F; intros H; inversion H;
    subst.
  - apply find_some in F. apply F.
  - vm_compute. tauto.
Qed.

(** X16. When the server answers with status 200 and a reply that, white
    space and case apart, is the name of a category, that category is
    returned. *)
Theorem categorize_exact_name url model post description resp fields reply c :
  post (url ++ lit "/api/generate") (generate_request_for model description)
       30%Z = Ok resp ->
  status_code resp = 200%Z ->
  json resp = Ok (JObject fields) ->
  dict_get fields "response" (JString []) = JString reply ->
  In c VALID_CATEGORIES ->
  str_lower (strip reply) = str_lower c ->
  categorize_with_ollama url model post description = Some c.
Proof.
  intros Hp Hs Hj Hg Hc Hl. unfold categorize_with_ollama.
  rewrite Hp, Hs, Hj, Hg, Hl. cbn [Z.eqb Pos.eqb negb].
  unfold VALID_CATEGORIES in Hc. cbn [map In] in Hc.
  repeat (destruct Hc as [Hc|Hc]; [subst c; vm_compute; reflexivity|]).
  contradiction.
Qed.

Lemma categorize_returns_valid_category_witness :
  let post := replying (lit "I think this is travel, or shopping") in
  categorize_with_ollama (lit "http://localhost:11434") (lit "llama3.2:latest")
    post (lit "DELTA AIR LINES") = Some (lit "Shopping")
  /\ In (lit "Shopping") VALID_CATEGORIES.
Proof.
  intros post.
  assert (H : categorize_with_ollama (lit "http://localhost:11434")
                (lit "llama3.2:latest") post (lit "DELTA AIR LINES")
              = Some (lit "Shopping")) by (vm_compute; reflexivity).
  split; [exact H|].
  exact (categorize_returns_valid_category _ _ _ _ _ H).
Defined.

Lemma categorize_exact_name_witness :
  let url := lit "http://localhost:11434" in
  let model := lit "llama3.2:latest" in
  let reply := lit "  food & DINING " in
  let fields := [("response", JString reply)] in
  let resp := mk_response 200 (Ok (JObject fields)) in
  let c := lit "Food & Dining" in
  replying reply (url ++ lit "/api/generate")
    (generate_request_for model (lit "STARBUCKS")) 30%Z = Ok resp
  /\ In c VALID_CATEGORIES
  /\ str_lower (strip reply) = str_lower c
  /\ categorize_with_ollama url model (replying reply) (lit "STARBUCKS")
     = Some c.
Proof.
  intros url model reply fields resp c.
  assert (Hp : replying reply (url ++ lit "/api/generate")
                 (generate_request_for model (lit "STARBUCKS")) 30%Z
               = Ok resp) by reflexivity.
  assert (Hc : In c VALID_CATEGORIES) by (vm_compute; tauto).
  assert (Hl : str_lower (strip reply) = str_lower c)
    by (vm_compute; reflexivity).
  split; [exact Hp|]. split; [exact Hc|]. split; [exact Hl|].
  exact (categorize_exact_name url model (replying reply) (lit "STARBUCKS")
           resp fields reply c Hp eq_refl eq_refl eq_refl Hc Hl).
Defined.

(* ================================================================== *)
(** ** PDF attachments of a message *)

Lemma leaf_attachments_pdf get decode msg_id part atts name data :
  leaf_attachments get decode msg_id part = Ok atts ->
  In (name, data) atts ->
  is_pdf_attachment part = true /\ get_text (part_filename part) = name.
Proof.
  unfold leaf_attachments. destruct (is_pdf_attachment part);
    [|intros H; inversion H; contradiction].
  destruct (truthy_text _).
  - intros H. apply bind_Ok in H. destruct H as ([d|] & _ & H);
      [|discriminate].
    apply bind_Ok in H. destruct H as (decoded & _ & H). inversion H.
    intros [E|[]]. inversion E. auto.
  - destruct (truthy_text _); [|intros H; inversion H; contradiction].
    intros H. apply bind_Ok in H. destruct H as (decoded & _ & H).
    inversion H. intros [E|[]]. inversion E. auto.
Qed.

Lemma parts_loop_in visit ps :
  forall atts x,
    parts_loop visit ps = Ok atts -> In x atts ->
    exists part found,
      In part ps /\ visit part = Ok found /\ In x found.
Proof.
  induction ps as [|part ps IH]; intros atts x H Hx.
  - inversion H. subst. contradiction.
  - cbn [parts_loop] in H. apply bind_Ok in H. destruct H as (found & Hf & H).
    apply bind_Ok in H. destruct H as (others & Ho & H). inversion H. subst.
    apply in_app_or in Hx. destruct Hx as [Hx|Hx].
    + exists part, found. split; [left; reflexivity | auto].
    + destruct (IH others x Ho Hx) as (q & fq & Hq & Hv & Hin).
      exists q, fq. split; [right; exact Hq | auto].
Qed.

(** X17. Every attachment that [_get_pdf_attachments] returns comes from a
    part without nested parts, inside the payload, that has a file name
    and either the PDF type or a name ending with [.pdf] in any case; the
    name returned is the name of that part. *)
Theorem pdf_attachments_only get decode msg_id payload :
  forall atts name data,
    _get_pdf_attachments get decode msg_id payload = Ok atts ->
    In (name, data) atts ->
    exists part,
      part_of part payload /\ part_parts part = []
      /\ is_pdf_attachment part = true
      /\ get_text (part_filename part) = name.
Proof.
  induction payload as [f m b ps IH] using message_part_induction.
  intros atts name data H Hin. cbn [_get_pdf_attachments] in H.
  destruct ps as [|p ps].
  - destruct (truthy_text f).
    + destruct (parts_loop_in _ _ _ _ H Hin) as (q & found & Hq & Hv & Hx).
      destruct Hq as [Hq|[]]. subst q.
      destruct (leaf_attachments_pdf _ _ _ _ _ _ _ Hv Hx) as [P N].
      exists (MessagePart f m b []). repeat split; auto. constructor.
    + inversion H. subst. contradiction.
  - destruct (parts_loop_in _ _ _ _ H Hin) as (q & found & Hq & Hv & Hx).
    rewrite Forall_forall in IH. specialize (IH q Hq).
    destruct q as [qf qm qb [|q1 qs]].
    + destruct (leaf_attachments_pdf _ _ _ _ _ _ _ Hv Hx) as [P N].
      exists (MessagePart qf qm qb []). repeat split; auto.
      eapply part_of_nested; [exact Hq | constructor].
    + destruct (IH found name data Hv Hx) as (r & Hr & R).
      exists r. split; [|exact R].
      eapply part_of_nested; [exact Hq | exact Hr].
Qed.

Lemma pdf_attachments_only_witness :
  _get_pdf_attachments attachments_echo decode_empty (lit "m1")
    example_payload
  = Ok [(lit "Statement.PDF", [])]
  /\ exists part,
       part_of part example_payload /\ part_parts part = []
       /\ is_pdf_attachment part = true
       /\ get_text (part_filename part) = lit "Statement.PDF".
Proof.
  assert (H : _get_pdf_attachments attachments_echo decode_empty (lit "m1")
                example_payload
              = Ok [(lit "Statement.PDF", [])]) by reflexivity.
  split; [exact H|].
  exact (pdf_attachments_only attachments_echo decode_empty (lit "m1")
           example_payload _ (lit "Statement.PDF") [] H
           (or_introl eq_refl)).
Defined.

(* ================================================================== *)
(** ** The database client and the statement loop *)

Lemma batch_record_tx_dict id tx :
  batch_record id (tx_dict tx) = Ok (record_of id tx).
Proof. reflexivity. Qed.

Lemma batch_records_tx_dicts id txs :
  map_result (batch_record id) (map tx_dict txs)
  = Ok (map (record_of id) txs).
Proof.
  induction txs as [|tx txs IH]; [reflexivity|].
  cbn [map map_result]. rewrite batch_record_tx_dict, IH. reflexivity.
Qed.

(** The run of [update_status]: one request, and the outcome of the
    server. *)
Lemma update_status_run upd id status h :
  update_status upd id status h
  = (bind (upd h id status)
          (fun data => Ok (match data with
                           | Some (row :: _) => row
                           | _ => []
                           end)),
     h ++ [UpdateStatus id status]).
Proof.
  unfold update_status, io_bind, io_call, io_ret.
  destruct (upd h id status); reflexivity.
Qed.

(** The run of the batch insertion on the dicts of transactions. *)
Lemma insert_batch_run ins id tx txs h :
  insert_transactions_batch ins id (map tx_dict (tx :: txs)) h
  = (bind (ins h "transactions" (map (record_of id) (tx :: txs)))
          (fun data => Ok (match data with
                           | Some rows => rows
                           | None => []
                           end)),
     h ++ [InsertRecords "transactions" (map (record_of id) (tx :: txs))]).
Proof.
  unfold insert_transactions_batch, io_bind, io_lift.
  rewrite batch_records_tx_dicts. cbn [map].
  unfold io_call, io_ret.
  destruct (ins h "transactions" _); reflexivity.
Qed.

(** X18. On the dicts that [parse_statements.py] builds from parsed
    transactions, [insert_transactions_batch] raises no [KeyError]: it
    sends one insertion to the table [transactions], with one record per
    transaction, in order, made of the statement id and the five fields of
    the transaction, and returns the rows of the answer; with no
    transaction it sends nothing and returns the empty list. *)
Theorem insert_batch_of_transactions table_insert id txs h :
  insert_transactions_batch table_insert id (map tx_dict txs) h
  = match txs with
    | [] => (Ok [], h)
    | _ :: _ =>
        (bind (table_insert h "transactions" (map (record_of id) txs))
              (fun data => Ok (match data with
                               | Some rows => rows
                               | None => []
                               end)),
         h ++ [InsertRecords "transactions" (map (record_of id) txs)])
    end.
Proof.
  destruct txs as [|tx txs].
  - reflexivity.
  - apply insert_batch_run.
Qed.

Section StatementRun.

Variable statements_update :
  list call -> text -> text -> result (option (list pydict)).

Variable storage_download : list call -> text -> result (list byte).

Variable table_insert :
  list call -> string -> list pydict -> result (option (list pydict)).

Variable PDF_PASSWORD : text.

Variable pikepdf_Pdf : Type.

Variable pikepdf_open : list byte -> text -> result pikepdf_Pdf.

Variable pikepdf_save : pikepdf_Pdf -> result (list byte).

Variable pdfplumber_Page : Type.

Variable pdfplumber_pages : list byte -> result (list pdfplumber_Page).

Variable extract_text : pdfplumber_Page -> result (option text).

(** The run of the [try] block, request by request. *)
Lemma statement_body_run id path h :
  ParseStatements.statement_body statements_update storage_download
    table_insert PDF_PASSWORD pikepdf_open pikepdf_save pdfplumber_pages
    extract_text id path h
  = let h1 := h ++ [UpdateStatus id (lit "parsing")] in
    let h2 := h1 ++ [DownloadPdf path] in
    match statements_update h id (lit "parsing") with
    | Raise e => (Raise e, h1)
    | Ok _ =>
        match storage_download h1 path with
        | Raise e => (Raise e, h2)
        | Ok pdf_bytes =>
            match
              parse_statement_pdf pikepdf_open pikepdf_save pdfplumber_pages
                extract_text pdf_bytes PDF_PASSWORD
            with
            | Raise e => (Raise e, h2)
            | Ok (txs, _) =>
                let records := map (record_of id) txs in
                let h3 := match txs with
                          | [] => h2
                          | _ :: _ =>
                              h2 ++ [InsertRecords "transactions" records]
                          end in
                match
                  match txs with
                  | [] => Ok None
                  | _ :: _ => table_insert h2 "transactions" records
                  end
                with
                | Raise e => (Raise e, h3)
                | Ok _ =>
                    (bind (statements_update h3 id (lit "parsed"))
                          (fun _ => Ok tt),
                     h3 ++ [UpdateStatus id (lit "parsed")])
                end
            end
        end
    end.
Proof.
  unfold ParseStatements.statement_body.
  unfold io_bind at 1. rewrite update_status_run.
  destruct (statements_update h id (lit "parsing")) as [d1|e];
    [|reflexivity].
  cbn [bind]. unfold io_bind at 1. unfold download_pdf, io_call.
  destruct (storage_download _ path) as [pdf_bytes|e]; [|reflexivity].
  unfold io_bind at 1. unfold io_lift.
  destruct (parse_statement_pdf _ _ _ _ pdf_bytes PDF_PASSWORD)
    as [[txs summary]|e]; [|reflexivity].
  cbn [fst]. destruct txs as [|tx txs].
  - unfold io_bind at 1. unfold io_ret at 1. unfold io_bind.
    rewrite update_status_run.
    destruct (statements_update _ id (lit "parsed")); reflexivity.
  - unfold io_bind at 1. unfold io_bind at 1. rewrite insert_batch_run.
    destruct (table_insert _ "transactions" _) as [d2|e]; [|reflexivity].
    cbn [bind]. unfold io_ret at 1. unfold io_bind.
    rewrite update_status_run.
    destruct (statements_update _ id (lit "parsed")); reflexivity.
Qed.

End StatementRun.

Section StatementProperties.

Variable statements_update :
  list call -> text -> text -> result (option (list pydict)).

Variable storage_download : list call -> text -> result (list byte).

Variable table_insert :
  list call -> string -> list pydict -> result (option (list pydict)).

Variable PDF_PASSWORD : text.

Variable pikepdf_Pdf : Type.

Variable pikepdf_open : list byte -> text -> result pikepdf_Pdf.

Variable pikepdf_save : pikepdf_Pdf -> result (list byte).

Variable pdfplumber_Page : Type.

Variable pdfplumber_pages : list byte -> result (list pdfplumber_Page).

Variable extract_text : pdfplumber_Page -> result (option text).

(** The [try] block sends the update to [parsing] first; it ends well
    after the update to [parsed], or raises after some requests. *)
Lemma statement_body_requests id path h r h' :
  ParseStatements.statement_body statements_update storage_download
    table_insert PDF_PASSWORD pikepdf_open pikepdf_save pdfplumber_pages
    extract_text id path h = (r, h') ->
  exists mid,
    (r = Ok tt
     /\ h' = (h ++ UpdateStatus id (lit "parsing") :: mid)
             ++ [UpdateStatus id (lit "parsed")])
    \/ ((exists e, r = Raise e)
        /\ h' = h ++ UpdateStatus id (lit "parsing") :: mid).
Proof.
  rewrite statement_body_run. cbv zeta.
  destruct (statements_update h id (lit "parsing")) as [d1|e].
  2:{ intros H. inversion H. exists []. right. split; [eauto|reflexivity]. }
  destruct (storage_download _ path) as [pdf_bytes|e].
  2:{ intros H. inversion H. exists [DownloadPdf path]. right.
      split; [eauto|]. rewrite <- app_assoc. reflexivity. }
  destruct (parse_statement_pdf _ _ _ _ pdf_bytes PDF_PASSWORD)
    as [[txs summary]|e].
  2:{ intros H. inversion H. exists [DownloadPdf path]. right.
      split; [eauto|]. rewrite <- app_assoc. reflexivity. }
  destruct txs as [|tx txs].
  - destruct (statements_update _ id (lit "parsed")) as [d3|e];
      intros H; inversion H.
    + exists [DownloadPdf path]. left. split; [reflexivity|].
      rewrite <- !app_assoc. reflexivity.
    + exists [DownloadPdf path; UpdateStatus id (lit "parsed")]. right.
      split; [eauto|]. rewrite <- !app_assoc. reflexivity.
  - destruct (table_insert _ "transactions" _) as [d2|e].
    + destruct (statements_update _ id (lit "parsed")) as [d3|e];
        intros H; inversion H.
      * exists [DownloadPdf path;
                InsertRecords "transactions"
                  (map (record_of id) (tx :: txs))].
        left. split; [reflexivity|]. rewrite <- !app_assoc. reflexivity.
      * exists [DownloadPdf path;
                InsertRecords "transactions"
                  (map (record_of id) (tx :: txs));
                UpdateStatus id (lit "parsed")].
        right. split; [eauto|]. rewrite <- !app_assoc. reflexivity.
    + intros H. inversion H.
      exists [DownloadPdf path;
              InsertRecords "transactions"
                (map (record_of id) (tx :: txs))].
      right. split; [eauto|]. rewrite <- !app_assoc. reflexivity.
Qed.

(** X19. The status protocol of one statement.  For a row with an id and a
    storage path, the requests that the loop body adds start with the
    update to [parsing] and end with an update to [parsed] or to [error].
    When the last one is [parsed] the body ends well; when it is [error]
    the body ends well exactly when that update is accepted: an exception
    of the download, of the PDF libraries, of the parser or of the
    insertion never leaves the body. *)
Theorem statement_status_protocol stmt id h r h' :
  row_id stmt = Some id ->
  truthy_text (row_storage_path stmt) = true ->
  ParseStatements.process_statement statements_update storage_download
    table_insert PDF_PASSWORD pikepdf_open pikepdf_save pdfplumber_pages
    extract_text stmt h = (r, h') ->
  exists mid final,
    let before := h ++ UpdateStatus id (lit "parsing") :: mid in
    h' = before ++ [UpdateStatus id final]
    /\ ((final = lit "parsed" /\ r = Ok tt)
        \/ (final = lit "error"
            /\ r = bind (statements_update before id (lit "error"))
                        (fun _ => Ok tt))).
Proof.
  intros Hid Hp. unfold ParseStatements.process_statement.
  rewrite Hid, Hp. cbn [negb]. unfold io_try.
  destruct (ParseStatements.statement_body _ _ _ _ _ _ _ _ id _ h)
    as [rb hb] eqn:B.
  destruct (statement_body_requests _ _ _ _ _ B) as (mid & [[Er Eh]|[[e Er] Eh]]).
  - subst rb. intros H. inversion H. subst.
    exists mid, (lit "parsed"). split; [reflexivity|]. left. auto.
  - subst rb. unfold io_bind. rewrite update_status_run.
    intros H. exists mid, (lit "error"). cbv zeta. rewrite <- Eh.
    destruct (statements_update hb id (lit "error")) as [d|e'];
      inversion H; split; auto.
Qed.

(** X20. A statement whose PDF cannot be decrypted, read or parsed (an
    amount field that [float] rejects, for one) sends three requests: the
    update to [parsing], the download and the update to [error]; nothing
    is inserted. *)
Theorem unparsable_statement_marked_error stmt id path h d pdf_bytes e :
  row_id stmt = Some id ->
  row_storage_path stmt = Some path -> path <> [] ->
  statements_update h id (lit "parsing") = Ok d ->
  storage_download (h ++ [UpdateStatus id (lit "parsing")]) path
  = Ok pdf_bytes ->
  parse_statement_pdf pikepdf_open pikepdf_save pdfplumber_pages extract_text
    pdf_bytes PDF_PASSWORD = Raise e ->
  let before := h ++ [UpdateStatus id (lit "parsing"); DownloadPdf path] in
  ParseStatements.process_statement statements_update storage_download
    table_insert PDF_PASSWORD pikepdf_open pikepdf_save pdfplumber_pages
    extract_text stmt h
  = (bind (statements_update before id (lit "error")) (fun _ => Ok tt),
     before ++ [UpdateStatus id (lit "error")]).
Proof.
  intros Hid Hp Hne Hu Hd He. cbv zeta.
  unfold ParseStatements.process_statement. rewrite Hid, Hp.
  destruct path as [|c path]; [contradiction|].
  cbn [truthy_text negb get_text]. unfold io_try.
  rewrite statement_body_run. cbv zeta. rewrite Hu, Hd, He.
  unfold io_bind. rewrite update_status_run.
  replace ((h ++ [UpdateStatus id (lit "parsing")])
           ++ [DownloadPdf (c :: path)])
    with (h ++ [UpdateStatus id (lit "parsing"); DownloadPdf (c :: path)])
    by (rewrite <- app_assoc; reflexivity).
  destruct (statements_update _ id (lit "error")); reflexivity.
Qed.

(** X21. A statement that is downloaded and parsed, when the server accepts
    every request: its transactions go to the table in one insertion, sent
    between the download and the update to [parsed]; a statement without
    transactions is marked [parsed] with no insertion at all. *)
Theorem parsed_statement_requests stmt id path h pdf_bytes txs summary :
  row_id stmt = Some id ->
  row_storage_path stmt = Some path -> path <> [] ->
  (forall h' status, exists d, statements_update h' id status = Ok d) ->
  (forall h' records, exists d,
      table_insert h' "transactions" records = Ok d) ->
  storage_download (h ++ [UpdateStatus id (lit "parsing")]) path
  = Ok pdf_bytes ->
  parse_statement_pdf pikepdf_open pikepdf_save pdfplumber_pages extract_text
    pdf_bytes PDF_PASSWORD = Ok (txs, summary) ->
  ParseStatements.process_statement statements_update storage_download
    table_insert PDF_PASSWORD pikepdf_open pikepdf_save pdfplumber_pages
    extract_text stmt h
  = (Ok tt,
     h ++ [UpdateStatus id (lit "parsing"); DownloadPdf path]
       ++ match txs with
          | [] => []
          | _ :: _ =>
              [InsertRecords "transactions" (map (record_of id) txs)]
          end
       ++ [UpdateStatus id (lit "parsed")]).
Proof.
  intros Hid Hp Hne Hu Hi Hd Hparse.
  unfold ParseStatements.process_statement. rewrite Hid, Hp.
  destruct path as [|c path]; [contradiction|].
  cbn [truthy_text negb get_text]. unfold io_try.
  rewrite statement_body_run. cbv zeta.
  destruct (Hu h (lit "parsing")) as [d1 E1]. rewrite E1, Hd, Hparse.
  destruct txs as [|tx txs].
  - destruct (Hu ((h ++ [UpdateStatus id (lit "parsing")])
                    ++ [DownloadPdf (c :: path)]) (lit "parsed"))
      as [d3 E3].
    rewrite E3. cbn [bind]. rewrite <- !app_assoc. reflexivity.
  - destruct (Hi ((h ++ [UpdateStatus id (lit "parsing")])
                    ++ [DownloadPdf (c :: path)])
                (map (record_of id) (tx :: txs))) as [d2 E2].
    rewrite E2.
    destruct (Hu (((h ++ [UpdateStatus id (lit "parsing")])
                     ++ [DownloadPdf (c :: path)])
                    ++ [InsertRecords "transactions"
                          (map (record_of id) (tx :: txs))]) (lit "parsed"))
      as [d3 E3].
    rewrite E3. cbn [bind]. rewrite <- !app_assoc. reflexivity.
Qed.

(** Where an element of a list extended by one request can sit. *)
Lemma snoc_split (h : list call) c sent_before x sent_after :
  h ++ [c] = sent_before ++ x :: sent_after ->
  (sent_after = [] /\ sent_before = h /\ x = c)
  \/ exists rest, sent_after = rest ++ [c] /\ h = sent_before ++ x :: rest.
Proof.
  intros E. destruct sent_after as [|y l].
  - left. apply app_inj_tail in E. destruct E as [E1 E2]. auto.
  - right. assert (N : y :: l <> []) by discriminate.
    destruct (exists_last N) as (rest & z & El). rewrite El in E.
    change (sent_before ++ x :: rest ++ [z])
      with (sent_before ++ (x :: rest) ++ [z]) in E.
    rewrite app_assoc in E. apply app_inj_tail in E.
    destruct E as [E1 E2]. subst z. exists rest. rewrite El. auto.
Qed.

(** A request that is not an insertion keeps the insertions accounted
    for; so does an insertion that is accounted for itself. *)
Lemma accounted_other statements h c :
  ParseStatements.insertions_accounted storage_download PDF_PASSWORD
    pikepdf_open pikepdf_save pdfplumber_pages extract_text statements h ->
  (forall table records, c <> InsertRecords table records) ->
  ParseStatements.insertions_accounted storage_download PDF_PASSWORD
    pikepdf_open pikepdf_save pdfplumber_pages extract_text statements
    (h ++ [c]).
Proof.
  intros Hh Hc sent_before table records sent_after E.
  destruct (snoc_split _ _ _ _ _ E) as [(_ & _ & Ex)|(rest & _ & Eh)].
  - symmetry in Ex. destruct (Hc _ _ Ex).
  - exact (Hh _ _ _ _ Eh).
Qed.

Lemma accounted_insertion statements h table records :
  ParseStatements.insertions_accounted storage_download PDF_PASSWORD
    pikepdf_open pikepdf_save pdfplumber_pages extract_text statements h ->
  ParseStatements.insertion_accounted storage_download PDF_PASSWORD
    pikepdf_open pikepdf_save pdfplumber_pages extract_text statements h
    table records ->
  ParseStatements.insertions_accounted storage_download PDF_PASSWORD
    pikepdf_open pikepdf_save pdfplumber_pages extract_text statements
    (h ++ [InsertRecords table records]).
Proof.
  intros Hh Hi sent_before table' records' sent_after E.
  destruct (snoc_split _ _ _ _ _ E) as [(_ & Eb & Ex)|(rest & _ & Eh)].
  - inversion Ex. subst. exact Hi.
  - exact (Hh _ _ _ _ Eh).
Qed.

(** The loop body keeps the insertions accounted for. *)
Lemma process_statement_accounted statements stmt h :
  In stmt statements ->
  ParseStatements.insertions_accounted storage_download PDF_PASSWORD
    pikepdf_open pikepdf_save pdfplumber_pages extract_text statements h ->
  ParseStatements.insertions_accounted storage_download PDF_PASSWORD
    pikepdf_open pikepdf_save pdfplumber_pages extract_text statements
    (snd (ParseStatements.process_statement statements_update
            storage_download table_insert PDF_PASSWORD pikepdf_open
            pikepdf_save pdfplumber_pages extract_text stmt h)).
Proof.
  intros Hin Hh. unfold ParseStatements.process_statement.
  destruct (row_id stmt) as [id|] eqn:Hid; [|exact Hh].
  destruct (row_storage_path stmt) as [[|c p]|] eqn:Hp;
    [exact Hh | | exact Hh].
  cbn [truthy_text negb get_text].
  unfold io_try. rewrite statement_body_run. cbv zeta.
  set (path := c :: p) in *.
  assert (U : forall h0 status,
             ParseStatements.insertions_accounted storage_download
               PDF_PASSWORD pikepdf_open pikepdf_save pdfplumber_pages
               extract_text statements h0 ->
             ParseStatements.insertions_accounted storage_download
               PDF_PASSWORD pikepdf_open pikepdf_save pdfplumber_pages
               extract_text statements (h0 ++ [UpdateStatus id status])).
  { intros h0 status H0. apply accounted_other; [exact H0|].
    intros table records. discriminate. }
  assert (D : forall h0,
             ParseStatements.insertions_accounted storage_download
               PDF_PASSWORD pikepdf_open pikepdf_save pdfplumber_pages
               extract_text statements h0 ->
             ParseStatements.insertions_accounted storage_download
               PDF_PASSWORD pikepdf_open pikepdf_save pdfplumber_pages
               extract_text statements (h0 ++ [DownloadPdf path])).
  { intros h0 H0. apply accounted_other; [exact H0|].
    intros table records. discriminate. }
  assert (E : forall (e : exn) h0,
             ParseStatements.insertions_accounted storage_download
               PDF_PASSWORD pikepdf_open pikepdf_save pdfplumber_pages
               extract_text statements h0 ->
             ParseStatements.insertions_accounted storage_download
               PDF_PASSWORD pikepdf_open pikepdf_save pdfplumber_pages
               extract_text statements
               (snd (io_bind (update_status statements_update id
                                (lit "error"))
                             (fun _ => io_ret tt) h0))).
  { intros e h0 H0. unfold io_bind. rewrite update_status_run.
    destruct (bind _ _); cbn [snd io_ret]; apply U; exact H0. }
  destruct (statements_update h id (lit "parsing")) as [d1|e].
  2:{ apply (E e). apply U. exact Hh. }
  destruct (storage_download _ path) as [pdf_bytes|e] eqn:Hd.
  2:{ apply (E e). apply D. apply U. exact Hh. }
  destruct (parse_statement_pdf _ _ _ _ pdf_bytes PDF_PASSWORD)
    as [[txs summary]|e] eqn:P.
  2:{ apply (E e). apply D. apply U. exact Hh. }
  assert (T : Forall transaction_ok txs).
  { pose proof P as P'. unfold parse_statement_pdf in P'.
    apply bind_Ok in P'. destruct P' as (decrypted & _ & P').
    apply bind_Ok in P'. destruct P' as (pages_text & _ & P').
    exact (parse_transactions_ok _ _ _ P'). }
  assert (H3 : ParseStatements.insertions_accounted storage_download
                 PDF_PASSWORD pikepdf_open pikepdf_save pdfplumber_pages
                 extract_text statements
                 (match txs with
                  | [] => (h ++ [UpdateStatus id (lit "parsing")])
                          ++ [DownloadPdf path]
                  | _ :: _ =>
                      ((h ++ [UpdateStatus id (lit "parsing")])
                       ++ [DownloadPdf path])
                      ++ [InsertRecords "transactions"
                            (map (record_of id) txs)]
                  end)).
  { destruct txs as [|tx txs].
    - apply D. apply U. exact Hh.
    - apply accounted_insertion; [apply D; apply U; exact Hh|].
      split; [reflexivity|].
      exists stmt, id, path, h, pdf_bytes, (tx :: txs), summary.
      split; [exact Hin|]. split; [exact Hid|]. split; [exact Hp|].
      split; [rewrite <- app_assoc; reflexivity|].
      split; [exact Hd|]. split; [exact P|].
      split; [discriminate|]. split; [exact T | reflexivity]. }
  destruct (match txs with
            | [] => Ok None
            | _ :: _ => table_insert _ "transactions" _
            end) as [d2|e].
  - destruct (bind (statements_update _ id (lit "parsed")) _) as [[]|e].
    + cbn [snd]. apply U. exact H3.
    + apply (E e). apply U. exact H3.
  - apply (E e). exact H3.
Qed.

Lemma statements_loop_accounted statements rest :
  forall h,
    incl rest statements ->
    ParseStatements.insertions_accounted storage_download PDF_PASSWORD
      pikepdf_open pikepdf_save pdfplumber_pages extract_text statements h ->
    ParseStatements.insertions_accounted storage_download PDF_PASSWORD
      pikepdf_open pikepdf_save pdfplumber_pages extract_text statements
      (snd (ParseStatements.statements_loop statements_update
              storage_download table_insert PDF_PASSWORD pikepdf_open
              pikepdf_save pdfplumber_pages extract_text rest h)).
Proof.
  induction rest as [|stmt rest IH]; intros h Hincl Hh.
  - exact Hh.
  - cbn [ParseStatements.statements_loop]. unfold io_bind.
    assert (Hin : In stmt statements)
      by (apply Hincl; left; reflexivity).
    pose proof (process_statement_accounted statements stmt h Hin Hh) as P.
    destruct (ParseStatements.process_statement _ _ _ _ _ _ _ _ stmt h)
      as [[u|e] h1].
    + apply IH; [|exact P]. intros x Hx. apply Hincl. right. exact Hx.
    + exact P.
Qed.

(** The loop body ends well when every update to [error] is accepted. *)
Lemma process_statement_ends_well stmt h :
  row_id stmt <> None ->
  (forall h' id, exists d, statements_update h' id (lit "error") = Ok d) ->
  fst (ParseStatements.process_statement statements_update storage_download
         table_insert PDF_PASSWORD pikepdf_open pikepdf_save pdfplumber_pages
         extract_text stmt h) = Ok tt.
Proof.
  intros Hid Hu. unfold ParseStatements.process_statement.
  destruct (row_id stmt) as [id|]; [|contradiction].
  destruct (negb (truthy_text (row_storage_path stmt))); [reflexivity|].
  unfold io_try.
  destruct (ParseStatements.statement_body _ _ _ _ _ _ _ _ id _ h)
    as [[[]|e] hb].
  - reflexivity.
  - unfold io_bind. rewrite update_status_run.
    destruct (Hu hb id) as [d E]. rewrite E. reflexivity.
Qed.

Lemma statements_loop_ends_well statements :
  forall h,
    Forall (fun stmt => row_id stmt <> None) statements ->
    (forall h' id, exists d, statements_update h' id (lit "error") = Ok d) ->
    fst (ParseStatements.statements_loop statements_update storage_download
           table_insert PDF_PASSWORD pikepdf_open pikepdf_save
           pdfplumber_pages extract_text statements h) = Ok tt.
Proof.
  induction statements as [|stmt rest IH]; intros h Hall Hu.
  - reflexivity.
  - inversion Hall as [|s l Hs Hrest]. subst.
    cbn [ParseStatements.statements_loop]. unfold io_bind.
    pose proof (process_statement_ends_well stmt h Hs Hu) as P.
    destruct (ParseStatements.process_statement _ _ _ _ _ _ _ _ stmt h)
      as [r h1]. cbn [fst] in P. subst r.
    apply IH; assumption.
Qed.

Variable SUPABASE_URL : option text.

Variable SUPABASE_KEY : option text.

Variable create_client : text -> text -> result unit.

Variable statements_select : list call -> text -> result (list statement_row).

(** X22. Whatever the server and the PDF libraries do, every insertion that
    [main] sends is accounted for by a statement that it fetched: the
    insertion goes to the table [transactions]; the two requests before it
    are the update to [parsing] and the download for that statement; and
    its records are, in order and under the id of the statement, those of
    the transactions that [parse_statement_pdf] returned for the bytes
    downloaded, at least one, each with an amount [>= 0], the type credit
    or debit and calendar dates. *)
Theorem main_inserts_parsed_transactions
    sent_before table records sent_after :
  snd (ParseStatements.main SUPABASE_URL SUPABASE_KEY create_client
         statements_select statements_update storage_download
         table_insert PDF_PASSWORD pikepdf_open pikepdf_save
         pdfplumber_pages extract_text)
  = sent_before ++ InsertRecords table records :: sent_after ->
  table = "transactions"
  /\ exists statements stmt stmt_id storage_path h pdf_bytes transactions
            summary,
       statements_select [] (lit "not_parsed") = Ok statements
       /\ In stmt statements
       /\ row_id stmt = Some stmt_id
       /\ row_storage_path stmt = Some storage_path
       /\ sent_before
          = h ++ [UpdateStatus stmt_id (lit "parsing");
                  DownloadPdf storage_path]
       /\ storage_download (h ++ [UpdateStatus stmt_id (lit "parsing")])
            storage_path = Ok pdf_bytes
       /\ parse_statement_pdf pikepdf_open pikepdf_save pdfplumber_pages
            extract_text pdf_bytes PDF_PASSWORD = Ok (transactions, summary)
       /\ transactions <> []
       /\ Forall transaction_ok transactions
       /\ records = map (record_of stmt_id) transactions.
Proof.
  unfold ParseStatements.main.
  assert (N : forall l x (r : list call), [] <> l ++ x :: r).
  { intros l x r E. symmetry in E. apply app_eq_nil in E.
    destruct E as [_ E]. discriminate E. }
  destruct (get_supabase_client _ _ _);
    [|intros E; destruct (N _ _ _ E)].
  unfold get_statements_by_status, io_call. cbn [app].
  assert (S : forall l x (r : list call),
             x <> SelectStatements (lit "not_parsed") ->
             [SelectStatements (lit "not_parsed")] <> l ++ x :: r).
  { intros l x r Hx E. destruct l as [|y l].
    - inversion E. subst. contradiction.
    - inversion E. destruct (N _ _ _ H1). }
  destruct (statements_select [] (lit "not_parsed"))
    as [statements|e] eqn:Hsel.
  2:{ intros E. apply S in E; [destruct E | discriminate]. }
  assert (A : ParseStatements.insertions_accounted storage_download
                PDF_PASSWORD pikepdf_open pikepdf_save pdfplumber_pages
                extract_text statements
                [SelectStatements (lit "not_parsed")]).
  { intros sb tb rs sa E. apply S in E; [destruct E | discriminate]. }
  assert (L : ParseStatements.insertions_accounted storage_download
                PDF_PASSWORD pikepdf_open pikepdf_save pdfplumber_pages
                extract_text statements
                (snd (match statements with
                      | [] => (0%Z, [SelectStatements (lit "not_parsed")])
                      | _ :: _ =>
                          match
                            ParseStatements.statements_loop
                              statements_update storage_download
                              table_insert PDF_PASSWORD pikepdf_open
                              pikepdf_save pdfplumber_pages extract_text
                              statements
                              [SelectStatements (lit "not_parsed")]
                          with
                          | (Raise _, h') => (1%Z, h')
                          | (Ok _, h') => (0%Z, h')
                          end
                      end))).
  { destruct statements as [|stmt rest]; [exact A|].
    pose proof (statements_loop_accounted (stmt :: rest) (stmt :: rest)
                  _ (incl_refl _) A) as L.
    destruct (ParseStatements.statements_loop _ _ _ _ _ _ _ _
                (stmt :: rest) _) as [[u|e] h']; exact L. }
  intros E. destruct (L _ _ _ _ E) as (Et & stmt & id & path & h & pdf_bytes
                                       & txs & summary & R).
  split; [exact Et|].
  exists statements, stmt, id, path, h, pdf_bytes, txs, summary.
  split; [reflexivity | exact R].
Qed.

(** X23. A failure inside the processing of a statement does not fail the
    run: when the client is created, the rows are fetched, every row has
    an id and the server accepts the updates to [error], [main] returns 0,
    whatever the downloads, the PDF libraries, the parser, the insertions
    and the other updates do. *)
Theorem main_returns_0 statements :
  get_supabase_client SUPABASE_URL SUPABASE_KEY create_client = Ok tt ->
  statements_select [] (lit "not_parsed") = Ok statements ->
  Forall (fun stmt => row_id stmt <> None) statements ->
  (forall h id, exists d, statements_update h id (lit "error") = Ok d) ->
  fst (ParseStatements.main SUPABASE_URL SUPABASE_KEY create_client
         statements_select statements_update storage_download table_insert
         PDF_PASSWORD pikepdf_open pikepdf_save pdfplumber_pages
         extract_text) = 0%Z.
Proof.
  intros Hc Hs Hall Hu. unfold ParseStatements.main. rewrite Hc.
  unfold get_statements_by_status, io_call. rewrite Hs.
  destruct statements as [|stmt rest]; [reflexivity|].
  pose proof (statements_loop_ends_well (stmt :: rest)
                ([] ++ [SelectStatements (lit "not_parsed")]) Hall Hu) as L.
  destruct (ParseStatements.statements_loop _ _ _ _ _ _ _ _ (stmt :: rest) _)
    as [r h']. cbn [fst] in L. subst r. reflexivity.
Qed.

End StatementProperties.

Lemma statement_status_protocol_witness :
  ParseStatements.process_statement update_accepting (download_fixed [])
    insert_accepting (lit "pw") open_accepting save_bytes
    (pages_fixed [Some malformed_page]) text_of_page example_row []
  = (Ok tt,
     [UpdateStatus (lit "s1") (lit "parsing"); DownloadPdf (lit "zolve/a.pdf");
      UpdateStatus (lit "s1") (lit "error")])
  /\ exists mid final,
       let before := [] ++ UpdateStatus (lit "s1") (lit "parsing") :: mid in
       [UpdateStatus (lit "s1") (lit "parsing");
        DownloadPdf (lit "zolve/a.pdf");
        UpdateStatus (lit "s1") (lit "error")]
       = before ++ [UpdateStatus (lit "s1") final]
       /\ ((final = lit "parsed" /\ Ok tt = Ok tt)
           \/ (final = lit "error"
               /\ Ok tt = bind (update_accepting before (lit "s1")
                                  (lit "error"))
                               (fun _ => Ok tt))).
Proof.
  assert (H : ParseStatements.process_statement update_accepting
                (download_fixed []) insert_accepting (lit "pw")
                open_accepting save_bytes
                (pages_fixed [Some malformed_page]) text_of_page
                example_row []
              = (Ok tt,
                 [UpdateStatus (lit "s1") (lit "parsing");
                  DownloadPdf (lit "zolve/a.pdf");
                  UpdateStatus (lit "s1") (lit "error")]))
    by (vm_compute; reflexivity).
  split; [exact H|].
  exact (statement_status_protocol update_accepting (download_fixed [])
           insert_accepting (lit "pw") _ open_accepting save_bytes _
           (pages_fixed [Some malformed_page]) text_of_page example_row
           (lit "s1") [] (Ok tt) _ eq_refl eq_refl H).
Defined.

Lemma unparsable_statement_marked_error_witness :
  parse_statement_pdf open_accepting save_bytes
    (pages_fixed [Some malformed_page]) text_of_page [] (lit "pw")
  = Raise ValueError
  /\ ParseStatements.process_statement update_accepting (download_fixed [])
       insert_accepting (lit "pw") open_accepting save_bytes
       (pages_fixed [Some malformed_page]) text_of_page example_row []
     = (Ok tt,
        [UpdateStatus (lit "s1") (lit "parsing");
         DownloadPdf (lit "zolve/a.pdf");
         UpdateStatus (lit "s1") (lit "error")]).
Proof.
  assert (H : parse_statement_pdf open_accepting save_bytes
                (pages_fixed [Some malformed_page]) text_of_page []
                (lit "pw") = Raise ValueError)
    by (vm_compute; reflexivity).
  assert (N : lit "zolve/a.pdf" <> []) by discriminate.
  split; [exact H|].
  exact (unparsable_statement_marked_error update_accepting
           (download_fixed []) insert_accepting (lit "pw") _ open_accepting
           save_bytes _ (pages_fixed [Some malformed_page]) text_of_page
           example_row (lit "s1") (lit "zolve/a.pdf") [] None []
           ValueError eq_refl eq_refl N eq_refl eq_refl H).
Defined.

Lemma parsed_statement_requests_witness :
  let tx := mk_Transaction (mk_datetime 2024 3 9) (mk_datetime 2024 3 8)
              (lit "GROCERY STORE") (Fin (821 # 10)) (lit "debit") in
  parse_statement_pdf open_accepting save_bytes
    (pages_fixed [Some purchase_page]) text_of_page [] (lit "pw")
  = Ok ([tx], empty_summary)
  /\ ParseStatements.process_statement update_accepting (download_fixed [])
       insert_accepting (lit "pw") open_accepting save_bytes
       (pages_fixed [Some purchase_page]) text_of_page example_row []
     = (Ok tt,
        [UpdateStatus (lit "s1") (lit "parsing");
         DownloadPdf (lit "zolve/a.pdf");
         InsertRecords "transactions" [record_of (lit "s1") tx];
         UpdateStatus (lit "s1") (lit "parsed")]).
Proof.
  intros tx.
  assert (H : parse_statement_pdf open_accepting save_bytes
                (pages_fixed [Some purchase_page]) text_of_page []
                (lit "pw") = Ok ([tx], empty_summary))
    by (vm_compute; reflexivity).
  assert (N : lit "zolve/a.pdf" <> []) by discriminate.
  split; [exact H|].
  exact (parsed_statement_requests update_accepting (download_fixed [])
           insert_accepting (lit "pw") _ open_accepting save_bytes _
           (pages_fixed [Some purchase_page]) text_of_page example_row
           (lit "s1") (lit "zolve/a.pdf") [] [] [tx] empty_summary
           eq_refl eq_refl N
           (fun _ _ => ex_intro _ None eq_refl)
           (fun _ _ => ex_intro _ None eq_refl)
           eq_refl H).
Defined.

Lemma main_returns_0_witness :
  ParseStatements.main (Some (lit "https://db.example")) (Some (lit "key"))
    client_created (select_fixed [example_row]) update_accepting
    (download_fixed []) insert_accepting (lit "pw") open_accepting save_bytes
    (pages_fixed [Some malformed_page]) text_of_page
  = (0%Z,
     [SelectStatements (lit "not_parsed");
      UpdateStatus (lit "s1") (lit "parsing");
      DownloadPdf (lit "zolve/a.pdf");
      UpdateStatus (lit "s1") (lit "error")])
  /\ fst (ParseStatements.main (Some (lit "https://db.example"))
            (Some (lit "key")) client_created (select_fixed [example_row])
            update_accepting (download_fixed []) insert_accepting (lit "pw")
            open_accepting save_bytes (pages_fixed [Some malformed_page])
            text_of_page) = 0%Z.
Proof.
  split; [vm_compute; reflexivity|].
  assert (A : Forall (fun stmt => row_id stmt <> None) [example_row]).
  { constructor; [discriminate | constructor]. }
  exact (main_returns_0 update_accepting (download_fixed [])
           insert_accepting (lit "pw") _ open_accepting save_bytes _
           (pages_fixed [Some malformed_page]) text_of_page
           (Some (lit "https://db.example")) (Some (lit "key"))
           client_created (select_fixed [example_row]) [example_row]
           eq_refl eq_refl A (fun _ _ => ex_intro _ None eq_refl)).
Defined.

Lemma main_inserts_parsed_transactions_witness :
  let tx := mk_Transaction (mk_datetime 2024 3 9) (mk_datetime 2024 3 8)
              (lit "GROCERY STORE") (Fin (821 # 10)) (lit "debit") in
  let sent_before := [SelectStatements (lit "not_parsed");
                      UpdateStatus (lit "s1") (lit "parsing");
                      DownloadPdf (lit "zolve/a.pdf")] in
  let records := [record_of (lit "s1") tx] in
  let sent_after := [UpdateStatus (lit "s1") (lit "parsed")] in
  snd (ParseStatements.main (Some (lit "https://db.example"))
         (Some (lit "key")) client_created (select_fixed [example_row])
         update_accepting (download_fixed []) insert_accepting (lit "pw")
         open_accepting save_bytes (pages_fixed [Some purchase_page])
         text_of_page)
  = sent_before ++ InsertRecords "transactions" records :: sent_after
  /\ exists statements stmt stmt_id storage_path h pdf_bytes transactions
            summary,
       select_fixed [example_row] [] (lit "not_parsed") = Ok statements
       /\ In stmt statements
       /\ row_id stmt = Some stmt_id
       /\ row_storage_path stmt = Some storage_path
       /\ sent_before
          = h ++ [UpdateStatus stmt_id (lit "parsing");
                  DownloadPdf storage_path]
       /\ download_fixed [] (h ++ [UpdateStatus stmt_id (lit "parsing")])
            storage_path = Ok pdf_bytes
       /\ parse_statement_pdf open_accepting save_bytes
            (pages_fixed [Some purchase_page]) text_of_page pdf_bytes
            (lit "pw") = Ok (transactions, summary)
       /\ transactions <> []
       /\ Forall transaction_ok transactions
       /\ records = map (record_of stmt_id) transactions.
Proof.
  intros tx sent_before records sent_after.
  assert (H : snd (ParseStatements.main (Some (lit "https://db.example"))
                     (Some (lit "key")) client_created
                     (select_fixed [example_row]) update_accepting
                     (download_fixed []) insert_accepting (lit "pw")
                     open_accepting save_bytes
                     (pages_fixed [Some purchase_page]) text_of_page)
              = sent_before ++ InsertRecords "transactions" records
                                 :: sent_after)
    by (vm_compute; reflexivity).
  split; [exact H|].
  exact (proj2 (main_inserts_parsed_transactions update_accepting
                  (download_fixed []) insert_accepting (lit "pw") _
                  open_accepting save_bytes _
                  (pages_fixed [Some purchase_page]) text_of_page
                  (Some (lit "https://db.example")) (Some (lit "key"))
                  client_created (select_fixed [example_row])
                  sent_before "transactions" records sent_after H)).
Defined.
